(** * Media downloader: URL classifier, platform resolvers and downloader

    A shallow embedding of the Python sources [url_parser.py], [base.py],
    [tiktok.py], [instagram.py], [pinterest.py] and [file_handler.py], and
    the properties of the specification established (or refuted) on it,
    followed by further properties of the code.

    Conventions of the embedding.
    - Python [str] and [bytes] are [string]s of 8-bit characters; in a
      [str] a character stands for the code point of its number, so that
      the character classes of [re] and [str.lower] are the ones of Python
      on the code points below 256.
    - A Python dict with string keys is a [gmap string value]; a missing key
      and a key bound to [None] are different things, as in Python.
    - The network and [json.loads] are not code of this repository: they are
      parameters of the embedding ([net], [json_loads]).  The file system is
      a finite map from paths to file contents; whether a path can be opened
      for writing is a parameter too ([open_error]).
    - An exception has a class; [CancelledError] and [KeyboardInterrupt]
      stand for the classes that derive from [BaseException] only, which an
      [except Exception] clause lets through.
    - [Config] is imported from a module that is not part of the sources; its
      constants are the fields of a record taken as a parameter. *)

From Stdlib Require Import Ascii ZArith QArith.
From stdpp Require Import gmap strings list pretty.

Local Open Scope Z_scope.
Local Open Scope nat_scope.

(** ** Strings, the way Python handles them *)

Module Str.

(** The double-quote character and the backslash, for patterns and
    fixtures that contain them. *)
Definition dq : string := String "034"%char "".
Definition bs : string := String "092"%char "".

Definition len (s : string) : nat := String.length s.

(** [s[:n]] *)
Fixpoint take (n : nat) (s : string) : string :=
  match n, s with
  | S n', String c s' => String c (take n' s')
  | _, _ => ""
  end.

(** [s[n:]] *)
Fixpoint drop (n : nat) (s : string) : string :=
  match n, s with
  | S n', String _ s' => drop n' s'
  | _, _ => s
  end.

(** [Some] of what follows [p] in [s] when [s.startswith(p)]. *)
Fixpoint strip_prefix (p s : string) : option string :=
  match p, s with
  | "", _ => Some s
  | String a p', String b s' => if Ascii.eqb a b then strip_prefix p' s' else None
  | String _ _, "" => None
  end.

Definition startswith (s p : string) : bool :=
  match strip_prefix p s with Some _ => true | None => false end.

(** [sub in s] *)
Fixpoint contains (sub s : string) : bool :=
  if startswith s sub then true
  else match s with
       | String _ s' => contains sub s'
       | "" => false
       end.

(** [c.lower()] on one character: the letters [A] to [Z], and those of
    the code points 192 to 214 and 216 to 222. *)
Definition lower_char (c : ascii) : ascii :=
  let n := nat_of_ascii c in
  if (65 <=? n) && (n <=? 90) || (192 <=? n) && (n <=? 214)
     || (216 <=? n) && (n <=? 222)
  then ascii_of_nat (n + 32) else c.

(** [s.lower()] *)
Fixpoint lower (s : string) : string :=
  match s with
  | "" => ""
  | String c s' => String (lower_char c) (lower s')
  end.

(** [s.split(sep)] for a separator of one character. *)
Fixpoint split (sep : ascii) (s : string) : list string :=
  match s with
  | "" => [""]
  | String c s' =>
      if Ascii.eqb c sep then "" :: split sep s'
      else match split sep s' with
           | h :: t => String c h :: t
           | [] => [String c ""]
           end
  end.

(** [s.replace(old, new)] and [s.replace(old, new, count)]: the
    occurrences of [old] are found from left to right and do not overlap.
    [skip] counts the characters of an occurrence still to be passed over;
    [count] is [None] for "all of them".  [old] is not empty at any call
    site of the sources. *)
Fixpoint replace_from (old new : string) (count : option nat) (skip : nat)
    (s : string) : string :=
  match s with
  | "" => ""
  | String c s' =>
      match skip with
      | S k => replace_from old new count k s'
      | 0 =>
          if startswith s old && negb (bool_decide (count = Some 0)) then
            new +:+ replace_from old new (pred <$> count) (len old - 1) s'
          else String c (replace_from old new count 0 s')
      end
  end.

Definition replace (old new s : string) : string :=
  replace_from old new None 0 s.

Definition replace_count (old new : string) (count : nat) (s : string) : string :=
  replace_from old new (Some count) 0 s.

(** [any(d in s for d in ds)] *)
Definition contains_any (ds : list string) (s : string) : bool :=
  existsb (λ d, contains d s) ds.

End Str.

(** ** Regular expressions

    The fragment of Python's [re] syntax that the sources use: literal text,
    one character of a class, a class repeated greedily or lazily,
    concatenation, ordered alternation and one capturing group.  Matching is
    by backtracking with Python's priorities, written in continuation
    style: the continuation receives what is left of the subject and the
    text captured by group 1 so far. *)

Module Re.

Inductive regex : Type :=
| Lit (s : string)
| Cls (p : ascii → bool)
| Many (greedy : bool) (least : nat) (p : ascii → bool)
| Cat (r1 r2 : regex)
| Or (r1 r2 : regex)
| Group (r : regex).

(** The result of a match: [m.group(1)] and the subject after the match. *)
Definition found : Type := option string * string.

Section Matcher.
Context {R : Type}.

(** [p*], [p+]: as many as possible first, then fewer. *)
Fixpoint many_greedy (p : ascii → bool) (least : nat) (s : string)
    (k : string → option R) : option R :=
  let stop := match least with 0 => k s | S _ => None end in
  match s with
  | String c s' =>
      if p c then
        match many_greedy p (pred least) s' k with
        | Some r => Some r
        | None => stop
        end
      else stop
  | "" => stop
  end.

(** [p*?], [p+?]: as few as possible first, then more. *)
Fixpoint many_lazy (p : ascii → bool) (least : nat) (s : string)
    (k : string → option R) {struct s} : option R :=
  let more :=
    match s with
    | String c s' => if p c then many_lazy p (pred least) s' k else None
    | "" => None
    end in
  match least with
  | 0 => match k s with Some r => Some r | None => more end
  | S _ => more
  end.

Fixpoint run (r : regex) (s : string) (g : option string)
    (k : string → option string → option R) : option R :=
  match r with
  | Lit l =>
      match Str.strip_prefix l s with
      | Some s' => k s' g
      | None => None
      end
  | Cls p =>
      match s with
      | String c s' => if p c then k s' g else None
      | "" => None
      end
  | Many true least p => many_greedy p least s (λ s', k s' g)
  | Many false least p => many_lazy p least s (λ s', k s' g)
  | Cat r1 r2 => run r1 s g (λ s' g', run r2 s' g' k)
  | Or r1 r2 =>
      match run r1 s g k with
      | Some x => Some x
      | None => run r2 s g k
      end
  | Group r1 =>
      run r1 s g
        (λ s' _, k s' (Some (Str.take (Str.len s - Str.len s') s)))
  end.
End Matcher.

(** [re.match(r, s)]: a match that starts at the beginning of [s]. *)
Definition match_here (r : regex) (s : string) : option found :=
  run r s None (λ s' g, Some (g, s')).

(** [re.search(r, s)]: the first position at which [r] matches. *)
Fixpoint search (r : regex) (s : string) : option found :=
  match match_here r s with
  | Some m => Some m
  | None =>
      match s with
      | String _ s' => search r s'
      | "" => None
      end
  end.

(** [m.group(1)] of a match object. *)
Definition group1 (m : found) : string := default "" m.1.

(** [re.findall(r, s)] for a pattern with one group: group 1 of the
    successive matches, which do not overlap.  [skip] counts the
    characters of the last match still to be passed over. *)
Fixpoint findall_from (r : regex) (skip : nat) (s : string) : list string :=
  match skip with
  | S k =>
      match s with
      | String _ s' => findall_from r k s'
      | "" => []
      end
  | 0 =>
      match match_here r s with
      | Some m =>
          group1 m ::
            match s with
            | String _ s' =>
                findall_from r (Str.len s - Str.len m.2 - 1) s'
            | "" => []
            end
      | None =>
          match s with
          | String _ s' => findall_from r 0 s'
          | "" => []
          end
      end
  end.

Definition findall (r : regex) (s : string) : list string :=
  findall_from r 0 s.

(** Character classes. *)
Definition just (c : ascii) : ascii → bool := λ x, Ascii.eqb x c.
Definition other_than (c : ascii) : ascii → bool := λ x, negb (Ascii.eqb x c).
Definition between (lo hi : ascii) : ascii → bool :=
  λ x, (nat_of_ascii lo <=? nat_of_ascii x) && (nat_of_ascii x <=? nat_of_ascii hi).
(** [.] without [re.DOTALL] *)
Definition dot : ascii → bool := other_than "010".
(** [\d] *)
Definition digit : ascii → bool := between "0" "9".
(** [\s] on a [str]: the code points 9 to 13, 28 to 32, 133 and 160. *)
Definition space : ascii → bool :=
  λ x, between "009" "013" x || between "028" "032" x || just "133" x
       || just "160" x.
(** [[A-Za-z0-9_-]] *)
Definition code_char : ascii → bool :=
  λ x, between "A" "Z" x || between "a" "z" x || between "0" "9" x
       || just "_" x || just "-" x.

(** Concatenation of a list of pieces. *)
Fixpoint seq (rs : list regex) : regex :=
  match rs with
  | [] => Lit ""
  | [r] => r
  | r :: rs' => Cat r (seq rs')
  end.

Definition star (p : ascii → bool) : regex := Many true 0 p.
Definition plus (p : ascii → bool) : regex := Many true 1 p.
Definition star_lazy (p : ascii → bool) : regex := Many false 0 p.

(** [\w] on a [str]: [_] and the alphanumeric characters, which below
    256 are the ASCII letters and digits and the code points 170, 178,
    179, 181, 185, 186, 188 to 190, 192 to 214, 216 to 246 and 248 to
    255. *)
Definition word : ascii → bool :=
  λ x, between "A" "Z" x || between "a" "z" x || between "0" "9" x
       || just "_" x || just "170" x || between "178" "179" x
       || just "181" x || between "185" "186" x || between "188" "190" x
       || between "192" "214" x || between "216" "246" x
       || between "248" "255" x.

(** [r{n}] *)
Fixpoint times (n : nat) (r : regex) : regex :=
  match n with
  | 0 => Lit ""
  | 1 => r
  | S n' => Cat r (times n' r)
  end.

(** [re.sub(r, repl, s)] for a replacement text without group references:
    the matches are found from left to right and do not overlap; an empty
    match puts [repl] in front of the character it stands at.  [skip]
    counts the characters of the last match still to be passed over. *)
Fixpoint sub_from (r : regex) (repl : string) (skip : nat) (s : string)
    : string :=
  match skip with
  | S k =>
      match s with
      | String _ s' => sub_from r repl k s'
      | "" => ""
      end
  | 0 =>
      match match_here r s with
      | Some m =>
          match s with
          | String c s' =>
              match Str.len s - Str.len m.2 with
              | 0 => repl +:+ String c (sub_from r repl 0 s')
              | S k => repl +:+ sub_from r repl k s'
              end
          | "" => repl
          end
      | None =>
          match s with
          | String c s' => String c (sub_from r repl 0 s')
          | "" => ""
          end
      end
  end.

Definition sub (r : regex) (repl s : string) : string :=
  sub_from r repl 0 s.

End Re.

(** ** url_parser.py *)

Module URLParser.

Definition youtube_domains : list string := ["youtube.com"; "youtu.be"].
Definition tiktok_domains : list string :=
  ["tiktok.com"; "vm.tiktok.com"; "vt.tiktok.com"].
Definition instagram_domains : list string := ["instagram.com"; "instagr.am"].
Definition pinterest_domains : list string :=
  ["pinterest.com"; "pinterest."; "pin.it"].

Definition extract_platform (url : string) : option string :=
  let url_lower := Str.lower url in
  if Str.contains_any youtube_domains url_lower then Some "youtube"
  else if Str.contains_any tiktok_domains url_lower then Some "tiktok"
  else if Str.contains_any instagram_domains url_lower then Some "instagram"
  else if Str.contains_any pinterest_domains url_lower then Some "pinterest"
  else None.

Definition normalize_url (url : string) : string :=
  let url := default "" (head (Str.split "#" (default "" (head (Str.split "?" url))))) in
  if Str.startswith url "http://" then
    Str.replace_count "http://" "https://" 1 url
  else if negb (Str.startswith url "https://") then
    "https://" +:+ url
  else url.

(** The character class [[a-zA-Z0-9_-]] eleven times. *)
Definition video_code : Re.regex := Re.times 11 (Re.Cls Re.code_char).

(** The two patterns of [extract_youtube_video_id]: an alternation of
    [youtube\.com\/watch\?v=], [youtu\.be\/] and [youtube\.com\/embed\/]
    followed by the group, and [youtube\.com\/shorts\/] followed by the
    group. *)
Definition youtube_patterns : list Re.regex :=
  [Re.seq [Re.Or (Re.Lit "youtube.com/watch?v=")
             (Re.Or (Re.Lit "youtu.be/") (Re.Lit "youtube.com/embed/"));
           Re.Group video_code];
   Re.seq [Re.Lit "youtube.com/shorts/"; Re.Group video_code]].

(** The loop [for pattern in patterns] with its [return match.group(1)],
    and the [return None] after it. *)
Fixpoint first_group (patterns : list Re.regex) (url : string)
    : option string :=
  match patterns with
  | [] => None
  | pattern :: rest =>
      match Re.search pattern url with
      | Some m => Some (Re.group1 m)
      | None => first_group rest url
      end
  end.

Definition extract_youtube_video_id (url : string) : option string :=
  first_group youtube_patterns url.

(** [r'/video/(\d+)'] *)
Definition extract_tiktok_video_id (url : string) : option string :=
  match Re.search (Re.seq [Re.Lit "/video/"; Re.Group (Re.plus Re.digit)]) url with
  | Some m => Some (Re.group1 m)
  | None => None
  end.

(** [r'/p/([A-Za-z0-9_-]+)'], [r'/reel/([A-Za-z0-9_-]+)'] and
    [r'/tv/([A-Za-z0-9_-]+)'] *)
Definition instagram_patterns : list Re.regex :=
  [Re.seq [Re.Lit "/p/"; Re.Group (Re.plus Re.code_char)];
   Re.seq [Re.Lit "/reel/"; Re.Group (Re.plus Re.code_char)];
   Re.seq [Re.Lit "/tv/"; Re.Group (Re.plus Re.code_char)]].

Definition extract_instagram_shortcode (url : string) : option string :=
  first_group instagram_patterns url.

(** [r'/pin/(\d+)'] *)
Definition extract_pinterest_pin_id (url : string) : option string :=
  match Re.search (Re.seq [Re.Lit "/pin/"; Re.Group (Re.plus Re.digit)]) url with
  | Some m => Some (Re.group1 m)
  | None => None
  end.

End URLParser.

(** ** Python values, exceptions and the world *)

(** The values [json.loads] produces, which are also the values stored in the
    dicts that the downloaders build.  The keys of a [VDict] are distinct. *)
#[warnings="-register-all"]
Inductive value : Type :=
| VNone
| VBool (b : bool)
| VInt (n : Z)
| VFloat (q : Q)
| VStr (s : string)
| VList (l : list value)
| VDict (d : list (string * value)).

(** [bool(v)] *)
Definition truthy (v : value) : bool :=
  match v with
  | VNone => false
  | VBool b => b
  | VInt n => negb (n =? 0)%Z
  | VFloat q => negb (Qeq_bool q 0)
  | VStr s => negb (bool_decide (s = ""))
  | VList l => negb (bool_decide (length l = 0))
  | VDict d => negb (bool_decide (length d = 0))
  end.

(** [type(v).__name__] *)
Definition type_name (v : value) : string :=
  match v with
  | VNone => "NoneType"
  | VBool _ => "bool"
  | VInt _ => "int"
  | VFloat _ => "float"
  | VStr _ => "str"
  | VList _ => "list"
  | VDict _ => "dict"
  end.

(** The classes of the exceptions.  The first seven are [Exception] and
    subclasses of it; [CancelledError] ([asyncio.CancelledError], raised at
    an [await] when the task is cancelled) and [KeyboardInterrupt] derive
    from [BaseException] only. *)
Inductive exn_class : Type :=
| JSONDecodeError
| AttributeError
| TypeError
| KeyError
| IndexError
| OSError
| Exception
| CancelledError
| KeyboardInterrupt.

(** An exception: its class and [str(e)]. *)
Record exn : Type := Exn { exn_class_of : exn_class; exn_str : string }.

(** The filesystem under the download directory (path to content), and the
    number of requests the HTTP session has sent so far. *)
Record world : Type := World { files : gmap string string; sent : nat }.

Inductive res (A : Type) : Type :=
| Ret (a : A)
| Raise (e : exn).
Arguments Ret {A} a.
Arguments Raise {A} e.

(** A computation that touches nothing and may raise. *)
Global Instance res_ret : MRet res := @Ret.
Global Instance res_bind : MBind res := λ A B k r,
  match r with
  | Ret a => k a
  | Raise e => Raise e
  end.

(** A computation that may read and change the world, and ends with a value
    or a raised exception. *)
Definition M (A : Type) : Type := world → res A * world.

Definition ret {A} (a : A) : M A := λ w, (Ret a, w).
Definition raise {A} (e : exn) : M A := λ w, (Raise e, w).
Definition bind {A B} (m : M A) (k : A → M B) : M B :=
  λ w, match m w with
       | (Ret a, w') => k a w'
       | (Raise e, w') => (Raise e, w')
       end.
Definition lift {A} (r : res A) : M A := λ w, (r, w).

(** [try: m except C as e: h e], where [catches] tells whether the class of
    the exception is [C] or one of its subclasses. *)
Definition try_except {A} (catches : exn_class → bool) (m : M A)
    (h : exn → M A) : M A :=
  λ w, match m w with
       | (Raise e, w') => if catches (exn_class_of e) then h e w' else (Raise e, w')
       | r => r
       end.

(** [except Exception]: [Exception] and its subclasses, and not the classes
    that derive from [BaseException] only. *)
Definition except_exception : exn_class → bool :=
  λ c, match c with
       | CancelledError | KeyboardInterrupt => false
       | _ => true
       end.
(** A bare [except:], which catches every class. *)
Definition bare_except : exn_class → bool := λ _, true.
(** [except json.JSONDecodeError] *)
Definition json_decode_error : exn_class → bool :=
  λ c, match c with JSONDecodeError => true | _ => false end.

Global Instance M_ret : MRet M := @ret.
Global Instance M_bind : MBind M := λ A B k m, bind m k.

(** A dict with string keys. *)
Abbreviation dict := (gmap string value).

(** [v.get(k, dflt)] on a decoded JSON value: only a dict has [get]. *)
Definition py_get (v : value) (k : string) (dflt : value) : res value :=
  match v with
  | VDict d =>
      Ret (default dflt (snd <$> List.find (λ kv, bool_decide (kv.1 = k)) d))
  | _ => Raise (Exn AttributeError
                  ("'" +:+ type_name v +:+ "' object has no attribute 'get'"))
  end.

(** [v[0]] on a decoded JSON value. *)
Definition py_first (v : value) : res value :=
  match v with
  | VList (x :: _) => Ret x
  | VList [] => Raise (Exn IndexError "list index out of range")
  | VStr (String c _) => Ret (VStr (String c ""))
  | VStr "" => Raise (Exn IndexError "string index out of range")
  | VDict _ => Raise (Exn KeyError "0")
  | _ => Raise (Exn TypeError
                  ("'" +:+ type_name v +:+ "' object is not subscriptable"))
  end.

(** [v[:100] + '...' if len(v) > 100 else v] *)
Definition truncate_title (v : value) : res value :=
  match v with
  | VStr s =>
      Ret (VStr (if 100 <? Str.len s then Str.take 100 s +:+ "..." else s))
  | VList l =>
      if 100 <? length l then
        Raise (Exn TypeError ("can only concatenate list (not " +:+ Str.dq
                 +:+ "str" +:+ Str.dq +:+ ") to list"))
      else Ret v
  | VDict d =>
      if 100 <? length d then Raise (Exn TypeError "unhashable type: 'slice'")
      else Ret v
  | _ => Raise (Exn TypeError
                  ("object of type '" +:+ type_name v +:+ "' has no len()"))
  end.

(** What a GET request comes back with: the status, the URL after redirects
    ([str(response.url)]), the decoded body ([await response.text()], which
    may raise), and for a streamed body the chunks that
    [iter_chunked(8192)] delivers and [file.write] stores, followed, when
    the transfer breaks, by the exception raised at that point (by the
    network, by [file.write], or by the cancellation of the task). *)
Record response : Type := Response {
  status : Z;
  final_url : string;
  text : res string;
  chunks : list string;
  broken : option exn
}.

Inductive reply : Type :=
| Refused (e : exn)
| Answered (r : response).

(** ** config.py (not among the sources): the constants the downloaders read *)

Record Config : Type := {
  DOWNLOAD_DIR : string;
  MAX_VIDEO_SIZE : Z;
  MAX_PHOTO_SIZE : Z
}.

(** What the code runs against: the configuration, the network (the reply to
    the [n]-th request of the session, for the URL passed to [session.get]),
    [json.loads], and the exception that [open(path, 'wb')] raises for a
    path that cannot be opened (a name that is too long, a directory that
    is missing or read-only). *)
Record env : Type := {
  cfg : Config;
  net : nat → value → reply;
  json_loads : string → res value;
  open_error : string → option exn
}.

(** A dict literal. *)
Definition mk_dict (l : list (string * value)) : dict := list_to_map l.

(** ** base.py *)

Module Base.

(** [os.path.join(a, b)] *)
Definition path_join (a b : string) : string :=
  if Str.startswith b "/" then b
  else if bool_decide (a = "") || Str.startswith (Str.drop (Str.len a - 1) a) "/"
       then a +:+ b
       else a +:+ "/" +:+ b.

(** [os.path.exists(p)] *)
Definition path_exists (p : string) : M bool :=
  λ w, (Ret (bool_decide (is_Some (files w !! p))), w).

(** [os.remove(p)] of an existing file. *)
Definition os_remove (p : string) : M unit :=
  λ w, match files w !! p with
       | Some _ => (Ret (), World (delete p (files w)) (sent w))
       | None => (Raise (Exn OSError ("[Errno 2] No such file or directory: '"
                                        +:+ p +:+ "'")), w)
       end.

(** [os.path.getsize(p)] *)
Definition getsize (p : string) : M Z :=
  λ w, match files w !! p with
       | Some c => (Ret (Z.of_nat (Str.len c)), w)
       | None => (Raise (Exn OSError ("[Errno 2] No such file or directory: '"
                                        +:+ p +:+ "'")), w)
       end.

(** [file.write(chunk)] on the file opened at [p]. *)
Definition file_write (p : string) (chunk : string) : M unit :=
  λ w, (Ret (), World (<[p := default "" (files w !! p) +:+ chunk]> (files w)) (sent w)).

(** [f"{file_size / 1024 / 1024:.1f}"].  For a size below 2^53 the two
    divisions are exact in binary floating point, and the format rounds the
    exact quotient to tenths, a tie going to the even tenth. *)
Definition tenths_of_mb (file_size : Z) : Z :=
  let n := (10 * file_size)%Z in
  let q := (n / 1048576)%Z in
  let r := (n mod 1048576)%Z in
  if (524288 <? r)%Z then (q + 1)%Z
  else if (r <? 524288)%Z then q
  else if Z.even q then q else (q + 1)%Z.

Definition format_mb (file_size : Z) : string :=
  let t := tenths_of_mb file_size in
  pretty (t / 10)%Z +:+ "." +:+ pretty (t mod 10)%Z.

(** The envelope returned when the file is over its ceiling. *)
Definition too_large (file_size : Z) : dict :=
  mk_dict [("success", VBool false);
           ("error", VStr ("File too large (" +:+ format_mb file_size +:+ "MB)"));
           ("file_path", VNone);
           ("media_type", VNone)].

(** The envelope returned by the [except Exception] clause of a
    [download] method. *)
Definition download_failed (platform : string) (e : exn) : dict :=
  mk_dict [("success", VBool false);
           ("error", VStr (platform +:+ " download failed: " +:+ exn_str e));
           ("file_path", VNone);
           ("media_type", VNone)].

(** The envelope of a failed resolution. *)
Definition no_info (error : string) : dict :=
  mk_dict [("success", VBool false); ("error", VStr error)].

Section WithEnv.
Context (E : env).

(** [session.get(url)]: the next request of the session. *)
Definition session_get (url : value) : M response :=
  λ w, let w' := World (files w) (S (sent w)) in
       match net E (sent w) url with
       | Refused e => (Raise e, w')
       | Answered r => (Ret r, w')
       end.

(** [open(p, 'wb')]: the file is created, or emptied if it is there;
    when the path cannot be opened, the exception is raised and the
    files are left as they are. *)
Definition open_wb (p : string) : M unit :=
  λ w, match open_error E p with
       | Some e => (Raise e, w)
       | None => (Ret (), World (<[p := ""]> (files w)) (sent w))
       end.

(** The loop [async for chunk in response.content.iter_chunked(8192):
    file.write(chunk)]. *)
Fixpoint write_chunks (file_path : string) (cs : list string)
    (broken : option exn) : M unit :=
  match cs with
  | c :: cs' => file_write file_path c;; write_chunks file_path cs' broken
  | [] => match broken with
          | Some e => raise e
          | None => ret ()
          end
  end.

Definition download_file (url : value) (filename : string) : M string :=
  let file_path := path_join (DOWNLOAD_DIR (cfg E)) filename in
  try_except except_exception
    (response ← session_get url;
     if (status response =? 200)%Z then
       open_wb file_path;;
       write_chunks file_path (chunks response) (broken response);;
       mret file_path
     else
       raise (Exn Exception ("HTTP " +:+ pretty (status response)
                               +:+ ": Failed to download file")))
    (λ e,
       ex ← path_exists file_path;
       (if ex : bool then os_remove file_path else mret ());;
       raise e).

Definition cleanup_file (file_path : string) : M unit :=
  try_except except_exception
    (ex ← path_exists file_path;
     if ex : bool then os_remove file_path else mret ())
    (λ _, mret ()).

End WithEnv.
End Base.

(** ** tiktok.py *)

Module TikTok.
Import Base.

(** [r'/video/(\d+)'] *)
Definition video_id_re : Re.regex :=
  Re.seq [Re.Lit "/video/"; Re.Group (Re.plus Re.digit)].

(** The opening of the state script of a page: [<script id="SIGI_STATE"]. *)
Definition sigi_tag : string :=
  "<script id=" +:+ Str.dq +:+ "SIGI_STATE" +:+ Str.dq.

(** [r'<script id="SIGI_STATE"[^>]*>(.*?)</script>'] *)
Definition sigi_re : Re.regex :=
  Re.seq [Re.Lit sigi_tag; Re.star (Re.other_than ">"); Re.Lit ">";
          Re.Group (Re.star_lazy Re.dot); Re.Lit "</script>"].

(** The dict [_get_video_info] returns: [{'success': False, 'error': ..}]
    or [{'success': True, 'video_id': .., 'download_url': .., 'title': ..}]. *)
(** [r'tiktok\.com'], [r'vm\.tiktok\.com'] and [r'vt\.tiktok\.com'] *)
Definition tiktok_patterns : list Re.regex :=
  [Re.Lit "tiktok.com"; Re.Lit "vm.tiktok.com"; Re.Lit "vt.tiktok.com"].

(** [any(re.search(pattern, url.lower()) for pattern in tiktok_patterns)] *)
Definition can_handle (url : string) : bool :=
  existsb (λ pattern, bool_decide (is_Some (Re.search pattern (Str.lower url))))
    tiktok_patterns.

Inductive video_info : Type :=
| NoVideo (error : string)
| Video (video_id : string) (download_url : value) (title : value).

Definition info_dict (i : video_info) : dict :=
  match i with
  | NoVideo error => no_info error
  | Video video_id download_url title =>
      mk_dict [("success", VBool true); ("video_id", VStr video_id);
               ("download_url", download_url); ("title", title)]
  end.

Section WithEnv.
Context (E : env).

(** The body of the inner [try] of [_get_video_info]: the JSON blob of
    the state script is decoded and searched. *)
Definition read_state (blob video_id : string) : res video_info :=
  data ← json_loads E blob;
  item_module ← py_get data "ItemModule" (VDict []);
  video_data ← py_get item_module video_id (VDict []);
  if negb (truthy video_data) then mret (NoVideo "Video data not found")
  else
    video_obj ← py_get video_data "video" (VDict []);
    download_addr ← py_get video_obj "downloadAddr" VNone;
    download_url ← (if truthy download_addr then mret download_addr
                    else py_get video_obj "playAddr" VNone);
    if negb (truthy download_url) then
      mret (NoVideo "Could not find video download URL")
    else
      title ← py_get video_data "desc" (VStr "TikTok Video");
      mret (Video video_id download_url title).

Definition _get_video_info (url : string) : M video_info :=
  try_except except_exception
    (response ← session_get E (VStr url);
     let final_url := final_url response in
     match Re.search video_id_re final_url with
     | None => mret (NoVideo "Could not extract video ID from URL")
     | Some video_id_match =>
         let video_id := Re.group1 video_id_match in
         response ← session_get E (VStr final_url);
         if negb (status response =? 200)%Z then
           mret (NoVideo ("Failed to access TikTok page: HTTP "
                            +:+ pretty (status response)))
         else
           content ← lift (text response);
           match Re.search sigi_re content with
           | None => mret (NoVideo "Could not find video data in page")
           | Some script_match =>
               try_except json_decode_error
                 (lift (read_state (Re.group1 script_match) video_id))
                 (λ _, mret (NoVideo "Failed to parse video data"))
           end
     end)
    (λ e, mret (NoVideo ("Failed to get video info: " +:+ exn_str e))).

Definition download (url : string) : M dict :=
  try_except except_exception
    (video_info ← _get_video_info url;
     match video_info with
     | NoVideo _ => mret (info_dict video_info)
     | Video video_id download_url title =>
         let filename := "tiktok_" +:+ video_id +:+ ".mp4" in
         file_path ← download_file E download_url filename;
         file_size ← getsize file_path;
         if (MAX_VIDEO_SIZE (cfg E) <? file_size)%Z then
           cleanup_file file_path;;
           mret (too_large file_size)
         else
           mret (mk_dict [("success", VBool true);
                          ("file_path", VStr file_path);
                          ("media_type", VStr "video");
                          ("title", title);
                          ("error", VNone)])
     end)
    (λ e, mret (download_failed "TikTok" e)).

End WithEnv.
End TikTok.

(** ** instagram.py *)

Module Instagram.
Import Base.

(** [r'/p/([A-Za-z0-9_-]+)'] and [r'/reel/([A-Za-z0-9_-]+)'] *)
Definition post_re : Re.regex :=
  Re.seq [Re.Lit "/p/"; Re.Group (Re.plus Re.code_char)].
Definition reel_re : Re.regex :=
  Re.seq [Re.Lit "/reel/"; Re.Group (Re.plus Re.code_char)].

(** [r'window\.__additionalDataLoaded\([^,]+,({.*?})\);'] *)
Definition loader_re : Re.regex :=
  Re.seq [Re.Lit "window.__additionalDataLoaded("; Re.plus (Re.other_than ",");
          Re.Lit ",";
          Re.Group (Re.seq [Re.Lit "{"; Re.star_lazy Re.dot; Re.Lit "}"]);
          Re.Lit ");"].

(** [r'"GraphImage"[^}]+display_url":"([^"]+)"'] *)
Definition graph_image_re : Re.regex :=
  Re.seq [Re.Lit (Str.dq +:+ "GraphImage" +:+ Str.dq);
          Re.plus (Re.other_than "}");
          Re.Lit ("display_url" +:+ Str.dq +:+ ":" +:+ Str.dq);
          Re.Group (Re.plus (Re.other_than "034")); Re.Lit Str.dq].

(** [r'"GraphVideo"[^}]+video_url":"([^"]+)"'] *)
Definition graph_video_re : Re.regex :=
  Re.seq [Re.Lit (Str.dq +:+ "GraphVideo" +:+ Str.dq);
          Re.plus (Re.other_than "}");
          Re.Lit ("video_url" +:+ Str.dq +:+ ":" +:+ Str.dq);
          Re.Group (Re.plus (Re.other_than "034")); Re.Lit Str.dq].

(** The six characters [&]. *)
Definition amp_escape : string := Str.bs +:+ "u0026".

(** The dict [_get_media_info] returns: [{'success': False, 'error': ..}]
    or [{'success': True, 'media_id': .., 'media_url': .., 'is_video': ..,
    'caption': ..}]. *)
(** [r'instagram\.com'] and [r'instagr\.am'] *)
Definition instagram_patterns : list Re.regex :=
  [Re.Lit "instagram.com"; Re.Lit "instagr.am"].

Definition can_handle (url : string) : bool :=
  existsb (λ pattern, bool_decide (is_Some (Re.search pattern (Str.lower url))))
    instagram_patterns.

Inductive media_info : Type :=
| NoMedia (error : string)
| Media (media_id : string) (media_url : value) (is_video : value)
    (caption : value).

Definition info_dict (i : media_info) : dict :=
  match i with
  | NoMedia error => no_info error
  | Media media_id media_url is_video caption =>
      mk_dict [("success", VBool true); ("media_id", VStr media_id);
               ("media_url", media_url); ("is_video", is_video);
               ("caption", caption)]
  end.

Section WithEnv.
Context (E : env).

(** The body of the inner [try] of [_get_media_info]. *)
Definition read_media (blob shortcode : string) : res media_info :=
  data ← json_loads E blob;
  graphql ← py_get data "graphql" (VDict []);
  media_data ← py_get graphql "shortcode_media" (VDict []);
  if negb (truthy media_data) then
    mret (NoMedia "Media data not found in response")
  else
    is_video ← py_get media_data "is_video" (VBool false);
    media_url ← (if truthy is_video then py_get media_data "video_url" VNone
                 else py_get media_data "display_url" VNone);
    if negb (truthy media_url) then mret (NoMedia "Could not find media URL")
    else
      to_caption ← py_get media_data "edge_media_to_caption" (VDict []);
      edges ← py_get to_caption "edges" (VList []);
      caption ← (if truthy edges then
                   edge ← py_first edges;
                   node ← py_get edge "node" (VDict []);
                   py_get node "text" (VStr "")
                 else mret (VStr ""));
      caption ← truncate_title caption;
      mret (Media shortcode media_url is_video caption).

Definition _get_media_info (url : string) : M media_info :=
  try_except except_exception
    (let shortcode_match :=
       match Re.search post_re url with
       | Some m => Some m
       | None => Re.search reel_re url
       end in
     match shortcode_match with
     | None => mret (NoMedia "Could not extract media shortcode from URL")
     | Some shortcode_match =>
         let shortcode := Re.group1 shortcode_match in
         let embed_url := "https://www.instagram.com/p/" +:+ shortcode
                            +:+ "/embed/" in
         response ← session_get E (VStr embed_url);
         if negb (status response =? 200)%Z then
           mret (NoMedia ("Failed to access Instagram embed: HTTP "
                            +:+ pretty (status response)))
         else
           content ← lift (text response);
           match Re.search loader_re content with
           | None =>
               match Re.search graph_image_re content with
               | Some script_match =>
                   mret (Media shortcode
                           (VStr (Str.replace amp_escape "&"
                                    (Re.group1 script_match)))
                           (VBool false) (VStr "Instagram Photo"))
               | None =>
                   match Re.search graph_video_re content with
                   | Some script_match =>
                       mret (Media shortcode
                               (VStr (Str.replace amp_escape "&"
                                        (Re.group1 script_match)))
                               (VBool true) (VStr "Instagram Video"))
                   | None =>
                       mret (NoMedia "Could not find media data in embed page")
                   end
               end
           | Some script_match =>
               try_except json_decode_error
                 (lift (read_media (Re.group1 script_match) shortcode))
                 (λ _, mret (NoMedia "Failed to parse media data"))
           end
     end)
    (λ e, mret (NoMedia ("Failed to get media info: " +:+ exn_str e))).

Definition download (url : string) : M dict :=
  try_except except_exception
    (media_info ← _get_media_info url;
     match media_info with
     | NoMedia _ => mret (info_dict media_info)
     | Media media_id media_url is_video caption =>
         let '(filename, media_type, size_limit) :=
           if truthy is_video then
             ("instagram_" +:+ media_id +:+ ".mp4", "video",
              MAX_VIDEO_SIZE (cfg E))
           else
             ("instagram_" +:+ media_id +:+ ".jpg", "photo",
              MAX_PHOTO_SIZE (cfg E)) in
         file_path ← download_file E media_url filename;
         file_size ← getsize file_path;
         if (size_limit <? file_size)%Z then
           cleanup_file file_path;;
           mret (too_large file_size)
         else
           mret (mk_dict [("success", VBool true);
                          ("file_path", VStr file_path);
                          ("media_type", VStr media_type);
                          ("title", caption);
                          ("error", VNone)])
     end)
    (λ e, mret (download_failed "Instagram" e)).

End WithEnv.
End Instagram.

(** ** pinterest.py *)

Module Pinterest.
Import Base.

(** [r'/pin/(\d+)'] *)
Definition pin_id_re : Re.regex :=
  Re.seq [Re.Lit "/pin/"; Re.Group (Re.plus Re.digit)].

(** The pattern of [re.findall]: [<script[^>]*>], then group 1, which is
    [[^<]*], then [</script>].  ([re.DOTALL] changes nothing: the pattern
    has no dot.) *)
Definition script_re : Re.regex :=
  Re.seq [Re.Lit "<script"; Re.star (Re.other_than ">"); Re.Lit ">";
          Re.Group (Re.star (Re.other_than "<")); Re.Lit "</script>"].

(** [r'\{[^}]*"images"[^}]*\}'] *)
Definition images_re : Re.regex :=
  Re.seq [Re.Lit "{"; Re.star (Re.other_than "}");
          Re.Lit (Str.dq +:+ "images" +:+ Str.dq);
          Re.star (Re.other_than "}"); Re.Lit "}"].

(** The media URL pattern, writing Q for the double quote: [QurlQ:\s*Q],
    then group 1, which is [[^Q]+\.(?:jpg|jpeg|png|mp4|webm)[^Q]*], then
    [Q]. *)
Definition media_url_re : Re.regex :=
  Re.seq [Re.Lit (Str.dq +:+ "url" +:+ Str.dq +:+ ":"); Re.star Re.space;
          Re.Lit Str.dq;
          Re.Group
            (Re.seq [Re.plus (Re.other_than "034"); Re.Lit ".";
                     Re.Or (Re.Lit "jpg")
                       (Re.Or (Re.Lit "jpeg")
                          (Re.Or (Re.Lit "png")
                             (Re.Or (Re.Lit "mp4") (Re.Lit "webm"))));
                     Re.star (Re.other_than "034")]);
          Re.Lit Str.dq].

(** The title pattern, writing Q for the double quote: [QtitleQ:\s*Q],
    then group 1, which is [[^Q]*], then [Q]. *)
Definition title_re : Re.regex :=
  Re.seq [Re.Lit (Str.dq +:+ "title" +:+ Str.dq +:+ ":"); Re.star Re.space;
          Re.Lit Str.dq; Re.Group (Re.star (Re.other_than "034"));
          Re.Lit Str.dq].

(** The Open-Graph pattern, writing Q for the double quote:
    [<meta property=Qog:imageQ content=Q], then group 1, which is [[^Q]+],
    then [Q]. *)
Definition og_image_re : Re.regex :=
  Re.seq [Re.Lit ("<meta property=" +:+ Str.dq +:+ "og:image" +:+ Str.dq
                    +:+ " content=" +:+ Str.dq);
          Re.Group (Re.plus (Re.other_than "034")); Re.Lit Str.dq].

(** The tokens that mark a script as carrying pin data:
    [pinterestapp:pins] and ["Pin"] (with its quotes). *)
Definition pin_markers : list string :=
  ["pinterestapp:pins"; Str.dq +:+ "Pin" +:+ Str.dq].

(** The dict [_get_pin_info] returns: [{'success': False, 'error': ..}] or
    [{'success': True, 'pin_id': .., 'media_url': .., 'is_video': ..,
    'title': ..}]. *)
(** [r'pinterest\.com'], [r'pinterest\.[a-z]+'] and [r'pin\.it'] *)
Definition pinterest_patterns : list Re.regex :=
  [Re.Lit "pinterest.com";
   Re.seq [Re.Lit "pinterest."; Re.plus (Re.between "a" "z")];
   Re.Lit "pin.it"].

Definition can_handle (url : string) : bool :=
  existsb (λ pattern, bool_decide (is_Some (Re.search pattern (Str.lower url))))
    pinterest_patterns.

Inductive pin_info : Type :=
| NoPin (error : string)
| Pin (pin_id : string) (media_url : string) (is_video : bool)
    (title : string).

Definition info_dict (i : pin_info) : dict :=
  match i with
  | NoPin error => no_info error
  | Pin pin_id media_url is_video title =>
      mk_dict [("success", VBool true); ("pin_id", VStr pin_id);
               ("media_url", VStr media_url); ("is_video", VBool is_video);
               ("title", VStr title)]
  end.

(** [title[:100] + '...' if len(title) > 100 else title] on a [str]. *)
Definition truncate (title : string) : string :=
  if 100 <? Str.len title then Str.take 100 title +:+ "..." else title.

(** The body of the loop [for script in script_matches] for one script:
    [Some] of the dict returned from inside the loop, [None] when the loop
    goes on to the next script.  Nothing in the [try] block can raise on
    strings, so its bare [except: continue] is never entered. *)
Definition scan_script (pin_id script : string) : option pin_info :=
  if Str.contains_any pin_markers script then
    match Re.search images_re script with
    | Some json_match =>
        match Re.search media_url_re script with
        | Some url_match =>
            let media_url :=
              Str.replace (Str.bs +:+ "/") "/" (Re.group1 url_match) in
            let is_video :=
              Str.contains_any [".mp4"; ".webm"] (Str.lower media_url) in
            let title :=
              match Re.search title_re script with
              | Some title_match => Re.group1 title_match
              | None => "Pinterest Media"
              end in
            Some (Pin pin_id media_url is_video (truncate title))
        | None => None
        end
    | None => None
    end
  else None.

(** The whole loop: the first script that returns. *)
Fixpoint scan_scripts (pin_id : string) (scripts : list string)
    : option pin_info :=
  match scripts with
  | [] => None
  | script :: rest =>
      match scan_script pin_id script with
      | Some info => Some info
      | None => scan_scripts pin_id rest
      end
  end.

Section WithEnv.
Context (E : env).

Definition _get_pin_info (url : string) : M pin_info :=
  try_except except_exception
    (url ← (if Str.contains "pin.it" url then
              response ← session_get E (VStr url);
              mret (final_url response)
            else mret url);
     match Re.search pin_id_re url with
     | None => mret (NoPin "Could not extract pin ID from URL")
     | Some pin_id_match =>
         let pin_id := Re.group1 pin_id_match in
         response ← session_get E (VStr url);
         if negb (status response =? 200)%Z then
           mret (NoPin ("Failed to access Pinterest page: HTTP "
                          +:+ pretty (status response)))
         else
           content ← lift (text response);
           let script_matches := Re.findall script_re content in
           match scan_scripts pin_id script_matches with
           | Some info => mret info
           | None =>
               match Re.search og_image_re content with
               | Some og_image_match =>
                   mret (Pin pin_id (Re.group1 og_image_match) false
                           "Pinterest Image")
               | None =>
                   mret (NoPin "Could not find media data in Pinterest page")
               end
           end
     end)
    (λ e, mret (NoPin ("Failed to get pin info: " +:+ exn_str e))).

Definition download (url : string) : M dict :=
  try_except except_exception
    (pin_info ← _get_pin_info url;
     match pin_info with
     | NoPin _ => mret (info_dict pin_info)
     | Pin pin_id media_url is_video title =>
         let '(filename, media_type, size_limit) :=
           if is_video then
             ("pinterest_" +:+ pin_id +:+ ".mp4", "video",
              MAX_VIDEO_SIZE (cfg E))
           else
             let ext :=
               if Str.contains ".jpg" (Str.lower media_url)
                  || Str.contains ".jpeg" (Str.lower media_url) then "jpg"
               else if Str.contains ".png" (Str.lower media_url) then "png"
               else "jpg" in
             ("pinterest_" +:+ pin_id +:+ "." +:+ ext, "photo",
              MAX_PHOTO_SIZE (cfg E)) in
         file_path ← download_file E (VStr media_url) filename;
         file_size ← getsize file_path;
         if (size_limit <? file_size)%Z then
           cleanup_file file_path;;
           mret (too_large file_size)
         else
           mret (mk_dict [("success", VBool true);
                          ("file_path", VStr file_path);
                          ("media_type", VStr media_type);
                          ("title", VStr title);
                          ("error", VNone)])
     end)
    (λ e, mret (download_failed "Pinterest" e)).

End WithEnv.
End Pinterest.

(** ** file_handler.py *)

Module FileHandler.
Import Base.

(** [s.rfind(c)] for one character: the index of its last occurrence, or
    -1. *)
Fixpoint rfind (c : ascii) (s : string) : Z :=
  match s with
  | "" => (-1)%Z
  | String a s' =>
      let r := rfind c s' in
      if (0 <=? r)%Z then (r + 1)%Z
      else if Ascii.eqb a c then 0%Z else (-1)%Z
  end.

Fixpoint only_dots (s : string) : bool :=
  match s with
  | "" => true
  | String c s' => Ascii.eqb c "." && only_dots s'
  end.

(** [os.path.splitext(p)]: the extension starts at the last dot of the
    last component of the path, unless only dots precede it there. *)
Definition splitext (p : string) : string * string :=
  let sepIndex := rfind "/" p in
  let dotIndex := rfind "." p in
  if (sepIndex <? dotIndex)%Z then
    let filenameIndex := Z.to_nat (sepIndex + 1) in
    if only_dots (Str.take (Z.to_nat dotIndex - filenameIndex)
                    (Str.drop filenameIndex p))
    then (p, "")
    else (Str.take (Z.to_nat dotIndex) p, Str.drop (Z.to_nat dotIndex) p)
  else (p, "").

Definition valid_video_types : list string :=
  ["video/mp4"; "video/mpeg"; "video/quicktime"; "video/x-msvideo"].
Definition valid_image_types : list string :=
  ["image/jpeg"; "image/png"; "image/gif"; "image/webp"].
Definition valid_extensions : list string :=
  [".mp4"; ".avi"; ".mov"; ".jpg"; ".jpeg"; ".png"; ".gif"; ".webp"].

(** [[^\w\s.-]] and [[-\s]] *)
Definition unsafe_char : ascii → bool :=
  λ x, negb (Re.word x || Re.space x || Re.just "." x || Re.just "-" x).
Definition dash_or_space : ascii → bool :=
  λ x, Re.just "-" x || Re.space x.

Definition get_safe_filename (filename : string) : string :=
  let safe_filename := Re.sub (Re.Cls unsafe_char) "" filename in
  let safe_filename := Re.sub (Re.plus dash_or_space) "-" safe_filename in
  let safe_filename :=
    if 100 <? Str.len safe_filename then
      let '(name, ext) := splitext safe_filename in
      Str.take 95 name +:+ ext
    else safe_filename in
  if bool_decide (safe_filename = "") then "media" else safe_filename.

Section WithEnv.
(** [mimetypes.guess_type(p)[0]] is a parameter, as the table it reads
    belongs to the system. *)
Context (E : env) (guess_type : string → option string).

(** [FileNotFoundError] is a subclass of [OSError]; no handler of the
    sources tells them apart. *)
Definition get_file_info (file_path : string) : M (Z * string * string) :=
  ex ← path_exists file_path;
  if negb ex then raise (Exn OSError ("File not found: " +:+ file_path))
  else
    file_size ← getsize file_path;
    let mime_type := guess_type file_path in
    let ext := Str.lower (splitext file_path).2 in
    mret (file_size,
          match mime_type with
          | Some t => if bool_decide (t = "") then "application/octet-stream"
                      else t
          | None => "application/octet-stream"
          end,
          ext).

Definition is_valid_media_file (file_path : string) : M bool :=
  try_except bare_except
    ('(_, mime_type, ext) ← get_file_info file_path;
     mret (bool_decide (mime_type ∈ valid_video_types ++ valid_image_types)
           || bool_decide (ext ∈ valid_extensions)))
    (λ _, mret false).

Definition ensure_telegram_compatibility (file_path : string) : M bool :=
  try_except bare_except
    ('(file_size, mime_type, ext) ← get_file_info file_path;
     if Str.contains "video" mime_type then
       mret (file_size <=? MAX_VIDEO_SIZE (cfg E))%Z
     else if Str.contains "image" mime_type then
       mret (file_size <=? MAX_PHOTO_SIZE (cfg E))%Z
     else mret false)
    (λ _, mret false).

End WithEnv.
End FileHandler.

(** ** Fixtures: a JSON decoder and canned network replies

    The theorems below hold for every [json_loads] and every network.  The
    examples need one of each to run on.  [Json.loads] decodes the JSON texts
    built from objects, arrays, strings without escapes, integers, [true],
    [false] and [null]; on those texts it answers as [json.loads] does, and
    it raises [JSONDecodeError] on everything else. *)

Module Json.

Fixpoint skip_ws (s : string) : string :=
  match s with
  | String c s' => if Ascii.is_space c then skip_ws s' else s
  | "" => ""
  end.

(** The characters of a string literal up to its closing quote. *)
Fixpoint string_body (s : string) : option (string * string) :=
  match s with
  | "" => None
  | String c s' =>
      if Ascii.eqb c "034" then Some ("", s')
      else if Ascii.eqb c "092" || (nat_of_ascii c <? 32) then None
      else '(body, rest) ← string_body s'; Some (String c body, rest)
  end.

(** The digits at the head of [s], as a number, and what follows them. *)
Fixpoint digits (acc : Z) (s : string) : Z * string :=
  match s with
  | String c s' =>
      match Ascii.is_nat c with
      | Some d => digits (10 * acc + Z.of_nat d)%Z s'
      | None => (acc, s)
      end
  | "" => (acc, s)
  end.

Definition number (s : string) : option (Z * string) :=
  let '(sign, body) :=
    match s with
    | String "-" s' => ((-1)%Z, s')
    | _ => (1%Z, s)
    end in
  match body with
  | String "0" rest =>
      match rest with
      | String c _ => if Re.digit c || Re.just "." c || Re.just "e" c
                         || Re.just "E" c then None else Some (0%Z, rest)
      | "" => Some (0%Z, rest)
      end
  | String c _ =>
      if Re.digit c then
        let '(n, rest) := digits 0 body in
        match rest with
        | String c' _ => if Re.just "." c' || Re.just "e" c' || Re.just "E" c'
                         then None else Some ((sign * n)%Z, rest)
        | "" => Some ((sign * n)%Z, rest)
        end
      else None
  | "" => None
  end.

(** [d[k] = v]: a later binding of a key replaces the earlier one. *)
Definition set_key (k : string) (v : value) (d : list (string * value))
    : list (string * value) :=
  if bool_decide (k ∈ d.*1) then
    (λ kv, if bool_decide (kv.1 = k) then (k, v) else kv) <$> d
  else d ++ [(k, v)].

Fixpoint parse_value (fuel : nat) (s : string) {struct fuel}
    : option (value * string) :=
  match fuel with
  | 0 => None
  | S fuel' =>
      match skip_ws s with
      | String "{" r =>
          match skip_ws r with
          | String "}" r' => Some (VDict [], r')
          | r' => '(d, r'') ← parse_members fuel' r' []; Some (VDict d, r'')
          end
      | String "[" r =>
          match skip_ws r with
          | String "]" r' => Some (VList [], r')
          | r' => '(l, r'') ← parse_elements fuel' r'; Some (VList l, r'')
          end
      | String "034" r => '(b, r') ← string_body r; Some (VStr b, r')
      | s' =>
          match Str.strip_prefix "null" s', Str.strip_prefix "true" s',
                Str.strip_prefix "false" s' with
          | Some r, _, _ => Some (VNone, r)
          | _, Some r, _ => Some (VBool true, r)
          | _, _, Some r => Some (VBool false, r)
          | _, _, _ => '(n, r) ← number s'; Some (VInt n, r)
          end
      end
  end
with parse_elements (fuel : nat) (s : string) {struct fuel}
    : option (list value * string) :=
  match fuel with
  | 0 => None
  | S fuel' =>
      '(v, r) ← parse_value fuel' s;
      match skip_ws r with
      | String "," r' => '(vs, r'') ← parse_elements fuel' r'; Some (v :: vs, r'')
      | String "]" r' => Some ([v], r')
      | _ => None
      end
  end
with parse_members (fuel : nat) (s : string) (d : list (string * value))
    {struct fuel} : option (list (string * value) * string) :=
  match fuel with
  | 0 => None
  | S fuel' =>
      match skip_ws s with
      | String "034" r =>
          '(k, r1) ← string_body r;
          match skip_ws r1 with
          | String ":" r2 =>
              '(v, r3) ← parse_value fuel' r2;
              match skip_ws r3 with
              | String "," r4 => parse_members fuel' r4 (set_key k v d)
              | String "}" r4 => Some (set_key k v d, r4)
              | _ => None
              end
          | _ => None
          end
      | _ => None
      end
  end.

Definition loads (s : string) : res value :=
  match parse_value (2 * Str.len s + 2) s with
  | Some (v, rest) =>
      match skip_ws rest with
      | "" => Ret v
      | _ => Raise (Exn JSONDecodeError "Extra data")
      end
  | None => Raise (Exn JSONDecodeError "Expecting value")
  end.

End Json.

Module Fixture.

Definition config : Config :=
  {| DOWNLOAD_DIR := "downloads"; MAX_VIDEO_SIZE := 8; MAX_PHOTO_SIZE := 4 |}.

(** A reply with status 200 that carries a page. *)
Definition page (url body : string) : reply :=
  Answered {| status := 200; final_url := url; text := Ret body;
              chunks := []; broken := None |}.

(** A reply with status 200 that streams a file. *)
Definition media (url : string) (chunks : list string) (broken : option exn)
    : reply :=
  Answered {| status := 200; final_url := url; text := Ret "";
              chunks := chunks; broken := broken |}.

(** A reply with another status. *)
Definition failure (url : string) (code : Z) : reply :=
  Answered {| status := code; final_url := url; text := Ret "";
              chunks := []; broken := None |}.

Definition timeout : reply := Refused (Exn Exception "Timeout").

(** The network that gives the replies of [rs] in turn, whatever the URL,
    and refuses the requests after them. *)
Definition replies (rs : list reply) : env :=
  {| cfg := config;
     net := λ n _, default timeout (rs !! n);
     json_loads := Json.loads;
     open_error := λ _, None |}.

(** A page with one state script around [blob]. *)
Definition sigi_page (blob : string) : string :=
  "<html>" +:+ TikTok.sigi_tag +:+ " type=" +:+ Str.dq +:+ "application/json"
    +:+ Str.dq +:+ ">" +:+ blob +:+ "</script></html>".

(** ["k"], and [{"k": v}] for a JSON text [v]. *)
Definition q (s : string) : string := Str.dq +:+ s +:+ Str.dq.
Definition obj (k v : string) : string := "{" +:+ q k +:+ ": " +:+ v +:+ "}".

Definition start : world := World ∅ 0.

(** A TikTok video, its page and its file. *)
Definition tiktok_url : string := "https://www.tiktok.com/@u/video/123".
Definition video_url : string := "http://v/x.mp4".
Definition tiktok_state : string :=
  obj "ItemModule" (obj "123" (obj "video" (obj "playAddr" (q video_url)))).

(** The TikTok video behind a short link, with a file delivered in the
    given chunks. *)
Definition tiktok (chunks : list string) (broken : option exn) : env :=
  replies [page tiktok_url ""; page tiktok_url (sigi_page tiktok_state);
           media video_url chunks broken].

(** An Instagram post whose embed page has the raw GraphImage data only. *)
Definition instagram_url : string := "https://www.instagram.com/p/Cabc_1/".
Definition photo_url : string := "https://i.cdn/a.jpg".
Definition photo_page : string :=
  "<html>{" +:+ q "__typename" +:+ ":" +:+ q "GraphImage" +:+ ","
    +:+ q "display_url" +:+ ":" +:+ q photo_url +:+ "}</html>".
Definition instagram_photo (chunks : list string) : env :=
  replies [page instagram_url photo_page; media photo_url chunks None].

(** The page of the TikTok video with another state blob, and two blobs
    without an entry for the video: one whose [ItemModule] is [null], one
    whose [ItemModule] has another video only. *)
Definition tiktok_page (blob : string) : env :=
  replies [page tiktok_url ""; page tiktok_url (sigi_page blob)].
Definition null_items : string := obj "ItemModule" "null".
Definition other_items : string :=
  obj "ItemModule" (obj "999" (obj "video" "{}")).

(** An Instagram post whose embed page has the raw GraphVideo data only,
    with an escaped ampersand in the URL. *)
Definition escaped_url : string :=
  "https://v.cdn/a.mp4?x=1" +:+ Instagram.amp_escape +:+ "y=2".
Definition video_page : string :=
  "<html>{" +:+ q "__typename" +:+ ":" +:+ q "GraphVideo" +:+ ","
    +:+ q "video_url" +:+ ":" +:+ q escaped_url +:+ "}</html>".
Definition instagram_video : env :=
  replies [page instagram_url video_page].

(** An Instagram post whose embed page has the loader call, with a caption
    of 115 characters. *)
Definition long_caption : string :=
  "Lorem ipsum dolor sit amet, consectetur adipiscing elit, sed do eiusmod tempor incididunt ut labore et dolore magna".
Definition post_blob : string :=
  obj "graphql"
    (obj "shortcode_media"
       ("{" +:+ q "display_url" +:+ ": " +:+ q photo_url +:+ ", "
          +:+ q "edge_media_to_caption" +:+ ": "
          +:+ obj "edges" ("[" +:+ obj "node" (obj "text" (q long_caption))
                             +:+ "]")
          +:+ "}")).
Definition loader_page (blob : string) : string :=
  "<script>window.__additionalDataLoaded('extra'," +:+ blob
    +:+ ");</script>".
Definition instagram_post : env :=
  replies [page instagram_url (loader_page post_blob);
           media photo_url ["jpg"] None].

(** Pinterest pages: a script with the pin marker and a media URL but no
    [images] block, and no Open-Graph tag; a script that has all three,
    followed by an Open-Graph tag; and an Open-Graph tag alone. *)
Definition pin_url : string := "https://www.pinterest.com/pin/42/".
Definition og_tag : string :=
  "<meta property=" +:+ q "og:image" +:+ " content="
    +:+ q "https://i.pinimg.com/og.jpg" +:+ ">".
Definition bare_script : string :=
  "{" +:+ q "Pin" +:+ ": 1, " +:+ q "url" +:+ ": "
    +:+ q "https://i.pinimg.com/a.jpg" +:+ "}".
Definition full_script : string :=
  "{" +:+ q "Pin" +:+ ": 1, " +:+ q "images" +:+ ": 2, " +:+ q "url" +:+ ": "
    +:+ q ("https:" +:+ Str.bs +:+ "/" +:+ Str.bs +:+ "/i.pinimg.com"
             +:+ Str.bs +:+ "/a.mp4")
    +:+ ", " +:+ q "title" +:+ ": " +:+ q long_caption +:+ "}".
Definition script_tag (body : string) : string :=
  "<script>" +:+ body +:+ "</script>".
Definition pinterest (body : string) : env :=
  replies [page pin_url ("<html>" +:+ body +:+ "</html>")].

(** A URL of TikTok whose path names another platform. *)
Definition mixed_url : string :=
  "https://www.tiktok.com/@youtube.com/video/1".

(** A TikTok download of exactly the video ceiling. *)
Definition exact_video : env := tiktok ["abcd"; "efgh"] None.

(** An Instagram photo of five bytes, one over the photo ceiling. *)
Definition large_photo : env := instagram_photo ["12345"].

(** A world with a stale file where a download is going to write, a network
    that answers 404, and one that breaks after the first chunk. *)
Definition stale : world := World {["downloads/x.mp4" := "stale"]} 0.
Definition missing : env := replies [failure video_url 404].
Definition cut : env :=
  replies [media video_url ["abcd"] (Some (Exn Exception "Connection reset"))].

(** A network on which the task is cancelled after the first chunk of the
    file: [iter_chunked] raises [asyncio.CancelledError], whose [str] is
    empty. *)
Definition cancelled : env :=
  replies [media video_url ["abcd"] (Some (Exn CancelledError ""))].

(** A file system on which no file can be opened for writing, with a
    network that delivers the file. *)
Definition unwritable : env :=
  {| cfg := config;
     net := λ _ _, media video_url ["abcd"] None;
     json_loads := Json.loads;
     open_error := λ _, Some (Exn OSError "[Errno 36] File name too long") |}.

End Fixture.

(** ** Notions of the specification

    Definitions that the statements below use and that the sources do not
    contain as such. *)

(** Membership of one character, the meaning of [c in s] for a string [c] of
    length one. *)
Fixpoint has_char (c : ascii) (s : string) : bool :=
  match s with
  | "" => false
  | String a s' => Ascii.eqb a c || has_char c s'
  end.

(** What [s.split(c)[0]] is: the longest prefix of [s] without [c]. *)
Definition before (c : ascii) (s : string) : string :=
  default "" (head (Str.split c s)).

(** The platforms in the order in which [extract_platform] tries them, each
    with the substrings that select it. *)
Definition platforms : list (string * list string) :=
  [("youtube", URLParser.youtube_domains); ("tiktok", URLParser.tiktok_domains);
   ("instagram", URLParser.instagram_domains);
   ("pinterest", URLParser.pinterest_domains)].

(** Whether one of the substrings of platform [p] occurs in the lowercased
    URL. *)
Definition occurs_in (url : string) (p : string * list string) : bool :=
  Str.contains_any p.2 (Str.lower url).

(** The classifier as the specification words it: the first platform of the
    list one of whose domains occurs in the URL. *)
Definition classify (url : string) : option string :=
  fst <$> List.find (occurs_in url) platforms.

(** [b"".join(chunks)]: what is in a file once the chunks are written. *)
Definition joined (chunks : list string) : string :=
  foldr String.append "" chunks.

(** A computation that leaves the files alone. *)
Definition keeps_files {A} (m : M A) : Prop :=
  ∀ w, files (m w).2 = files w.

(** A computation that does not raise. *)
Definition returns {A} (m : M A) : Prop :=
  ∀ w, ∃ a, (m w).1 = Ret a.

(** An outcome that is a value for which [P] holds or, raised again, an
    exception that an [except Exception] clause does not catch. *)
Definition returned {A} (P : A → Prop) (r : res A) : Prop :=
  match r with
  | Ret a => P a
  | Raise e => except_exception (exn_class_of e) = false
  end.

(** A computation that lets no exception out that [except Exception]
    catches. *)
Definition contained {A} (m : M A) : Prop :=
  ∀ w, returned (λ _, True) (m w).1.

(** An exception that [except Exception] catches. *)
Definition caught (e : exn) : Prop :=
  except_exception (exn_class_of e) = true.

(** Every exception that a computation raises satisfies [Q]. *)
Definition raises {A} (Q : exn → Prop) (m : M A) : Prop :=
  ∀ w e, (m w).1 = Raise e → Q e.

(** A response that the network has given. *)
Definition answered (E : env) (r : response) : Prop :=
  ∃ n url, net E n url = Answered r.

(** An environment in which no task is cancelled and no key is pressed:
    whatever the network, [json.loads] and [open] raise is of the class
    [Exception] or of a subclass. *)
Definition undisturbed (E : env) : Prop :=
  (∀ n url e, net E n url = Refused e → caught e) ∧
  (∀ r e, answered E r → text r = Raise e → caught e) ∧
  (∀ r e, answered E r → broken r = Some e → caught e) ∧
  (∀ s e, json_loads E s = Raise e → caught e) ∧
  (∀ path e, open_error E path = Some e → caught e).

(** A reply that raises nothing outside [Exception]. *)
Definition quiet (r : reply) : Prop :=
  match r with
  | Refused e => caught e
  | Answered r =>
      (∀ e, text r = Raise e → caught e) ∧ (∀ e, broken r = Some e → caught e)
  end.

(** What a [download] method delivers: an envelope for which [P] holds, be
    it that an exception that [except Exception] does not catch passes
    through instead; in an undisturbed environment the envelope is
    returned. *)
Definition delivers (E : env) (P : dict → Prop) (r : res dict) : Prop :=
  returned P r ∧ (undisturbed E → ∃ d, r = Ret d ∧ P d).

(** The statements that the three [download] methods share from the call of
    [download_file] on: the file is fetched, measured against [size_limit]
    and removed when it is over it; [envelope] builds the dict of the
    success. *)
Definition fetch_checked (E : env) (media_url : value) (filename : string)
    (size_limit : Z) (envelope : string → dict) : M dict :=
  file_path ← Base.download_file E media_url filename;
  file_size ← Base.getsize file_path;
  if (size_limit <? file_size)%Z then
    Base.cleanup_file file_path;;
    mret (Base.too_large file_size)
  else mret (envelope file_path).

(** The dict of a successful [download]. *)
Definition downloaded (file_path media_type : string) (title : value) : dict :=
  mk_dict [("success", VBool true); ("file_path", VStr file_path);
           ("media_type", VStr media_type); ("title", title);
           ("error", VNone)].

(** What [download_file] answers for the file at [target], from the reply
    to its request: [inl] of the exception it raises, or [inr] of the
    content it has stored. *)
Definition transfer (E : env) (target : string) (r : reply) : exn + string :=
  match r with
  | Refused e => inl e
  | Answered r =>
      if (status r =? 200)%Z then
        match open_error E target with
        | Some e => inl e
        | None =>
            match broken r with
            | Some e => inl e
            | None => inr (joined (chunks r))
            end
        end
      else inl (Exn Exception ("HTTP " +:+ pretty (status r)
                                 +:+ ": Failed to download file"))
  end.

(** What this call has written at [target] when the [try] block of
    [download_file] is left: nothing when the request was refused, the
    status was not 200 or the file could not be opened, and the chunks
    received otherwise. *)
Definition written (E : env) (target : string) (r : reply) : option string :=
  match r with
  | Refused _ => None
  | Answered r =>
      if (status r =? 200)%Z then
        match open_error E target with
        | Some _ => None
        | None => Some (joined (chunks r))
        end
      else None
  end.

(** The files after a [download_file] that raises [e]: the [except
    Exception] clause removes the target; an exception that the clause does
    not catch leaves the files as the [try] block left them. *)
Definition after_failure (E : env) (target : string) (r : reply) (e : exn)
    (fs : gmap string string) : gmap string string :=
  if except_exception (exn_class_of e) then delete target fs
  else match written E target r with
       | Some content => <[target := content]> fs
       | None => fs
       end.

(** What a [download] method has decided once its resolver has succeeded:
    the URL to fetch, the name of the file, the ceiling that applies, and the
    media type and title of the envelope. *)
Record plan : Type := Plan {
  plan_url : value;
  plan_filename : string;
  plan_limit : Z;
  plan_type : string;
  plan_title : value
}.

Definition tiktok_plan (E : env) (i : TikTok.video_info) : string + plan :=
  match i with
  | TikTok.NoVideo error => inl error
  | TikTok.Video video_id download_url title =>
      inr (Plan download_url ("tiktok_" +:+ video_id +:+ ".mp4")
             (MAX_VIDEO_SIZE (cfg E)) "video" title)
  end.

Definition instagram_plan (E : env) (i : Instagram.media_info) : string + plan :=
  match i with
  | Instagram.NoMedia error => inl error
  | Instagram.Media media_id media_url is_video caption =>
      inr (if truthy is_video then
             Plan media_url ("instagram_" +:+ media_id +:+ ".mp4")
               (MAX_VIDEO_SIZE (cfg E)) "video" caption
           else
             Plan media_url ("instagram_" +:+ media_id +:+ ".jpg")
               (MAX_PHOTO_SIZE (cfg E)) "photo" caption)
  end.

Definition pinterest_plan (E : env) (i : Pinterest.pin_info) : string + plan :=
  match i with
  | Pinterest.NoPin error => inl error
  | Pinterest.Pin pin_id media_url is_video title =>
      inr (if is_video then
             Plan (VStr media_url) ("pinterest_" +:+ pin_id +:+ ".mp4")
               (MAX_VIDEO_SIZE (cfg E)) "video" (VStr title)
           else
             let ext :=
               if Str.contains ".jpg" (Str.lower media_url)
                  || Str.contains ".jpeg" (Str.lower media_url) then "jpg"
               else if Str.contains ".png" (Str.lower media_url) then "png"
               else "jpg" in
             Plan (VStr media_url) ("pinterest_" +:+ pin_id +:+ "." +:+ ext)
               (MAX_PHOTO_SIZE (cfg E)) "photo" (VStr title))
  end.

(** The path at which the file of a plan is stored. *)
Definition target (E : env) (p : plan) : string :=
  Base.path_join (DOWNLOAD_DIR (cfg E)) (plan_filename p).

(** The outcome of a [download] method, from the outcome of its resolver:
    the envelope and the world it leaves. *)
Definition settle (E : env) (platform : string)
    (resolved : res (string + plan) * world) : res dict * world :=
  match resolved with
  | (Raise e, w1) =>
      if except_exception (exn_class_of e)
      then (Ret (Base.download_failed platform e), w1)
      else (Raise e, w1)
  | (Ret (inl error), w1) => (Ret (Base.no_info error), w1)
  | (Ret (inr p), w1) =>
      let without := World (delete (target E p) (files w1)) (S (sent w1)) in
      let reply := net E (sent w1) (plan_url p) in
      match transfer E (target E p) reply with
      | inl e =>
          if except_exception (exn_class_of e)
          then (Ret (Base.download_failed platform e), without)
          else (Raise e,
                World (after_failure E (target E p) reply e (files w1))
                  (S (sent w1)))
      | inr content =>
          let file_size := Z.of_nat (Str.len content) in
          if (plan_limit p <? file_size)%Z then
            (Ret (Base.too_large file_size), without)
          else
            (Ret (downloaded (target E p) (plan_type p) (plan_title p)),
             World (<[target E p := content]> (files w1)) (S (sent w1)))
      end
  end.

(** The resolver's outcome, with the plan in place of the dict. *)
Definition planned {I : Type} (f : I → string + plan) (r : res I * world)
    : res (string + plan) * world :=
  (match r.1 with Ret i => Ret (f i) | Raise e => Raise e end, r.2).

(** A key bound to a non-empty string, and a key that is missing or bound to
    [None]. *)
Definition populated (d : dict) (k : string) : Prop :=
  ∃ s, d !! k = Some (VStr s) ∧ s ≠ "".
Definition unpopulated (d : dict) (k : string) : Prop :=
  d !! k = None ∨ d !! k = Some VNone.

(** The envelope is filled on one side only. *)
Definition filled (d : dict) : Prop :=
  (d !! "success" = Some (VBool true) ∧
   populated d "file_path" ∧ populated d "media_type" ∧ unpopulated d "error")
  ∨
  (d !! "success" = Some (VBool false) ∧
   populated d "error" ∧ unpopulated d "file_path" ∧ unpopulated d "media_type").

(** What a resolver hands over is presentable: an error message is not
    empty, and neither are the file name and the media type of a plan. *)
Definition says_why (r : string + plan) : Prop :=
  match r with
  | inl error => error ≠ ""
  | inr p => plan_filename p ≠ "" ∧ plan_type p ≠ ""
  end.

(** Every value that a computation returns satisfies [P]. *)
Definition ensures {A} (m : M A) (P : A → Prop) : Prop :=
  ∀ w a, (m w).1 = Ret a → P a.

(** The text [s] gives [size] bytes in megabytes with one decimal: digits, a
    point and one digit, at most 0.05 MB away from the size. *)
Definition one_decimal (size : Z) (s : string) : Prop :=
  ∃ whole tenth : Z,
    s = pretty whole +:+ "." +:+ pretty tenth ∧
    (0 ≤ whole)%Z ∧ (0 ≤ tenth ≤ 9)%Z ∧ Str.len (pretty tenth) = 1 ∧
    (Z.abs (20 * size - 2097152 * (10 * whole + tenth)) ≤ 1048576)%Z.

(** The envelope of a rejection for size. *)
Definition size_error (size : Z) : value :=
  VStr ("File too large (" +:+ Base.format_mb size +:+ "MB)").

(** A failed download leaves no file of its own: with [resolved] the outcome
    of the resolver from the world [w] and [out] the outcome of the
    [download] method, an envelope is returned (always so in an undisturbed
    environment; otherwise an exception that [except Exception] does not
    catch may pass through instead); if the envelope
    reports a failure, the files are those of [w] when the resolver failed,
    and those of [w] without the target when a plan was made; and a payload
    over the ceiling of the plan is reported as a failure that gives its
    size, with nothing left at the target. *)
Definition failure_cleans (E : env) (w : world)
    (resolved : res (string + plan) * world) (out : res dict * world) : Prop :=
  delivers E (λ d,
    (d !! "success" = Some (VBool false) →
       match resolved.1 with
       | Ret (inr p) =>
           files out.2 = delete (target E p) (files w) ∧
           files out.2 !! target E p = None
       | _ => files out.2 = files w
       end) ∧
    (∀ p content,
       resolved.1 = Ret (inr p) →
       transfer E (target E p) (net E (sent resolved.2) (plan_url p))
       = inr content →
       (plan_limit p < Z.of_nat (Str.len content))%Z →
       d !! "success" = Some (VBool false) ∧
       d !! "error" = Some (size_error (Z.of_nat (Str.len content))) ∧
       files out.2 !! target E p = None)) out.1.

(** The file of plan [p] was accepted: the envelope is the one of a success
    and the content is stored at the target. *)
Definition accepted (E : env) (out : res dict * world) (p : plan)
    (content : string) : Prop :=
  out.1 = Ret (downloaded (target E p) (plan_type p) (plan_title p)) ∧
  files out.2 !! target E p = Some content.

(** The file of plan [p] was rejected for its size, and removed. *)
Definition rejected (E : env) (out : res dict * world) (p : plan)
    (content : string) : Prop :=
  out.1 = Ret (Base.too_large (Z.of_nat (Str.len content))) ∧
  files out.2 !! target E p = None.

(** [v[k]], when [v] is a JSON object that has the key [k]. *)
Definition member (v : value) (k : string) : option value :=
  match v with
  | VDict d => snd <$> List.find (λ kv, bool_decide (kv.1 = k)) d
  | _ => None
  end.

Definition is_object (v : value) : Prop :=
  match v with
  | VDict _ => True
  | _ => False
  end.

(** A key that is missing, or bound to an object. *)
Definition object_or_missing (o : option value) : Prop :=
  match o with
  | None => True
  | Some v => is_object v
  end.

(** The entry of a video in the state of a TikTok page,
    [data["ItemModule"][video_id]], and an address field of an entry,
    [item["video"][k]]. *)
Definition item_entry (data : value) (video_id : string) : option value :=
  member data "ItemModule" ≫= λ items, member items video_id.
Definition address (item : value) (k : string) : option value :=
  member item "video" ≫= λ video, member video k.

(** The messages of [_get_video_info] by class of the specification. *)
Definition tiktok_not_found : list string :=
  ["Could not find video data in page"; "Video data not found";
   "Could not find video download URL"].
Definition tiktok_parse_error : string := "Failed to parse video data".

(** What [_get_video_info] makes of the outcome of [read_state]: the two
    [except] clauses around it. *)
Definition tiktok_verdict (r : res TikTok.video_info) : res TikTok.video_info :=
  match r with
  | Ret i => Ret i
  | Raise e =>
      if json_decode_error (exn_class_of e) then
        Ret (TikTok.NoVideo "Failed to parse video data")
      else if except_exception (exn_class_of e) then
        Ret (TikTok.NoVideo ("Failed to get video info: " +:+ exn_str e))
      else Raise e
  end.

(** The same for [_get_media_info] and [read_media]. *)
Definition instagram_verdict (r : res Instagram.media_info)
    : res Instagram.media_info :=
  match r with
  | Ret i => Ret i
  | Raise e =>
      if json_decode_error (exn_class_of e) then
        Ret (Instagram.NoMedia "Failed to parse media data")
      else if except_exception (exn_class_of e) then
        Ret (Instagram.NoMedia ("Failed to get media info: " +:+ exn_str e))
      else Raise e
  end.

(** The message of the [AttributeError] raised by [v.get]. *)
Definition no_get (v : value) : string :=
  "'" +:+ type_name v +:+ "' object has no attribute 'get'".

(** Every value that a pure computation returns satisfies [P], and every
    exception that it raises satisfies [Q]. *)
Definition res_ensures {A} (P : A → Prop) (r : res A) : Prop :=
  ∀ a, r = Ret a → P a.
Definition res_raises {A} (Q : exn → Prop) (r : res A) : Prop :=
  ∀ e, r = Raise e → Q e.

(** An exception that does not come from [json.loads]. *)
Definition not_decode_error (e : exn) : Prop :=
  exn_class_of e ≠ JSONDecodeError.

(** A script of a Pinterest page from which [_get_pin_info] takes the pin:
    it has a pin marker, a block in braces around ["images"], and a media
    URL. *)
Definition carries_pin (script : string) : bool :=
  Str.contains_any Pinterest.pin_markers script
  && bool_decide (is_Some (Re.search Pinterest.images_re script))
  && bool_decide (is_Some (Re.search Pinterest.media_url_re script)).

(** The title of a script before truncation. *)
Definition raw_title (script : string) : string :=
  match Re.search Pinterest.title_re script with
  | Some title_match => Re.group1 title_match
  | None => "Pinterest Media"
  end.

(** The pin that [_get_pin_info] makes of the media URL match of a script. *)
Definition script_pin (pin_id script : string) (url_match : Re.found)
    : Pinterest.pin_info :=
  let media_url := Str.replace (Str.bs +:+ "/") "/" (Re.group1 url_match) in
  Pinterest.Pin pin_id media_url
    (Str.contains_any [".mp4"; ".webm"] (Str.lower media_url))
    (Pinterest.truncate (raw_title script)).

(** The first strategy as the specification words it: a script that
    contains a pin marker token, and within it the media URL. *)
Definition spec_script_url (script : string) : option string :=
  if Str.contains_any Pinterest.pin_markers script then
    Re.group1 <$> Re.search Pinterest.media_url_re script
  else None.

(** [s.replace('\\u0026', '&')] from a position inside an occurrence:
    [skip] characters of the occurrence are still to be passed over. *)
Definition unescape (skip : nat) (s : string) : string :=
  Str.replace_from (String "092" "u0026") "&" None skip s.

(** The plan of the TikTok video of the fixtures. *)
Definition fixture_video_plan : plan :=
  Plan (VStr Fixture.video_url) "tiktok_123.mp4" 8 "video" (VStr "TikTok Video").

(** The plan of the Instagram photo of the fixtures. *)
Definition fixture_photo_plan : plan :=
  Plan (VStr Fixture.photo_url) "instagram_Cabc_1.jpg" 4 "photo"
    (VStr "Instagram Photo").

(** ** Notions of the further properties *)

(** Every character of [s] is of the class [p]. *)
Fixpoint all_chars (p : ascii → bool) (s : string) : bool :=
  match s with
  | "" => true
  | String c s' => p c && all_chars p s'
  end.

(** [s] begins with a character of the class [p]. *)
Definition starts_in (p : ascii → bool) (s : string) : bool :=
  match s with
  | String c _ => p c
  | "" => false
  end.

(** The longest prefix of [s] made of characters of the class [p], and what
    follows it. *)
Fixpoint run_of (p : ascii → bool) (s : string) : string :=
  match s with
  | String c s' => if p c then String c (run_of p s') else ""
  | "" => ""
  end.

Fixpoint after_run (p : ascii → bool) (s : string) : string :=
  match s with
  | String c s' => if p c then after_run p s' else s
  | "" => ""
  end.

(** The identifier that follows the first occurrence of [marker] that has a
    character of the class [p] behind it: the run of such characters
    there. *)
Fixpoint id_after (marker : string) (p : ascii → bool) (s : string)
    : option string :=
  match Str.strip_prefix marker s with
  | Some rest =>
      if starts_in p rest then Some (run_of p rest)
      else match s with
           | String _ s' => id_after marker p s'
           | "" => None
           end
  | None =>
      match s with
      | String _ s' => id_after marker p s'
      | "" => None
      end
  end.

(** The file names that the downloaders give: the prefix of the platform,
    an identifier made of characters of the class [p], a dot and one of the
    extensions. *)
Definition media_name (prefix : string) (p : ascii → bool) (exts : list string)
    (name : string) : Prop :=
  ∃ id ext, name = prefix +:+ id +:+ "." +:+ ext ∧ id ≠ ""
            ∧ all_chars p id = true ∧ ext ∈ exts.

(** The file name of a plan satisfies [P]. *)
Definition plan_named (P : string → Prop) (r : string + plan) : Prop :=
  match r with
  | inl _ => True
  | inr p => P (plan_filename p)
  end.

(** A computation that sends at most [n] requests, and takes none back. *)
Definition sends_at_most {A} (n : nat) (m : M A) : Prop :=
  ∀ w, sent w ≤ sent (m w).2 ≤ sent w + n.

(** A network that answers the first request with a complete file, and a
    world in which the file of the fixtures is there already. *)
Definition fixture_file : env :=
  Fixture.replies [Fixture.media Fixture.video_url ["abcd"; "ef"] None].

(** The TikTok video of the fixtures, delivered in one chunk. *)
Definition fixture_tiktok : env := Fixture.tiktok ["abcd"] None.

(** The Pinterest pin of the fixtures: a page whose script carries the pin,
    and the file. *)
Definition fixture_pin : env :=
  Fixture.replies
    [Fixture.page Fixture.pin_url
       ("<html>" +:+ Fixture.script_tag Fixture.full_script +:+ "</html>");
     Fixture.media "https://i.pinimg.com/a.mp4" ["abcd"] None].

(** The state of the TikTok page of the fixtures, decoded, with the entry of
    the video and its [video] object. *)
Definition fixture_video : value := VDict [("playAddr", VStr Fixture.video_url)].
Definition fixture_item : value := VDict [("video", fixture_video)].
Definition fixture_state : value :=
  VDict [("ItemModule", VDict [("123", fixture_item)])].

(** An embed page that has the raw data of a photo and, after it, of a
    video. *)
Definition fixture_both_page : string :=
  "<html>{" +:+ Fixture.q "__typename" +:+ ":" +:+ Fixture.q "GraphVideo" +:+ ","
    +:+ Fixture.q "video_url" +:+ ":" +:+ Fixture.q "https://v.cdn/a.mp4" +:+ "}{"
    +:+ Fixture.q "__typename" +:+ ":" +:+ Fixture.q "GraphImage" +:+ ","
    +:+ Fixture.q "display_url" +:+ ":" +:+ Fixture.q Fixture.photo_url
    +:+ "}</html>".
Definition fixture_both : env :=
  Fixture.replies [Fixture.page Fixture.instagram_url fixture_both_page].

(** The characters of a safe file name: those that [\w] matches, [.] and
    [-]. *)
Definition safe_char (c : ascii) : bool :=
  Re.word c || Re.just "." c || Re.just "-" c.

(** The MIME type that [guess_type] gives for a file agrees with the media
    type under which a download reports it. *)
Definition mime_agrees (media_type mime : string) : Prop :=
  (media_type = "video" ∧ Str.contains "video" mime = true)
  ∨ (media_type = "photo" ∧ Str.contains "video" mime = false
     ∧ Str.contains "image" mime = true).

(** A table of MIME types that knows [.mp4] files only. *)
Definition fixture_guess_type (path : string) : option string :=
  if Str.contains ".mp4" path then Some "video/mp4" else None.

(** The ceiling of a plan is the one of its media type. *)
Definition plan_coherent (E : env) (p : plan) : Prop :=
  (plan_type p = "video" ∧ plan_limit p = MAX_VIDEO_SIZE (cfg E))
  ∨ (plan_type p = "photo" ∧ plan_limit p = MAX_PHOTO_SIZE (cfg E)).

(** * Properties *)

#[local] Arguments String.append !_ _ / : simpl nomatch.

(** ** Strings *)

Section StringFacts.
Implicit Types (s t u : string) (c : ascii).

Lemma app_empty_r s : s +:+ "" = s.
Proof. induction s as [|c s IH]; simpl; [done | by rewrite IH]. Qed.

Lemma app_assoc_str s t u : (s +:+ t) +:+ u = s +:+ (t +:+ u).
Proof. induction s as [|c s IH]; simpl; [done | by rewrite IH]. Qed.

Lemma len_app s t : Str.len (s +:+ t) = Str.len s + Str.len t.
Proof. induction s as [|c s IH]; simpl; [done | by rewrite <- IH]. Qed.

Lemma strip_prefix_app p s r : Str.strip_prefix p s = Some r → s = p +:+ r.
Proof.
  revert s. induction p as [|a p IH]; intros [|b s]; simpl; try congruence.
  destruct (Ascii.eqb_spec a b) as [->|]; [|done].
  intros H. by rewrite (IH _ H).
Qed.

Lemma strip_prefix_of_app p r : Str.strip_prefix p (p +:+ r) = Some r.
Proof.
  induction p as [|a p IH]; simpl; [done|]. by rewrite Ascii.eqb_refl.
Qed.

Lemma startswith_app s p : Str.startswith s p = true → ∃ r, s = p +:+ r.
Proof.
  unfold Str.startswith. destruct (Str.strip_prefix p s) eqn:H; [|done].
  intros _. eexists. by apply strip_prefix_app.
Qed.

Lemma take_len n s : n ≤ Str.len s → Str.len (Str.take n s) = n.
Proof.
  revert s. induction n as [|n IH]; intros [|c s]; simpl; try lia.
  intros H. rewrite IH; lia.
Qed.

Lemma take_drop n s : Str.take n s +:+ Str.drop n s = s.
Proof.
  revert s. induction n as [|n IH]; intros [|c s]; simpl; try done.
  by rewrite IH.
Qed.

Lemma take_app_exact s t : Str.take (Str.len s) (s +:+ t) = s.
Proof. induction s as [|c s IH]; simpl; [by destruct t | by rewrite IH]. Qed.

Lemma contains_char c s : Str.contains (String c "") s = has_char c s.
Proof.
  induction s as [|a s IH]; [done|].
  cbn [Str.contains has_char]. rewrite IH.
  unfold Str.startswith. cbn [Str.strip_prefix].
  rewrite (Ascii.eqb_sym c a). by destruct (Ascii.eqb a c).
Qed.

Lemma has_char_app c s t : has_char c (s +:+ t) = has_char c s || has_char c t.
Proof.
  induction s as [|a s IH]; simpl; [done|]. by rewrite IH, orb_assoc.
Qed.

Lemma before_cons c a s :
  before c (String a s) = if Ascii.eqb a c then "" else String a (before c s).
Proof.
  unfold before. cbn [Str.split]. destruct (Ascii.eqb a c); [done|].
  by destruct (Str.split c s).
Qed.

Lemma before_no_sep c s : has_char c (before c s) = false.
Proof.
  induction s as [|a s IH]; [done|]. rewrite before_cons.
  destruct (Ascii.eqb a c) eqn:Hac; [done|]. simpl. by rewrite Hac.
Qed.

Lemma before_prefix c s :
  ∃ rest, s = before c s +:+ rest ∧ (rest = "" ∨ ∃ r, rest = String c r).
Proof.
  induction s as [|a s (rest & IH & Hrest)].
  - exists "". by split; [|left].
  - rewrite before_cons. destruct (Ascii.eqb_spec a c) as [->|].
    + exists (String c s). split; [done|]. right. by eexists.
    + exists rest. split; [|done]. simpl. by rewrite <- IH.
Qed.

Lemma before_keeps_absent c d s :
  has_char d s = false → has_char d (before c s) = false.
Proof.
  intros H. destruct (before_prefix c s) as (rest & Hs & _).
  rewrite Hs, has_char_app in H. by apply orb_false_elim in H as [-> _].
Qed.

Lemma replace_none_left old new skip s :
  skip = 0 → Str.replace_from old new (Some 0) skip s = s.
Proof.
  intros ->. induction s as [|a s IH]; [done|].
  cbn [Str.replace_from]. rewrite bool_decide_eq_true_2 by done.
  rewrite andb_false_r. by rewrite IH.
Qed.

End StringFacts.

(** ** url_parser.py *)

Section URLParserFacts.
Import URLParser.

(** The result of [normalize_url], from the part of the URL that precedes
    its query string and fragment. *)
Lemma normalize_url_eq url :
  let core := before "#" (before "?" url) in
  normalize_url url =
    match Str.strip_prefix "http://" core with
    | Some r => "https://" +:+ r
    | None => if Str.startswith core "https://" then core
              else "https://" +:+ core
    end.
Proof.
  intros core. unfold normalize_url. fold (before "?" url).
  fold (before "#" (before "?" url)). fold core.
  unfold Str.startswith at 1.
  destruct (Str.strip_prefix "http://" core) as [r|] eqn:Hp.
  - apply strip_prefix_app in Hp. rewrite Hp.
    unfold Str.replace_count. simpl.
    by rewrite replace_none_left.
  - by destruct (Str.startswith core "https://").
Qed.

End URLParserFacts.

(** C7.  [normalize] forces the https scheme and strips the query string and
    the fragment: the result starts with [https://], contains neither [?]
    nor [#], and is built from the part of the URL before the first [?] or
    [#]; on ["http://x/y?z=1#f"] it gives ["https://x/y"]. *)
Theorem normalize_url_strips_and_forces_https :
  URLParser.normalize_url "http://x/y?z=1#f" = "https://x/y" ∧
  ∀ url,
    let result := URLParser.normalize_url url in
    Str.startswith result "https://" = true ∧
    Str.contains "?" result = false ∧
    Str.contains "#" result = false ∧
    ∃ core rest,
      url = core +:+ rest ∧
      (rest = "" ∨ Str.startswith rest "?" = true ∨ Str.startswith rest "#" = true) ∧
      Str.contains "?" core = false ∧ Str.contains "#" core = false ∧
      (result = core ∨ result = "https://" +:+ core ∨
       ∃ r, core = "http://" +:+ r ∧ result = "https://" +:+ r).
Proof.
  split; [done|]. intros url result.
  pose proof (normalize_url_eq url) as Heq. cbv zeta in Heq. fold result in Heq.
  set (core := before "#" (before "?" url)) in *.
  assert (Hq : has_char "?" core = false).
  { apply before_keeps_absent, before_no_sep. }
  assert (Hh : has_char "#" core = false) by apply before_no_sep.
  assert (Hparts : ∃ rest, url = core +:+ rest ∧
            (rest = "" ∨ Str.startswith rest "?" = true
             ∨ Str.startswith rest "#" = true)).
  { destruct (before_prefix "?" url) as (r1 & H1 & Hr1).
    destruct (before_prefix "#" (before "?" url)) as (r2 & H2 & Hr2).
    fold core in H2. exists (r2 +:+ r1). split.
    - rewrite <- app_assoc_str, <- H2. exact H1.
    - destruct Hr2 as [->|[r ->]]; [|by right; right].
      destruct Hr1 as [->|[r ->]]; [by left | by right; left]. }
  destruct Hparts as (rest & Hurl & Hrest).
  rewrite !contains_char.
  destruct (Str.strip_prefix "http://" core) as [r|] eqn:Hp.
  - apply strip_prefix_app in Hp.
    rewrite Hp in Hq, Hh. simpl in Hq, Hh. rewrite Heq. simpl.
    repeat split; try done.
    exists core, rest. rewrite !contains_char. repeat split; try done.
    + by rewrite Hp.
    + by rewrite Hp.
    + right; right. by exists r.
  - destruct (Str.startswith core "https://") eqn:Hs; rewrite Heq.
    + repeat split; try done. exists core, rest.
      rewrite !contains_char. repeat split; try done. by left.
    + simpl. repeat split; try done. exists core, rest.
      rewrite !contains_char. repeat split; try done. right; by left.
Qed.

(** C5 (as amended).  The classifier returns the tag of the first platform,
    in the order youtube, tiktok, instagram, pinterest, one of whose domain
    substrings occurs in the lowercased URL, and nothing exactly when no
    substring of any platform occurs; in particular a URL in which the
    substrings of one platform only occur gets the tag of that platform. *)
Theorem extract_platform_first_match (url : string) :
  URLParser.extract_platform url = classify url ∧
  (∀ i p, platforms !! i = Some p → occurs_in url p = true →
          (∀ j q, j < i → platforms !! j = Some q → occurs_in url q = false) →
          URLParser.extract_platform url = Some p.1) ∧
  (∀ p, p ∈ platforms → occurs_in url p = true →
        (∀ q, q ∈ platforms → q ≠ p → occurs_in url q = false) →
        URLParser.extract_platform url = Some p.1) ∧
  (URLParser.extract_platform url = None ↔
     ∀ p, p ∈ platforms → occurs_in url p = false).
Proof.
  assert (Heq : URLParser.extract_platform url = classify url).
  { unfold URLParser.extract_platform, classify, platforms, occurs_in.
    cbn [List.find snd].
    by repeat (match goal with
               | |- context [Str.contains_any ?d ?u] =>
                   destruct (Str.contains_any d u)
               end; cbn [fmap option_fmap option_map fst]; try done). }
  assert (Hfirst : ∀ i p, platforms !! i = Some p → occurs_in url p = true →
            (∀ j q, j < i → platforms !! j = Some q → occurs_in url q = false) →
            classify url = Some p.1).
  { intros i p Hi Hp Hbefore. unfold classify.
    assert (H0 := Hbefore 0). assert (H1 := Hbefore 1). assert (H2 := Hbefore 2).
    unfold platforms in *.
    destruct i as [|[|[|[|i]]]]; cbn in Hi; try done;
      injection Hi as <-; cbn [List.find].
    - by rewrite Hp.
    - rewrite (H0 _ ltac:(lia) eq_refl). by rewrite Hp.
    - rewrite (H0 _ ltac:(lia) eq_refl), (H1 _ ltac:(lia) eq_refl). by rewrite Hp.
    - rewrite (H0 _ ltac:(lia) eq_refl), (H1 _ ltac:(lia) eq_refl),
        (H2 _ ltac:(lia) eq_refl). by rewrite Hp. }
  split; [done|]. split; [by rewrite Heq|]. split.
  - intros p Hin Hp Hothers. rewrite Heq.
    apply list_elem_of_lookup in Hin as [i Hi].
    apply (Hfirst i p Hi Hp). intros j q Hj Hq.
    apply Hothers; [by eapply list_elem_of_lookup_2|].
    intros ->. assert (NoDup platforms) as Hnd.
    { unfold platforms. compute_done. }
    pose proof (NoDup_lookup _ _ _ _ Hnd Hi Hq). lia.
  - rewrite Heq. unfold classify. split.
    + intros Hnone p Hin. destruct (List.find _ _) eqn:Hf; [done|].
      apply (find_none _ _ Hf). by apply list_elem_of_In.
    + intros Hall. destruct (List.find _ _) as [p|] eqn:Hf; [|done].
      apply find_some in Hf as [Hin Hp].
      apply list_elem_of_In in Hin. by rewrite (Hall p Hin) in Hp.
Qed.

(** C5, as the claim words it, fails: a URL of one platform can contain the
    domain of another, and the platform tried first wins.  This TikTok URL
    contains [tiktok.com], and it is classified as youtube. *)
Lemma extract_platform_not_exclusive :
  Str.contains "tiktok.com" (Str.lower Fixture.mixed_url) = true ∧
  occurs_in Fixture.mixed_url ("tiktok", URLParser.tiktok_domains) = true ∧
  occurs_in Fixture.mixed_url ("youtube", URLParser.youtube_domains) = true ∧
  URLParser.extract_platform Fixture.mixed_url = Some "youtube" ∧
  URLParser.extract_platform Fixture.mixed_url ≠ Some "tiktok".
Proof. by vm_compute. Qed.

(** A witness of the amended C5: the same URL, at which the first platform
    whose substring occurs is youtube. *)
Lemma extract_platform_first_match_witness :
  URLParser.extract_platform Fixture.mixed_url = Some "youtube" ∧
  URLParser.extract_platform "https://vm.tiktok.com/ZM1/" = Some "tiktok" ∧
  URLParser.extract_platform "https://example.org/" = None.
Proof.
  pose proof (extract_platform_first_match Fixture.mixed_url) as (_ & H1 & _).
  pose proof (extract_platform_first_match "https://vm.tiktok.com/ZM1/")
    as (_ & _ & H2 & _).
  pose proof (extract_platform_first_match "https://example.org/")
    as (_ & _ & _ & H3).
  split; [|split].
  - apply (H1 0 ("youtube", URLParser.youtube_domains)); [done|done|lia].
  - apply (H2 ("tiktok", URLParser.tiktok_domains)).
    + unfold platforms. rewrite !elem_of_cons. by right; left.
    + done.
    + unfold platforms. intros q Hq Hne.
      rewrite !elem_of_cons, elem_of_nil in Hq.
      by destruct Hq as [->|[->|[->|[->|[]]]]].
  - apply H3. unfold platforms. intros q Hq.
    rewrite !elem_of_cons, elem_of_nil in Hq.
    by destruct Hq as [->|[->|[->|[->|[]]]]].
Defined.

(** ** The monad *)

Section MonadFacts.
Context {A B : Type}.
Implicit Types (m : M A) (k : A → M B) (w : world).

Lemma bind_ret m k w a w' : m w = (Ret a, w') → (m ≫= k) w = k a w'.
Proof. unfold mbind, M_bind, bind. by intros ->. Qed.

Lemma bind_raise m k w e w' : m w = (Raise e, w') → (m ≫= k) w = (Raise e, w').
Proof. unfold mbind, M_bind, bind. by intros ->. Qed.

Lemma keeps_files_ret (a : A) : keeps_files (mret a : M A).
Proof. done. Qed.

Lemma keeps_files_raise e : keeps_files (raise e : M A).
Proof. done. Qed.

Lemma keeps_files_lift (r : res A) : keeps_files (lift r).
Proof. done. Qed.

Lemma keeps_files_bind m k :
  keeps_files m → (∀ a, keeps_files (k a)) → keeps_files (m ≫= k).
Proof.
  intros Hm Hk w. unfold mbind, M_bind, bind.
  specialize (Hm w). destruct (m w) as [[a|e] w1]; simpl in *; [|done].
  by rewrite Hk.
Qed.

Lemma keeps_files_try c m (h : exn → M A) :
  keeps_files m → (∀ e, keeps_files (h e)) → keeps_files (try_except c m h).
Proof.
  intros Hm Hh w. unfold try_except.
  specialize (Hm w). destruct (m w) as [[a|e] w1]; simpl in *; [done|].
  destruct (c _); [|done]. by rewrite Hh.
Qed.

(** An [except Exception] clause whose handler returns lets out only what
    it does not catch. *)
Lemma contained_try m (h : exn → M A) :
  (∀ e, returns (h e)) → contained (try_except except_exception m h).
Proof.
  intros Hh w. unfold try_except.
  destruct (m w) as [[a|e] w1]; [done|].
  destruct (except_exception (exn_class_of e)) eqn:Hc; [|done].
  by destruct (Hh e w1) as [a ->].
Qed.

Lemma returns_ret (a : A) : returns (mret a : M A).
Proof. intros w. by eexists. Qed.

End MonadFacts.

Lemma keeps_files_session_get E url : keeps_files (Base.session_get E url).
Proof. intros w. unfold Base.session_get. by destruct (net E _ _). Qed.

Create HintDb keeps discriminated.
#[local] Hint Resolve keeps_files_ret keeps_files_raise keeps_files_lift
  keeps_files_session_get : keeps.

(** The resolvers are built from requests, pure steps and handlers: goals
    [keeps_files] are split along the structure of the code. *)
Ltac keeps_files_step :=
  match goal with
  | |- keeps_files (_ ≫= _) => apply keeps_files_bind; [|intros ?]
  | |- keeps_files (try_except _ _ _) => apply keeps_files_try; [|intros ?]
  | |- keeps_files (if ?b then _ else _) => destruct b
  | |- keeps_files (match ?x with _ => _ end) => destruct x
  | |- keeps_files _ => solve [auto with keeps]
  end.
Ltac keeps_files_tac := repeat keeps_files_step.

(** ** base.py *)

Section BaseFacts.
Import Base.
Context (E : env).
Implicit Types (w : world) (fs : gmap string string) (p : string).

Lemma write_chunks_run p cs broken fs n c0 :
  fs !! p = Some c0 →
  write_chunks p cs broken (World fs n) =
    (match broken with Some e => Raise e | None => Ret () end,
     World (<[p := c0 +:+ joined cs]> fs) n).
Proof.
  revert fs c0. induction cs as [|c cs IH]; intros fs c0 Hp.
  - simpl. rewrite app_empty_r, (insert_id _ _ _ Hp). by destruct broken.
  - cbn [write_chunks].
    unfold mbind at 1, M_bind at 1, bind at 1, file_write at 1.
    cbn [files sent]. rewrite Hp. cbn [default].
    rewrite (IH _ (c0 +:+ c)) by apply lookup_insert_eq.
    by rewrite insert_insert_eq, app_assoc_str.
Qed.

(** The [except] clause of [download_file]: whatever is at the path goes,
    and the exception is raised again. *)
Lemma remove_and_reraise p (e : exn) fs n :
  ((ex ← path_exists p;
    (if ex : bool then os_remove p else mret ());;
    raise e) : M string) (World fs n)
  = (Raise e, World (delete p fs) n).
Proof.
  unfold mbind, M_bind, bind, path_exists, os_remove. cbn [files sent].
  destruct (fs !! p) as [c|] eqn:Hp.
  - rewrite bool_decide_eq_true_2 by done. cbn [files sent]. by rewrite Hp.
  - rewrite bool_decide_eq_false_2 by (by intros [??]).
    cbn. by rewrite delete_id.
Qed.

(** [download_file], run: a complete transfer leaves the chunks at the
    target path, in their order; a failure that [except Exception]
    catches leaves nothing there; and an exception that the clause does
    not catch leaves what the [try] block has written. *)
Lemma download_file_run url filename w :
  let target := path_join (DOWNLOAD_DIR (cfg E)) filename in
  let reply := net E (sent w) url in
  download_file E url filename w =
    match transfer E target reply with
    | inl e =>
        (Raise e,
         World (after_failure E target reply e (files w)) (S (sent w)))
    | inr content =>
        (Ret target, World (<[target := content]> (files w)) (S (sent w)))
    end.
Proof.
  intros target reply. unfold reply. destruct w as [fs n].
  unfold download_file, try_except, transfer, after_failure, written.
  fold target.
  unfold mbind at 1, M_bind at 1, bind at 1, session_get at 1.
  cbn [files sent].
  destruct (net E n url) as [e|r].
  - destruct (except_exception (exn_class_of e)); [|done].
    apply remove_and_reraise.
  - destruct (status r =? 200)%Z.
    + unfold mbind at 1, M_bind at 1, bind at 1, open_wb at 1.
      cbn [files sent].
      destruct (open_error E target) as [e|].
      { destruct (except_exception (exn_class_of e)); [|done].
        apply remove_and_reraise. }
      unfold mbind at 1, M_bind at 1, bind at 1.
      rewrite (write_chunks_run _ _ _ _ _ "") by apply lookup_insert_eq.
      rewrite insert_insert_eq. cbn [String.append].
      destruct (broken r) as [e|]; [|done].
      destruct (except_exception (exn_class_of e)); [|done].
      rewrite remove_and_reraise. by rewrite delete_insert_eq.
    + cbn [raise except_exception exn_class_of]. apply remove_and_reraise.
Qed.

Lemma cleanup_file_run p fs n :
  cleanup_file p (World fs n) = (Ret (), World (delete p fs) n).
Proof.
  unfold cleanup_file, try_except, mbind, M_bind, bind, path_exists, os_remove.
  cbn [files sent]. destruct (fs !! p) as [c|] eqn:Hp.
  - rewrite bool_decide_eq_true_2 by done. cbn [files sent]. by rewrite Hp.
  - rewrite bool_decide_eq_false_2 by (by intros [??]).
    cbn. by rewrite delete_id.
Qed.

(** The shared end of the [download] methods, run. *)
Lemma fetch_checked_run url filename size_limit envelope w :
  let target := path_join (DOWNLOAD_DIR (cfg E)) filename in
  let reply := net E (sent w) url in
  fetch_checked E url filename size_limit envelope w =
    match transfer E target reply with
    | inl e =>
        (Raise e,
         World (after_failure E target reply e (files w)) (S (sent w)))
    | inr content =>
        let file_size := Z.of_nat (Str.len content) in
        if (size_limit <? file_size)%Z then
          (Ret (too_large file_size),
           World (delete target (files w)) (S (sent w)))
        else
          (Ret (envelope target),
           World (<[target := content]> (files w)) (S (sent w)))
    end.
Proof.
  intros target reply. unfold fetch_checked.
  unfold mbind at 1, M_bind at 1, bind at 1.
  rewrite download_file_run. fold target reply.
  destruct (transfer _ _ _) as [e|content]; [done|].
  unfold mbind at 1, M_bind at 1, bind at 1, getsize at 1.
  cbn [files sent]. rewrite lookup_insert_eq. cbv zeta.
  destruct (_ <? _)%Z; [|done].
  unfold mbind, M_bind, bind. rewrite cleanup_file_run.
  by rewrite delete_insert_eq.
Qed.

End BaseFacts.

(** A call of [download_file] that fails with an exception of the class
    [Exception] or of a subclass leaves no file at the target path, whether
    or not one was there before the call: the files are the ones of before
    without the target.  The call fails so when the request is refused,
    when the status is not 200, when the file cannot be opened and when the
    transfer breaks. *)
Lemma download_file_failure_removes_target
    (E : env) (url : value) (filename : string) (w w' : world) (e : exn) :
  Base.download_file E url filename w = (Raise e, w') →
  except_exception (exn_class_of e) = true →
  let target := Base.path_join (DOWNLOAD_DIR (cfg E)) filename in
  files w' !! target = None ∧ files w' = delete target (files w).
Proof.
  intros Hrun Hclass target. rewrite download_file_run in Hrun.
  fold target in Hrun. cbv zeta in Hrun.
  destruct (transfer _ _ _) as [e'|content] eqn:Ht; simplify_eq.
  unfold after_failure. rewrite Hclass. cbn [files].
  split; [apply lookup_delete_eq | done].
Qed.

(** ** Pure computations *)

Section ResFacts.
Context {A B : Type}.
Implicit Types (r : res A) (k : A → res B).

Lemma res_ensures_ret (P : A → Prop) (a : A) :
  P a → res_ensures P (mret a : res A).
Proof. by intros Ha a' [= <-]. Qed.

Lemma res_ensures_bind (P : B → Prop) r k :
  (∀ a, res_ensures P (k a)) → res_ensures P (r ≫= k).
Proof. intros Hk b. destruct r as [a|e]; [apply Hk | done]. Qed.

Lemma res_raises_ret (Q : exn → Prop) (a : A) : res_raises Q (mret a : res A).
Proof. by intros e. Qed.

Lemma res_raises_bind (Q : exn → Prop) r k :
  res_raises Q r → (∀ a, res_raises Q (k a)) → res_raises Q (r ≫= k).
Proof.
  intros Hr Hk e. destruct r as [a|e']; [apply Hk|].
  intros [= <-]. by apply Hr.
Qed.
End ResFacts.

Lemma py_get_raises v k dflt : res_raises not_decode_error (py_get v k dflt).
Proof. destruct v; intros e [= <-]; done. Qed.

Lemma py_first_raises v : res_raises not_decode_error (py_first v).
Proof.
  destruct v as [| | | |[|??]|[|??]|]; intros e [= <-]; done.
Qed.

Lemma truncate_title_raises v : res_raises not_decode_error (truncate_title v).
Proof.
  destruct v; cbn [truncate_title]; try case_match; intros e [= <-]; done.
Qed.

Ltac res_ensures_step :=
  match goal with
  | |- res_ensures _ (_ ≫= _) => apply res_ensures_bind; intros ?
  | |- res_ensures _ (mret _) => apply res_ensures_ret
  | |- res_ensures _ (if ?b then _ else _) => destruct b
  end.
Ltac res_ensures_tac := repeat res_ensures_step.

Ltac res_raises_step :=
  match goal with
  | |- res_raises _ (_ ≫= _) => apply res_raises_bind; [|intros ?]
  | |- res_raises _ (mret _) => apply res_raises_ret
  | |- res_raises _ (py_get _ _ _) => apply py_get_raises
  | |- res_raises _ (py_first _) => apply py_first_raises
  | |- res_raises _ (truncate_title _) => apply truncate_title_raises
  | |- res_raises _ (if ?b then _ else _) => destruct b
  end.
Ltac res_raises_tac := repeat res_raises_step.

(** ** The download methods *)

Section EnsuresFacts.
Context {A B : Type}.
Implicit Types (m : M A) (k : A → M B).

Lemma ensures_ret (a : A) (P : A → Prop) : P a → ensures (mret a : M A) P.
Proof. intros Ha w a' [= <-]. done. Qed.

Lemma ensures_raise e (P : A → Prop) : ensures (raise e : M A) P.
Proof. by intros w a. Qed.

Lemma ensures_bind m k (P : B → Prop) :
  (∀ a, ensures (k a) P) → ensures (m ≫= k) P.
Proof.
  intros Hk w b. unfold mbind, M_bind, bind.
  destruct (m w) as [[a|e] w1]; [apply Hk | done].
Qed.

Lemma ensures_try c m (h : exn → M A) (P : A → Prop) :
  ensures m P → (∀ e, ensures (h e) P) → ensures (try_except c m h) P.
Proof.
  intros Hm Hh w a. unfold try_except. specialize (Hm w).
  destruct (m w) as [[a'|e] w1]; [apply Hm|].
  destruct (c _); [apply Hh | done].
Qed.

Lemma ensures_lift (r : res A) (P : A → Prop) :
  (∀ a, r = Ret a → P a) → ensures (lift r) P.
Proof. intros Hr w a. apply Hr. Qed.
End EnsuresFacts.

Ltac ensures_step :=
  match goal with
  | |- ensures (_ ≫= _) _ => apply ensures_bind; intros ?
  | |- ensures (try_except _ _ _) _ => apply ensures_try; [|intros ?]
  | |- ensures (mret _) _ => apply ensures_ret
  | |- ensures (raise _) _ => apply ensures_raise
  | |- ensures (lift (json_loads _ _)) _ => apply ensures_lift; intros ??
  | |- ensures (lift (text _)) _ => apply ensures_lift; intros ??
  | |- ensures (if ?b then _ else _) _ => destruct b
  | |- ensures (match ?x with _ => _ end) _ => destruct x eqn:?
  end.
Ltac ensures_tac := repeat ensures_step.

Ltac says_why_tac :=
  cbn [says_why tiktok_plan instagram_plan pinterest_plan];
  repeat case_match;
  cbn [plan_filename plan_type]; try split; done.

Section DownloadFacts.
Context (E : env).

Lemma tiktok_info_contained url : contained (TikTok._get_video_info E url).
Proof. apply contained_try. intros e. apply returns_ret. Qed.

Lemma instagram_info_contained url :
  contained (Instagram._get_media_info E url).
Proof. apply contained_try. intros e. apply returns_ret. Qed.

Lemma pinterest_info_contained url :
  contained (Pinterest._get_pin_info E url).
Proof. apply contained_try. intros e. apply returns_ret. Qed.

Lemma tiktok_info_keeps_files url : keeps_files (TikTok._get_video_info E url).
Proof.
  unfold TikTok._get_video_info. keeps_files_tac.
Qed.

Lemma instagram_info_keeps_files url :
  keeps_files (Instagram._get_media_info E url).
Proof.
  unfold Instagram._get_media_info. keeps_files_tac.
Qed.

Lemma pinterest_info_keeps_files url :
  keeps_files (Pinterest._get_pin_info E url).
Proof. unfold Pinterest._get_pin_info. keeps_files_tac. Qed.

Lemma read_state_says_why blob video_id :
  res_ensures (λ i, says_why (tiktok_plan E i))
    (TikTok.read_state E blob video_id).
Proof. unfold TikTok.read_state. res_ensures_tac; says_why_tac. Qed.

Lemma read_media_says_why blob shortcode :
  res_ensures (λ i, says_why (instagram_plan E i))
    (Instagram.read_media E blob shortcode).
Proof. unfold Instagram.read_media. res_ensures_tac; says_why_tac. Qed.

Lemma tiktok_info_says_why url :
  ensures (TikTok._get_video_info E url) (λ i, says_why (tiktok_plan E i)).
Proof.
  unfold TikTok._get_video_info. ensures_tac.
  all: try (apply ensures_lift, read_state_says_why).
  all: says_why_tac.
Qed.

Lemma instagram_info_says_why url :
  ensures (Instagram._get_media_info E url)
    (λ i, says_why (instagram_plan E i)).
Proof.
  unfold Instagram._get_media_info. ensures_tac.
  all: try (apply ensures_lift, read_media_says_why).
  all: says_why_tac.
Qed.

Lemma scan_scripts_pin pin_id scripts info :
  Pinterest.scan_scripts pin_id scripts = Some info →
  ∃ media_url is_video title, info = Pinterest.Pin pin_id media_url is_video title.
Proof.
  induction scripts as [|s scripts IH]; [done|]. cbn [Pinterest.scan_scripts].
  destruct (Pinterest.scan_script pin_id s) as [i|] eqn:Hs; [|done].
  intros [= ->]. unfold Pinterest.scan_script in Hs.
  repeat case_match; simplify_eq; by do 3 eexists.
Qed.

Lemma pinterest_info_says_why url :
  ensures (Pinterest._get_pin_info E url) (λ i, says_why (pinterest_plan E i)).
Proof.
  unfold Pinterest._get_pin_info. ensures_tac.
  all: try match goal with
       | H : Pinterest.scan_scripts _ _ = Some _ |- _ =>
           apply scan_scripts_pin in H as (? & ? & ? & ->)
       end.
  all: says_why_tac.
Qed.

(** After the resolver, each [download] method is [fetch_checked] at its
    plan. *)
Ltac run_fetch_checked url filename limit type title w1 :=
  let Hrun := fresh "Hrun" in
  pose proof (fetch_checked_run E url filename limit
                (λ p, downloaded p type title) w1) as Hrun;
  unfold fetch_checked, downloaded in Hrun; cbv zeta in Hrun |- *;
  cbv beta iota in Hrun |- *; rewrite Hrun;
  unfold target, after_failure;
  cbn [plan_url plan_filename plan_limit plan_type plan_title];
  destruct (transfer _ _ _) as [?e|?content];
    [by destruct (except_exception (exn_class_of _))
    |by destruct (_ <? _)%Z].

Lemma tiktok_download_run url w :
  TikTok.download E url w =
    settle E "TikTok" (planned (tiktok_plan E) (TikTok._get_video_info E url w)).
Proof.
  unfold TikTok.download, try_except, planned.
  unfold mbind at 1, M_bind at 1, bind at 1.
  destruct (TikTok._get_video_info E url w) as [[[error|vid durl title]|e] w1];
    cbn [fst snd tiktok_plan settle]; try done;
    try (by destruct (except_exception (exn_class_of e))).
  run_fetch_checked durl ("tiktok_" +:+ vid +:+ ".mp4")
    (MAX_VIDEO_SIZE (cfg E)) "video" title w1.
Qed.

Lemma instagram_download_run url w :
  Instagram.download E url w =
    settle E "Instagram"
      (planned (instagram_plan E) (Instagram._get_media_info E url w)).
Proof.
  unfold Instagram.download, try_except, planned.
  unfold mbind at 1, M_bind at 1, bind at 1.
  destruct (Instagram._get_media_info E url w)
    as [[[error|mid murl isv caption]|e] w1];
    cbn [fst snd instagram_plan settle]; try done;
    try (by destruct (except_exception (exn_class_of e))).
  destruct (truthy isv).
  - run_fetch_checked murl ("instagram_" +:+ mid +:+ ".mp4")
      (MAX_VIDEO_SIZE (cfg E)) "video" caption w1.
  - run_fetch_checked murl ("instagram_" +:+ mid +:+ ".jpg")
      (MAX_PHOTO_SIZE (cfg E)) "photo" caption w1.
Qed.

Lemma pinterest_download_run url w :
  Pinterest.download E url w =
    settle E "Pinterest"
      (planned (pinterest_plan E) (Pinterest._get_pin_info E url w)).
Proof.
  unfold Pinterest.download, try_except, planned.
  unfold mbind at 1, M_bind at 1, bind at 1.
  destruct (Pinterest._get_pin_info E url w)
    as [[[error|pid murl isv title]|e] w1];
    cbn [fst snd pinterest_plan settle]; try done;
    try (by destruct (except_exception (exn_class_of e))).
  destruct isv; [|destruct (_ || _); [|destruct (Str.contains ".png" _)]].
  - run_fetch_checked (VStr murl) ("pinterest_" +:+ pid +:+ ".mp4")
      (MAX_VIDEO_SIZE (cfg E)) "video" (VStr title) w1.
  - run_fetch_checked (VStr murl) ("pinterest_" +:+ pid +:+ "." +:+ "jpg")
      (MAX_PHOTO_SIZE (cfg E)) "photo" (VStr title) w1.
  - run_fetch_checked (VStr murl) ("pinterest_" +:+ pid +:+ "." +:+ "png")
      (MAX_PHOTO_SIZE (cfg E)) "photo" (VStr title) w1.
  - run_fetch_checked (VStr murl) ("pinterest_" +:+ pid +:+ "." +:+ "jpg")
      (MAX_PHOTO_SIZE (cfg E)) "photo" (VStr title) w1.
Qed.

End DownloadFacts.

(** ** What is raised *)

Section RaisesFacts.
Context {A B : Type}.
Implicit Types (m : M A) (k : A → M B) (Q : exn → Prop).

Lemma raises_ret Q (a : A) : raises Q (mret a : M A).
Proof. by intros w e. Qed.

Lemma raises_lift Q (r : res A) : res_raises Q r → raises Q (lift r).
Proof. intros Hr w e. apply Hr. Qed.

Lemma raises_bind Q m k :
  raises Q m → (∀ a, raises Q (k a)) → raises Q (m ≫= k).
Proof.
  intros Hm Hk w e. unfold mbind, M_bind, bind. specialize (Hm w).
  destruct (m w) as [[a|e'] w1]; [apply Hk|].
  intros [= <-]. by apply Hm.
Qed.

Lemma raises_bind_post Q (P : A → Prop) m k :
  raises Q m → ensures m P → (∀ a, P a → raises Q (k a)) →
  raises Q (m ≫= k).
Proof.
  intros Hm HP Hk w e. unfold mbind, M_bind, bind.
  specialize (Hm w). specialize (HP w).
  destruct (m w) as [[a|e'] w1]; [by apply Hk, HP|].
  intros [= <-]. by apply Hm.
Qed.

Lemma raises_try Q c m (h : exn → M A) :
  raises Q m → (∀ e, raises Q (h e)) → raises Q (try_except c m h).
Proof.
  intros Hm Hh w e. unfold try_except. specialize (Hm w).
  destruct (m w) as [[a|e'] w1]; [done|].
  destruct (c _); [apply Hh|]. intros [= <-]. by apply Hm.
Qed.

(** What raises only exceptions that [except Exception] catches returns
    when it is wrapped in such a clause. *)
Lemma contained_returns m :
  contained m → raises caught m → returns m.
Proof.
  intros Hc Hr w. specialize (Hc w). specialize (Hr w).
  destruct (m w).1 as [a|e]; [by eexists|].
  cbn [returned] in Hc. specialize (Hr e eq_refl).
  unfold caught in Hr. congruence.
Qed.
End RaisesFacts.

Lemma py_get_caught v k dflt : res_raises caught (py_get v k dflt).
Proof. destruct v; intros e [= <-]; done. Qed.

Lemma py_first_caught v : res_raises caught (py_first v).
Proof.
  destruct v as [| | | |[|??]|[|??]|]; intros e [= <-]; done.
Qed.

Lemma truncate_title_caught v : res_raises caught (truncate_title v).
Proof.
  destruct v; cbn [truncate_title]; try case_match; intros e [= <-]; done.
Qed.

Ltac res_caught_step :=
  match goal with
  | |- res_raises _ (_ ≫= _) => apply res_raises_bind; [|intros ?]
  | |- res_raises _ (mret _) => apply res_raises_ret
  | |- res_raises _ (py_get _ _ _) => apply py_get_caught
  | |- res_raises _ (py_first _) => apply py_first_caught
  | |- res_raises _ (truncate_title _) => apply truncate_title_caught
  | |- res_raises _ (if ?b then _ else _) => destruct b
  end.
Ltac res_caught_tac := repeat res_caught_step.

Section Undisturbed.
Context (E : env) (HE : undisturbed E).

Lemma session_get_caught url : raises caught (Base.session_get E url).
Proof.
  intros w e. unfold Base.session_get.
  destruct (net E (sent w) url) as [e'|r] eqn:Hnet; [|done].
  intros [= <-]. by eapply (proj1 HE).
Qed.

Lemma session_get_answered url : ensures (Base.session_get E url) (answered E).
Proof.
  intros w r. unfold Base.session_get.
  destruct (net E (sent w) url) as [e'|r'] eqn:Hnet; [done|].
  intros [= <-]. by eexists _, _.
Qed.

Lemma raises_get_bind {B} url (k : response → M B) :
  (∀ r, answered E r → raises caught (k r)) →
  raises caught (Base.session_get E url ≫= k).
Proof.
  intros Hk. apply (raises_bind_post _ (answered E));
    [apply session_get_caught | apply session_get_answered | done].
Qed.

Lemma text_caught r : answered E r → res_raises caught (text r).
Proof. intros Hr e He. by eapply (proj1 (proj2 HE)). Qed.

Lemma json_loads_caught s : res_raises caught (json_loads E s).
Proof. intros e He. by eapply (proj1 (proj2 (proj2 (proj2 HE)))). Qed.

Lemma read_state_caught blob video_id :
  res_raises caught (TikTok.read_state E blob video_id).
Proof.
  unfold TikTok.read_state.
  apply res_raises_bind; [apply json_loads_caught|]. intros ?.
  res_caught_tac.
Qed.

Lemma read_media_caught blob shortcode :
  res_raises caught (Instagram.read_media E blob shortcode).
Proof.
  unfold Instagram.read_media.
  apply res_raises_bind; [apply json_loads_caught|]. intros ?.
  res_caught_tac.
Qed.
End Undisturbed.

Ltac raises_step HE :=
  match goal with
  | |- raises _ (Base.session_get _ _ ≫= _) =>
      apply (raises_get_bind _ HE); intros ? ?
  | |- raises _ (try_except _ _ _) => apply raises_try; [|intros ?]
  | |- raises _ (lift (text _) ≫= _) =>
      apply raises_bind;
        [apply raises_lift; by apply (text_caught _ HE) | intros ?]
  | |- raises _ (_ ≫= _) => apply raises_bind; [|intros ?]
  | |- raises _ (mret _) => apply raises_ret
  | |- raises _ (lift (TikTok.read_state _ _ _)) =>
      apply raises_lift, (read_state_caught _ HE)
  | |- raises _ (lift (Instagram.read_media _ _ _)) =>
      apply raises_lift, (read_media_caught _ HE)
  | |- raises _ (if ?b then _ else _) => destruct b
  | |- raises _ (match ?x with _ => _ end) => destruct x
  end.
Ltac raises_tac HE := repeat raises_step HE.

Section UndisturbedDownloads.
Context (E : env).
Context (HE : undisturbed E).

Lemma tiktok_info_returns url : returns (TikTok._get_video_info E url).
Proof.
  apply contained_returns; [apply tiktok_info_contained|].
  unfold TikTok._get_video_info. raises_tac HE.
Qed.

Lemma instagram_info_returns url : returns (Instagram._get_media_info E url).
Proof.
  apply contained_returns; [apply instagram_info_contained|].
  unfold Instagram._get_media_info. raises_tac HE.
Qed.

Lemma pinterest_info_returns url : returns (Pinterest._get_pin_info E url).
Proof.
  apply contained_returns; [apply pinterest_info_contained|].
  unfold Pinterest._get_pin_info. raises_tac HE.
Qed.

Lemma transfer_caught target n url e :
  transfer E target (net E n url) = inl e → caught e.
Proof.
  unfold transfer. destruct (net E n url) as [e'|r] eqn:Hnet.
  - intros [= <-]. by eapply (proj1 HE).
  - destruct (status r =? 200)%Z; [|by intros [= <-]].
    destruct (open_error E target) as [e'|] eqn:Hopen.
    { intros [= <-]. by eapply (proj2 (proj2 (proj2 (proj2 HE)))). }
    destruct (broken r) as [e'|] eqn:Hb; [|done].
    intros [= <-]. eapply (proj1 (proj2 (proj2 HE))); [|done].
    by eexists _, _.
Qed.

(** In an undisturbed environment a [download] method returns. *)
Lemma settle_returns platform x w1 :
  ∃ d, (settle E platform (Ret x, w1)).1 = Ret d.
Proof.
  unfold settle. destruct x as [error|p]; [by eexists|].
  cbv zeta. destruct (transfer _ _ _) as [e|content] eqn:Ht.
  - apply transfer_caught in Ht. unfold caught in Ht. rewrite Ht.
    by eexists.
  - destruct (_ <? _)%Z; by eexists.
Qed.
End UndisturbedDownloads.

Lemma settle_delivers E platform r w1 (P : dict → Prop) :
  (undisturbed E → ∃ x, r = Ret x) →
  returned P (settle E platform (r, w1)).1 →
  delivers E P (settle E platform (r, w1)).1.
Proof.
  intros Hr HP. split; [done|]. intros HE.
  destruct (Hr HE) as [x ->].
  destruct (settle_returns E HE platform x w1) as [d Hd].
  exists d. split; [done|]. by rewrite Hd in HP.
Qed.

(** The outcome of a resolver, with the plan in place of the dict, is a
    value in an undisturbed environment. *)
Lemma planned_returns {I} E (f : I → string + plan) (m : M I) w :
  (undisturbed E → returns m) →
  undisturbed E → ∃ x, (planned f (m w)).1 = Ret x.
Proof.
  intros Hm HE. destruct (Hm HE w) as [i Hi]. unfold planned. cbn [fst].
  rewrite Hi. by eexists.
Qed.

(** ** What [settle] guarantees *)

Section SettleFacts.
Context (E : env).
Implicit Types (p : plan) (w : world) (d : dict).

Lemma app_nonempty_l s t : s ≠ "" → s +:+ t ≠ "".
Proof. by destruct s. Qed.

Lemma app_nonempty_r s t : t ≠ "" → s +:+ t ≠ "".
Proof. destruct s; [done|]. by simpl. Qed.

Lemma path_join_nonempty a b : b ≠ "" → Base.path_join a b ≠ "".
Proof.
  intros Hb. unfold Base.path_join. repeat case_match; try done.
  - by apply app_nonempty_r.
  - by apply app_nonempty_r, app_nonempty_r.
Qed.

Lemma no_info_filled error : error ≠ "" → filled (Base.no_info error).
Proof.
  intros He. right. split; [done|]. split; [by exists error|].
  split; by left.
Qed.

Lemma download_failed_filled platform e :
  filled (Base.download_failed platform e).
Proof.
  right. split; [done|]. split; [|split; by right].
  eexists. split; [done|]. by apply app_nonempty_r.
Qed.

Lemma too_large_filled size : filled (Base.too_large size).
Proof.
  right. split; [done|]. split; [|split; by right].
  eexists. split; [done|]. done.
Qed.

Lemma downloaded_filled file_path media_type title :
  file_path ≠ "" → media_type ≠ "" →
  filled (downloaded file_path media_type title).
Proof.
  intros Hp Ht. left. split; [done|].
  split; [by eexists|]. split; [by eexists|]. by right.
Qed.

Lemma settle_filled platform r w1 :
  match r with Ret x => says_why x | Raise _ => True end →
  returned filled (settle E platform (r, w1)).1.
Proof.
  intros Hr. unfold settle. destruct r as [[error|p]|e].
  - by apply no_info_filled.
  - destruct Hr as [Hf Ht]. cbv zeta.
    destruct (transfer _ _ _) as [e|content].
    + destruct (except_exception (exn_class_of e)) eqn:Hc; [|done].
      apply download_failed_filled.
    + destruct (_ <? _)%Z; [apply too_large_filled|].
      apply downloaded_filled; [|done]. by apply path_join_nonempty.
  - destruct (except_exception (exn_class_of e)) eqn:Hc; [|done].
    apply download_failed_filled.
Qed.

Lemma settle_failure_cleans platform r w w1 :
  files w1 = files w → (undisturbed E → ∃ x, r = Ret x) →
  failure_cleans E w (r, w1) (settle E platform (r, w1)).
Proof.
  intros Hfiles Hr. unfold failure_cleans. apply settle_delivers; [done|].
  unfold settle. cbn [fst snd].
  destruct r as [[error|p]|e].
  - cbn [returned fst snd]. split; [done|]. by intros ?? [=].
  - cbv zeta. destruct (transfer _ _ _) as [e|content] eqn:Ht.
    + destruct (except_exception (exn_class_of e)) eqn:Hc; [|done].
      cbn [returned fst snd files]. rewrite Hfiles.
      split; [by intros _; split; [|apply lookup_delete_eq]|].
      intros p' content' [= <-]. by rewrite Ht.
    + destruct (Z.ltb_spec (plan_limit p) (Z.of_nat (Str.len content))).
      * cbn [returned fst snd files]. rewrite Hfiles.
        split; [by intros _; split; [|apply lookup_delete_eq]|].
        intros p' content' [= <-]. rewrite Ht. intros [= <-] _.
        split; [done|]. split; [done|]. apply lookup_delete_eq.
      * cbn [returned fst snd files].
        split; [done|].
        intros p' content' [= <-]. rewrite Ht. intros [= <-]. lia.
  - destruct (except_exception (exn_class_of e)) eqn:Hc; [|done].
    cbn [returned fst snd]. split; [done|]. by intros ?? [=].
Qed.

Lemma settle_at_ceiling platform p w1 content :
  transfer E (target E p) (net E (sent w1) (plan_url p)) = inr content →
  let out := settle E platform (Ret (inr p), w1) in
  let size := Z.of_nat (Str.len content) in
  (accepted E out p content ↔ (size ≤ plan_limit p)%Z) ∧
  (rejected E out p content ↔ (plan_limit p < size)%Z).
Proof.
  intros Ht out size. unfold out, settle, accepted, rejected.
  cbv zeta. rewrite Ht.
  fold size. destruct (Z.ltb_spec (plan_limit p) size);
    cbn [fst snd files].
  - split; split; try lia.
    + intros [[=] _].
    + intros _. split; [done|]. apply lookup_delete_eq.
  - split; split; try lia.
    + intros _. split; [done|]. apply lookup_insert_eq.
    + intros [[=] _].
Qed.

End SettleFacts.

(** ** The size in the message *)

Lemma pretty_digit_len (d : Z) : (0 ≤ d ≤ 9)%Z → Str.len (pretty d) = 1.
Proof.
  intros Hd.
  assert (d ∈ [0; 1; 2; 3; 4; 5; 6; 7; 8; 9]%Z) as Hin.
  { rewrite !elem_of_cons. lia. }
  rewrite !elem_of_cons, elem_of_nil in Hin.
  by destruct Hin as [->|[->|[->|[->|[->|[->|[->|[->|[->|[->|[]]]]]]]]]]].
Qed.

Lemma format_mb_one_decimal (size : Z) :
  (0 ≤ size)%Z → one_decimal size (Base.format_mb size).
Proof.
  intros Hsize. unfold one_decimal, Base.format_mb.
  set (t := Base.tenths_of_mb size).
  assert (Ht : (0 ≤ t)%Z ∧ (Z.abs (20 * size - 2097152 * t) ≤ 1048576)%Z).
  { unfold t, Base.tenths_of_mb. cbv zeta.
    pose proof (Z.div_mod (10 * size) 1048576 ltac:(lia)) as Hdm.
    pose proof (Z.mod_pos_bound (10 * size) 1048576 ltac:(lia)) as Hr.
    assert (0 ≤ (10 * size) / 1048576)%Z by (apply Z.div_pos; lia).
    repeat case_match; lia. }
  destruct Ht as [Ht0 Hclose].
  exists (t `div` 10)%Z, (t `mod` 10)%Z.
  pose proof (Z.div_mod t 10 ltac:(lia)) as Hdm.
  pose proof (Z.mod_pos_bound t 10 ltac:(lia)) as Hr.
  split; [done|]. split; [apply Z.div_pos; lia|]. split; [lia|].
  split; [apply pretty_digit_len; lia|]. lia.
Qed.

Section DownloadTheorems.
Context (E : env) (url : string) (w : world).

Lemma planned_split {I} (f : I → string + plan) (x : res I * world) :
  planned f x = ((planned f x).1, x.2).
Proof. by destruct x. Qed.

Lemma tiktok_failure_cleans :
  failure_cleans E w
    (planned (tiktok_plan E) (TikTok._get_video_info E url w))
    (TikTok.download E url w).
Proof.
  rewrite tiktok_download_run, planned_split.
  apply settle_failure_cleans; [apply tiktok_info_keeps_files|].
  apply planned_returns. intros HE. by apply tiktok_info_returns.
Qed.

Lemma instagram_failure_cleans :
  failure_cleans E w
    (planned (instagram_plan E) (Instagram._get_media_info E url w))
    (Instagram.download E url w).
Proof.
  rewrite instagram_download_run, planned_split.
  apply settle_failure_cleans; [apply instagram_info_keeps_files|].
  apply planned_returns. intros HE. by apply instagram_info_returns.
Qed.

Lemma pinterest_failure_cleans :
  failure_cleans E w
    (planned (pinterest_plan E) (Pinterest._get_pin_info E url w))
    (Pinterest.download E url w).
Proof.
  rewrite pinterest_download_run, planned_split.
  apply settle_failure_cleans; [apply pinterest_info_keeps_files|].
  apply planned_returns. intros HE. by apply pinterest_info_returns.
Qed.

Lemma planned_says_why {I} (f : I → string + plan) (m : M I) :
  ensures m (λ i, says_why (f i)) →
  match (planned f (m w)).1 with Ret x => says_why x | Raise _ => True end.
Proof.
  intros Hm. unfold planned. cbn [fst]. specialize (Hm w).
  destruct (m w).1; [by apply Hm | done].
Qed.

Lemma tiktok_filled : delivers E filled (TikTok.download E url w).1.
Proof.
  rewrite tiktok_download_run, planned_split. apply settle_delivers.
  - apply planned_returns. intros HE. by apply tiktok_info_returns.
  - apply settle_filled, planned_says_why, tiktok_info_says_why.
Qed.

Lemma instagram_filled : delivers E filled (Instagram.download E url w).1.
Proof.
  rewrite instagram_download_run, planned_split. apply settle_delivers.
  - apply planned_returns. intros HE. by apply instagram_info_returns.
  - apply settle_filled, planned_says_why, instagram_info_says_why.
Qed.

Lemma pinterest_filled : delivers E filled (Pinterest.download E url w).1.
Proof.
  rewrite pinterest_download_run, planned_split. apply settle_delivers.
  - apply planned_returns. intros HE. by apply pinterest_info_returns.
  - apply settle_filled, planned_says_why, pinterest_info_says_why.
Qed.

End DownloadTheorems.

(** C1.  A download that ends in a failure leaves no file of its own on
    disk, for each platform: the method returns an envelope (in an
    undisturbed environment always; an exception that [except Exception]
    does not catch passes through instead of a result); when the envelope
    reports a failure, the files are the ones of before if the resolver
    failed, and the ones of before without the target path if the file was
    requested (HTTP failure, file that cannot be opened, broken transfer,
    size over the ceiling); and a payload over the ceiling of its media type
    is reported as a failure whose message is [File too large (N.nMB)], the
    file being removed.  The size in the message has one decimal and is the
    size in megabytes rounded to tenths. *)
Theorem failed_download_leaves_no_file (E : env) (url : string) (w : world) :
  failure_cleans E w
    (planned (tiktok_plan E) (TikTok._get_video_info E url w))
    (TikTok.download E url w) ∧
  failure_cleans E w
    (planned (instagram_plan E) (Instagram._get_media_info E url w))
    (Instagram.download E url w) ∧
  failure_cleans E w
    (planned (pinterest_plan E) (Pinterest._get_pin_info E url w))
    (Pinterest.download E url w) ∧
  ∀ size, (0 ≤ size)%Z → one_decimal size (Base.format_mb size).
Proof.
  split; [apply tiktok_failure_cleans|].
  split; [apply instagram_failure_cleans|].
  split; [apply pinterest_failure_cleans|].
  apply format_mb_one_decimal.
Qed.

(** C2.  The dict that a [download] method returns is never partially
    filled, for every URL, network and file system: either [success] is
    true, [file_path] and [media_type] are non-empty strings and [error] is
    [None], or [success] is false, [error] is a non-empty string and
    [file_path] and [media_type] are [None] or missing.  In an undisturbed
    environment the method returns such a dict (it does not raise); in
    general it returns one unless an exception that [except Exception] does
    not catch passes through. *)
Theorem download_envelope_filled (E : env) (url : string) (w : world) :
  delivers E filled (TikTok.download E url w).1 ∧
  delivers E filled (Instagram.download E url w).1 ∧
  delivers E filled (Pinterest.download E url w).1.
Proof.
  split; [apply tiktok_filled|]. split; [apply instagram_filled|].
  apply pinterest_filled.
Qed.

(** C10.  The size check is strict: once the resolver has succeeded and the
    file is stored, the download is accepted exactly when the size is at
    most the ceiling that applies (the video ceiling for TikTok, the video or
    the photo ceiling for Instagram according to [is_video]), and rejected
    exactly when the size is over it; a file of exactly the ceiling is
    accepted. *)
Theorem size_check_is_strict (E : env) (url : string) (w : world) :
  (∀ video_id download_url title w1 content,
     TikTok._get_video_info E url w
       = (Ret (TikTok.Video video_id download_url title), w1) →
     transfer E
       (Base.path_join (DOWNLOAD_DIR (cfg E))
          ("tiktok_" +:+ video_id +:+ ".mp4"))
       (net E (sent w1) download_url) = inr content →
     let out := TikTok.download E url w in
     let size := Z.of_nat (Str.len content) in
     let ceiling := MAX_VIDEO_SIZE (cfg E) in
     let p := Plan download_url ("tiktok_" +:+ video_id +:+ ".mp4") ceiling
                "video" title in
     (size = ceiling → accepted E out p content) ∧
     (accepted E out p content ↔ (size ≤ ceiling)%Z) ∧
     (rejected E out p content ↔ (ceiling < size)%Z)) ∧
  (∀ media_id media_url is_video caption w1 content,
     Instagram._get_media_info E url w
       = (Ret (Instagram.Media media_id media_url is_video caption), w1) →
     transfer E
       (Base.path_join (DOWNLOAD_DIR (cfg E))
          ("instagram_" +:+ media_id
             +:+ (if truthy is_video then ".mp4" else ".jpg")))
       (net E (sent w1) media_url) = inr content →
     let out := Instagram.download E url w in
     let size := Z.of_nat (Str.len content) in
     let ceiling := if truthy is_video then MAX_VIDEO_SIZE (cfg E)
                    else MAX_PHOTO_SIZE (cfg E) in
     let p := Plan media_url
                ("instagram_" +:+ media_id
                   +:+ (if truthy is_video then ".mp4" else ".jpg"))
                ceiling (if truthy is_video then "video" else "photo")
                caption in
     (size = ceiling → accepted E out p content) ∧
     (accepted E out p content ↔ (size ≤ ceiling)%Z) ∧
     (rejected E out p content ↔ (ceiling < size)%Z)).
Proof.
  split.
  - intros vid durl title w1 content Hinfo Ht out size ceiling p.
    pose proof (settle_at_ceiling E "TikTok" p w1 content Ht) as [Hacc Hrej].
    unfold out. rewrite tiktok_download_run, Hinfo.
    unfold planned. cbn [fst snd tiktok_plan]. fold ceiling p.
    split; [|done]. intros Heq. apply Hacc.
    unfold size, ceiling, p in *. cbn [plan_limit]. lia.
  - intros mid murl isv caption w1 content Hinfo Ht out size ceiling p.
    assert (Ht' : transfer E (target E p) (net E (sent w1) (plan_url p))
                  = inr content) by done.
    pose proof (settle_at_ceiling E "Instagram" p w1 content Ht')
      as [Hacc Hrej].
    unfold out. rewrite instagram_download_run, Hinfo.
    unfold planned. cbn [fst snd instagram_plan].
    replace (if truthy isv then _ else _) with p
      by (unfold p, ceiling; by destruct (truthy isv)).
    split; [|done]. intros Heq. apply Hacc.
    unfold size, ceiling, p in *. cbn [plan_limit]. lia.
Qed.

(** A TikTok video of exactly the video ceiling (8 bytes in the fixture) is
    accepted and stays on disk. *)
Lemma size_check_is_strict_witness :
  Z.of_nat (Str.len "abcdefgh") = MAX_VIDEO_SIZE (cfg Fixture.exact_video) ∧
  accepted Fixture.exact_video
    (TikTok.download Fixture.exact_video Fixture.tiktok_url Fixture.start)
    fixture_video_plan "abcdefgh".
Proof.
  split; [done|].
  destruct (size_check_is_strict Fixture.exact_video Fixture.tiktok_url
              Fixture.start) as [H _].
  by apply (H "123" (VStr Fixture.video_url) (VStr "TikTok Video")
              (World ∅ 2) "abcdefgh").
Defined.

(** The networks of the fixtures are undisturbed when their replies are
    quiet. *)
Lemma replies_undisturbed (rs : list reply) :
  Forall quiet rs → undisturbed (Fixture.replies rs).
Proof.
  intros Hrs.
  assert (Hnet : ∀ n url, quiet (net (Fixture.replies rs) n url)).
  { intros n url. cbn [net Fixture.replies].
    destruct (rs !! n) as [r|] eqn:Hn; cbn [default from_option id].
    - by apply (Forall_lookup_1 _ _ _ _ Hrs Hn).
    - done. }
  split; [|split; [|split; [|split]]].
  - intros n url e Hr. specialize (Hnet n url). by rewrite Hr in Hnet.
  - intros r e (n & url & Hr) Ht. specialize (Hnet n url).
    rewrite Hr in Hnet. by apply (proj1 Hnet).
  - intros r e (n & url & Hr) Hb. specialize (Hnet n url).
    rewrite Hr in Hnet. by apply (proj2 Hnet).
  - intros s e. cbn [json_loads Fixture.replies]. unfold Json.loads.
    repeat case_match; by intros [= <-].
  - done.
Qed.

(** An Instagram photo of 5 bytes, one over the photo ceiling of the
    fixture, in an undisturbed environment: the envelope reports the size
    with one decimal and the file is gone. *)
Lemma failed_download_leaves_no_file_witness :
  ∃ d, (Instagram.download Fixture.large_photo Fixture.instagram_url
          Fixture.start).1 = Ret d ∧
       d !! "success" = Some (VBool false) ∧
       d !! "error" = Some (VStr "File too large (0.0MB)") ∧
       files (Instagram.download Fixture.large_photo Fixture.instagram_url
                Fixture.start).2 !! "downloads/instagram_Cabc_1.jpg" = None ∧
       one_decimal 5 "0.0".
Proof.
  destruct (failed_download_leaves_no_file Fixture.large_photo
              Fixture.instagram_url Fixture.start)
    as (_ & (_ & Hreturns) & _ & Hfmt).
  destruct Hreturns as (d & Hd & _ & Hover).
  { apply replies_undisturbed. repeat constructor; by intros e. }
  exists d. split; [exact Hd|].
  destruct (Hover fixture_photo_plan "12345") as (Hs & He & Hf);
    [done|done|done|].
  split; [exact Hs|]. split; [exact He|]. split; [exact Hf|].
  by apply (Hfmt 5%Z).
Defined.

(** C9.  [download_file] removes the target when it fails with an exception
    of the class [Exception] or of a subclass (the request refused, a
    status other than 200, a file that cannot be opened, a transfer that
    breaks), whether or not a file was there before; it misses the
    exceptions outside [Exception]: when the task is cancelled after the
    first chunk, the clause [except Exception] is passed by and the chunk
    stays at the target path. *)
Theorem download_file_misses_cancellation :
  (∀ E url filename w w' e,
     Base.download_file E url filename w = (Raise e, w') → caught e →
     files w' !! Base.path_join (DOWNLOAD_DIR (cfg E)) filename = None ∧
     files w' = delete (Base.path_join (DOWNLOAD_DIR (cfg E)) filename)
                  (files w)) ∧
  Base.download_file Fixture.cut (VStr Fixture.video_url) "x.mp4" Fixture.stale
  = (Raise (Exn Exception "Connection reset"), World ∅ 1) ∧
  Base.download_file Fixture.cancelled (VStr Fixture.video_url) "x.mp4"
    Fixture.stale
  = (Raise (Exn CancelledError ""), World {["downloads/x.mp4" := "abcd"]} 1).
Proof.
  split; [|split].
  - intros E url filename w w' e Hrun He.
    by apply (download_file_failure_removes_target E url filename w w' e).
  - by vm_compute.
  - by vm_compute.
Qed.

(** ** Regular expressions *)

Lemma search_lit_contains (l : string) (r : Re.regex) (s : string) :
  Str.contains l s = false → Re.search (Re.Cat (Re.Lit l) r) s = None.
Proof.
  induction s as [|c s IH]; cbn [Str.contains Re.search]; unfold Re.match_here;
    cbn [Re.run]; unfold Str.startswith;
    by destruct (Str.strip_prefix l _).
Qed.

(** ** tiktok.py *)

Section TikTokFacts.
Context (E : env) (url : string) (w : world).
Context (r1 r2 : response) (m : Re.found) (content : string).
Hypothesis Hfirst : net E (sent w) (VStr url) = Answered r1.
Hypothesis Hid : Re.search TikTok.video_id_re (final_url r1) = Some m.
Hypothesis Hpage : net E (S (sent w)) (VStr (final_url r1)) = Answered r2.
Hypothesis Hstatus : status r2 = 200%Z.
Hypothesis Htext : text r2 = Ret content.

(** The page is fetched: the resolver returns what the page gives. *)
Lemma tiktok_info_on_page :
  (TikTok._get_video_info E url w).1 =
    match Re.search TikTok.sigi_re content with
    | None => Ret (TikTok.NoVideo "Could not find video data in page")
    | Some sm =>
        tiktok_verdict (TikTok.read_state E (Re.group1 sm) (Re.group1 m))
    end.
Proof.
  unfold TikTok._get_video_info, try_except, mbind, M_bind, bind,
    Base.session_get, lift.
  cbn [files sent]. rewrite Hfirst. cbn [fst snd]. rewrite Hid.
  cbn [files sent]. rewrite Hpage, Hstatus, Htext. cbn [negb Z.eqb Pos.eqb].
  destruct (Re.search TikTok.sigi_re content) as [sm|]; [|done].
  destruct (TikTok.read_state E _ _) as [i|e]; [done|].
  cbn [tiktok_verdict].
  destruct (json_decode_error _); [done|].
  by destruct (except_exception _).
Qed.
End TikTokFacts.

Lemma py_get_object (v : value) (k : string) (dflt : value) :
  is_object v → py_get v k dflt = Ret (default dflt (member v k)).
Proof. by destruct v. Qed.

Lemma py_get_not_object (v : value) (k : string) (dflt : value) :
  ¬ is_object v → py_get v k dflt = Raise (Exn AttributeError (no_get v)).
Proof. by destruct v. Qed.

Lemma member_is_object (v : value) (k : string) (x : value) :
  member v k = Some x → is_object v.
Proof. by destruct v. Qed.

Section ReadState.
Context (E : env) (blob video_id : string).

Lemma read_state_undecodable e :
  json_loads E blob = Raise e → TikTok.read_state E blob video_id = Raise e.
Proof. unfold TikTok.read_state, mbind, res_bind. by intros ->. Qed.

Lemma read_state_not_object data :
  json_loads E blob = Ret data → ¬ is_object data →
  TikTok.read_state E blob video_id = Raise (Exn AttributeError (no_get data)).
Proof.
  unfold TikTok.read_state, mbind, res_bind. intros -> Hdata.
  by rewrite py_get_not_object.
Qed.

Lemma read_state_items_not_object data items :
  json_loads E blob = Ret data → member data "ItemModule" = Some items →
  ¬ is_object items →
  TikTok.read_state E blob video_id = Raise (Exn AttributeError (no_get items)).
Proof.
  unfold TikTok.read_state, mbind, res_bind. intros -> Hitems Hno.
  rewrite py_get_object by by eapply member_is_object.
  rewrite Hitems. cbn [default from_option id]. by rewrite py_get_not_object.
Qed.

Lemma read_state_no_item data :
  json_loads E blob = Ret data → is_object data →
  object_or_missing (member data "ItemModule") →
  item_entry data video_id = None →
  TikTok.read_state E blob video_id = Ret (TikTok.NoVideo "Video data not found").
Proof.
  intros Hjson Hdata Hitems Hentry.
  unfold TikTok.read_state, mbind, res_bind. rewrite Hjson.
  rewrite py_get_object by done. unfold item_entry in Hentry.
  destruct (member data "ItemModule") as [items|]; cbn [default from_option id].
  - cbn [mbind option_bind] in Hentry. cbn [object_or_missing] in Hitems.
    rewrite py_get_object by done. by rewrite Hentry.
  - done.
Qed.

Lemma read_state_empty_item data item :
  json_loads E blob = Ret data → item_entry data video_id = Some item →
  truthy item = false →
  TikTok.read_state E blob video_id = Ret (TikTok.NoVideo "Video data not found").
Proof.
  intros Hjson Hentry Hfalse.
  unfold TikTok.read_state, mbind, res_bind. rewrite Hjson.
  unfold item_entry in Hentry.
  destruct (member data "ItemModule") as [items|] eqn:Hitems; [|done].
  cbn [mbind option_bind] in Hentry.
  rewrite py_get_object by by eapply member_is_object.
  rewrite Hitems. cbn [default from_option id].
  rewrite py_get_object by by eapply member_is_object.
  rewrite Hentry. cbn [default from_option id]. by rewrite Hfalse.
Qed.

Lemma read_state_no_address data item :
  json_loads E blob = Ret data → item_entry data video_id = Some item →
  is_object item → truthy item = true →
  object_or_missing (member item "video") →
  address item "downloadAddr" = None → address item "playAddr" = None →
  TikTok.read_state E blob video_id
    = Ret (TikTok.NoVideo "Could not find video download URL").
Proof.
  intros Hjson Hentry Hitem Htrue Hvideo Hdown Hplay.
  unfold TikTok.read_state, mbind, res_bind. rewrite Hjson.
  unfold item_entry in Hentry. unfold address in Hdown, Hplay.
  destruct (member data "ItemModule") as [items|] eqn:Hitems; [|done].
  cbn [mbind option_bind] in Hentry.
  rewrite py_get_object by by eapply member_is_object.
  rewrite Hitems. cbn [default from_option id].
  rewrite py_get_object by by eapply member_is_object.
  rewrite Hentry. cbn [default from_option id]. rewrite Htrue. cbn [negb].
  rewrite py_get_object by done.
  destruct (member item "video") as [video|]; cbn [default from_option id].
  - cbn [mbind option_bind] in Hdown, Hplay.
    cbn [object_or_missing] in Hvideo.
    rewrite !py_get_object by done.
    rewrite Hdown, Hplay. done.
  - done.
Qed.
End ReadState.

(** Where the lookups of [_get_video_info] go through JSON objects, the
    failures are as the specification has them.  [_get_video_info] lets no
    exception out that [except Exception] catches, and in an undisturbed
    environment it returns.  Once the page is fetched, it answers with a
    message of the not-found class when the page has no [SIGI_STATE] script
    tag, when the blob decodes to an object whose [ItemModule] is missing or
    an object and whose entry for the video id is missing, and when the
    entry is there and is empty, null or falsy otherwise; it answers so too
    when the entry is a non-empty object whose [video] is missing or an
    object and has neither [downloadAddr] nor [playAddr]; and it answers
    with the parse error when the blob is not valid JSON. *)
Lemma tiktok_resolution_failures (E : env) (url : string) (w : world) :
  contained (TikTok._get_video_info E url) ∧
  (undisturbed E → ∃ i, (TikTok._get_video_info E url w).1 = Ret i) ∧
  ∀ r1 m r2 content,
    net E (sent w) (VStr url) = Answered r1 →
    Re.search TikTok.video_id_re (final_url r1) = Some m →
    net E (S (sent w)) (VStr (final_url r1)) = Answered r2 →
    status r2 = 200%Z → text r2 = Ret content →
    let result := (TikTok._get_video_info E url w).1 in
    let video_id := Re.group1 m in
    (Str.contains TikTok.sigi_tag content = false →
       result = Ret (TikTok.NoVideo "Could not find video data in page")) ∧
    (∀ sm, Re.search TikTok.sigi_re content = Some sm →
       (∀ msg, json_loads E (Re.group1 sm) = Raise (Exn JSONDecodeError msg) →
          result = Ret (TikTok.NoVideo tiktok_parse_error)) ∧
       (∀ data, json_loads E (Re.group1 sm) = Ret data →
          (is_object data → object_or_missing (member data "ItemModule") →
           item_entry data video_id = None →
           result = Ret (TikTok.NoVideo "Video data not found")) ∧
          (∀ item, item_entry data video_id = Some item →
             truthy item = false →
             result = Ret (TikTok.NoVideo "Video data not found")) ∧
          (∀ item, item_entry data video_id = Some item →
             is_object item → truthy item = true →
             object_or_missing (member item "video") →
             address item "downloadAddr" = None →
             address item "playAddr" = None →
             result = Ret (TikTok.NoVideo "Could not find video download URL")))).
Proof.
  split; [apply tiktok_info_contained|].
  split; [intros HE; by apply tiktok_info_returns|].
  intros r1 m r2 content Hfirst Hid Hpage Hstatus Htext result video_id.
  pose proof (tiktok_info_on_page E url w r1 r2 m content
                Hfirst Hid Hpage Hstatus Htext) as Hrun.
  fold result video_id in Hrun. split.
  - intros Hno. rewrite Hrun.
    by rewrite (search_lit_contains _ _ _ Hno
                  : Re.search TikTok.sigi_re content = None).
  - intros sm Hsm. rewrite Hsm in Hrun. split.
    + intros msg Hjson. rewrite Hrun.
      by rewrite (read_state_undecodable _ _ _ _ Hjson).
    + intros data Hjson. repeat split.
      * intros Hdata Hitems Hentry. rewrite Hrun.
        by rewrite (read_state_no_item _ _ _ _ Hjson Hdata Hitems Hentry).
      * intros item Hentry Hfalse. rewrite Hrun.
        by rewrite (read_state_empty_item _ _ _ _ _ Hjson Hentry Hfalse).
      * intros item Hentry Hitem Htrue Hvideo Hdown Hplay. rewrite Hrun.
        by rewrite (read_state_no_address _ _ _ _ _ Hjson Hentry Hitem Htrue
                      Hvideo Hdown Hplay).
Qed.

(** ** instagram.py *)

Lemma startswith_cons (a c : ascii) (p s : string) :
  Str.startswith (String c s) (String a p) = Ascii.eqb a c && Str.startswith s p.
Proof.
  unfold Str.startswith. cbn [Str.strip_prefix]. by destruct (Ascii.eqb a c).
Qed.

Section ReplaceAmp.
Abbreviation amp := (String "092" "u0026").

Lemma unescape_cons c s :
  unescape 0 (String c s) =
    if Str.startswith (String c s) amp then String "&" (unescape 5 s)
    else String c (unescape 0 s).
Proof.
  unfold unescape. cbn [Str.replace_from].
  rewrite (bool_decide_eq_false_2 (None = Some 0)) by done.
  cbn [negb]. rewrite andb_true_r. by destruct (Str.startswith _ amp).
Qed.

(** A text without [&] and without backslash that begins the result of the
    replacement begins the subject too: it was copied, not produced. *)
Lemma unescape_prefix t s :
  has_char "&" t = false → has_char "092" t = false →
  Str.startswith (unescape 0 s) t = true → Str.startswith s t = true.
Proof.
  revert s. induction t as [|a t IH]; intros s Hamp Hbs; [by destruct s|].
  cbn [has_char] in Hamp, Hbs.
  apply orb_false_elim in Hamp as [Ha Hamp].
  apply orb_false_elim in Hbs as [Hb Hbs].
  destruct s as [|c s]; [done|]. rewrite unescape_cons.
  destruct (Str.startswith (String c s) amp) eqn:Hstart.
  - rewrite startswith_cons, Ha. done.
  - rewrite !startswith_cons. intros [-> H]%andb_true_iff.
    by rewrite (IH s Hamp Hbs H).
Qed.

Lemma unescape_clean skip s : Str.contains amp (unescape skip s) = false.
Proof.
  revert skip. induction s as [|c s IH]; intros skip; [done|].
  destruct skip as [|k]; [|apply IH]. rewrite unescape_cons.
  destruct (Str.startswith (String c s) amp) eqn:Hstart.
  - cbn [Str.contains]. rewrite startswith_cons.
    cbn [Ascii.eqb Bool.eqb andb]. apply IH.
  - cbn [Str.contains]. rewrite IH.
    destruct (Str.startswith (String c (unescape 0 s)) amp) eqn:Hout; [|done].
    rewrite startswith_cons in Hout, Hstart.
    apply andb_true_iff in Hout as [Hc Hrest].
    apply unescape_prefix in Hrest; [|done|done].
    by rewrite Hc, Hrest in Hstart.
Qed.

(** No [&] escape is left in an unescaped URL. *)
Lemma replace_amp_clean s :
  Str.contains Instagram.amp_escape (Str.replace Instagram.amp_escape "&" s)
    = false.
Proof. apply (unescape_clean 0). Qed.
End ReplaceAmp.

Section ReadMedia.
Context (E : env) (blob shortcode : string).

Lemma read_media_undecodable e :
  json_loads E blob = Raise e → Instagram.read_media E blob shortcode = Raise e.
Proof. unfold Instagram.read_media, mbind, res_bind. by intros ->. Qed.

(** Only [json.loads] raises [JSONDecodeError]. *)
Lemma read_media_decode_error e :
  Instagram.read_media E blob shortcode = Raise e →
  exn_class_of e = JSONDecodeError → json_loads E blob = Raise e.
Proof.
  unfold Instagram.read_media.
  destruct (json_loads E blob) as [data|e'] eqn:Hjson; [|by intros [= ->]].
  intros Hraise Hclass. exfalso. revert Hclass.
  refine (_ e Hraise). change (res_raises not_decode_error
    (Ret data ≫= λ data,
       graphql ← py_get data "graphql" (VDict []);
       media_data ← py_get graphql "shortcode_media" (VDict []);
       if negb (truthy media_data) then
         mret (Instagram.NoMedia "Media data not found in response")
       else
         is_video ← py_get media_data "is_video" (VBool false);
         media_url ← (if truthy is_video
                      then py_get media_data "video_url" VNone
                      else py_get media_data "display_url" VNone);
         if negb (truthy media_url) then
           mret (Instagram.NoMedia "Could not find media URL")
         else
           to_caption ← py_get media_data "edge_media_to_caption" (VDict []);
           edges ← py_get to_caption "edges" (VList []);
           caption ← (if truthy edges then
                        edge ← py_first edges;
                        node ← py_get edge "node" (VDict []);
                        py_get node "text" (VStr "")
                      else mret (VStr ""));
           caption ← truncate_title caption;
           mret (Instagram.Media shortcode media_url is_video caption))).
  apply res_raises_bind; [by intros ?|]. intros ?. res_raises_tac.
Qed.

Lemma read_media_messages :
  res_ensures
    (λ i, ∀ error, i = Instagram.NoMedia error →
          error = "Media data not found in response"
          ∨ error = "Could not find media URL")
    (Instagram.read_media E blob shortcode).
Proof.
  unfold Instagram.read_media. res_ensures_tac; intros error [= <-]; auto.
Qed.
End ReadMedia.

Section InstagramFacts.
Context (E : env) (url : string) (w : world).
Context (r : response) (m : Re.found) (content : string).
Hypothesis Hcode :
  match Re.search Instagram.post_re url with
  | Some m => Some m
  | None => Re.search Instagram.reel_re url
  end = Some m.
Hypothesis Hpage :
  net E (sent w)
    (VStr ("https://www.instagram.com/p/" +:+ Re.group1 m +:+ "/embed/"))
  = Answered r.
Hypothesis Hstatus : status r = 200%Z.
Hypothesis Htext : text r = Ret content.

(** The embed page is fetched: the resolver returns what the page gives. *)
Lemma instagram_info_on_page :
  (Instagram._get_media_info E url w).1 =
    match Re.search Instagram.loader_re content with
    | Some lm =>
        instagram_verdict
          (Instagram.read_media E (Re.group1 lm) (Re.group1 m))
    | None =>
        Ret match Re.search Instagram.graph_image_re content with
            | Some im =>
                Instagram.Media (Re.group1 m)
                  (VStr (Str.replace Instagram.amp_escape "&" (Re.group1 im)))
                  (VBool false) (VStr "Instagram Photo")
            | None =>
                match Re.search Instagram.graph_video_re content with
                | Some vm =>
                    Instagram.Media (Re.group1 m)
                      (VStr (Str.replace Instagram.amp_escape "&"
                               (Re.group1 vm)))
                      (VBool true) (VStr "Instagram Video")
                | None =>
                    Instagram.NoMedia
                      "Could not find media data in embed page"
                end
            end
    end.
Proof.
  unfold Instagram._get_media_info, try_except. rewrite Hcode.
  unfold mbind, M_bind, bind, Base.session_get, lift.
  cbn [files sent]. rewrite Hpage, Hstatus, Htext. cbn [negb Z.eqb Pos.eqb].
  destruct (Re.search Instagram.loader_re content) as [lm|].
  - destruct (Instagram.read_media E _ _) as [i|e]; [done|].
    cbn [instagram_verdict].
    destruct (json_decode_error _); [done|].
    by destruct (except_exception _).
  - destruct (Re.search Instagram.graph_image_re content); [done|].
    by destruct (Re.search Instagram.graph_video_re content).
Qed.
End InstagramFacts.

(** C4.  On an embed page where the loader call and the GraphImage pattern
    do not match and the GraphVideo pattern does, the resolver succeeds with
    [is_video] true and the captured URL in which every [&] escape is
    replaced by an ampersand, no escape being left; when none of the three
    patterns matches, it fails with the not-found message; and it fails with
    the parse error exactly when the loader blob is there and [json.loads]
    rejects it. *)
Theorem instagram_fallback_chain (E : env) (url : string) (w : world)
    (r : response) (m : Re.found) (content : string) :
  match Re.search Instagram.post_re url with
  | Some m => Some m
  | None => Re.search Instagram.reel_re url
  end = Some m →
  net E (sent w)
    (VStr ("https://www.instagram.com/p/" +:+ Re.group1 m +:+ "/embed/"))
  = Answered r →
  status r = 200%Z → text r = Ret content →
  let result := (Instagram._get_media_info E url w).1 in
  (Re.search Instagram.loader_re content = None →
   Re.search Instagram.graph_image_re content = None →
   ∀ vm, Re.search Instagram.graph_video_re content = Some vm →
     let media_url := Str.replace Instagram.amp_escape "&" (Re.group1 vm) in
     result = Ret (Instagram.Media (Re.group1 m) (VStr media_url) (VBool true)
                     (VStr "Instagram Video")) ∧
     Str.contains Instagram.amp_escape media_url = false) ∧
  (Re.search Instagram.loader_re content = None →
   Re.search Instagram.graph_image_re content = None →
   Re.search Instagram.graph_video_re content = None →
   result = Ret (Instagram.NoMedia "Could not find media data in embed page")) ∧
  (result = Ret (Instagram.NoMedia "Failed to parse media data") ↔
   ∃ lm msg, Re.search Instagram.loader_re content = Some lm ∧
             json_loads E (Re.group1 lm) = Raise (Exn JSONDecodeError msg)).
Proof.
  intros Hcode Hpage Hstatus Htext result.
  pose proof (instagram_info_on_page E url w r m content
                Hcode Hpage Hstatus Htext) as Hrun.
  fold result in Hrun. rewrite Hrun. split; [|split].
  - intros -> -> vm ->. split; [done|]. apply replace_amp_clean.
  - by intros -> -> ->.
  - split.
    + intros Hres.
      destruct (Re.search Instagram.loader_re content) as [lm|].
      * destruct (Instagram.read_media E _ _) as [i|e] eqn:Hread.
        -- cbn [instagram_verdict] in Hres. injection Hres as ->.
           by destruct (read_media_messages _ _ _ _ Hread _ eq_refl) as [?|?].
        -- cbn [instagram_verdict] in Hres.
           destruct (json_decode_error (exn_class_of e)) eqn:Hclass.
           ++ destruct e as [[] msg]; try done.
              exists lm, msg. split; [done|].
              by apply (read_media_decode_error _ _ _ _ Hread).
           ++ destruct (except_exception (exn_class_of e)); by simpl in Hres.
      * injection Hres as Hres. by repeat case_match.
    + intros (lm & msg & -> & Hjson).
      by rewrite (read_media_undecodable _ _ _ _ Hjson).
Qed.

(** C3.  The lookups of [_get_video_info] are [.get] calls chained without
    a check of what they are called on.  The blob [{"ItemModule": null}] is
    valid JSON and has no entry for the video, and the resolver answers with
    the catch-all message that quotes the [AttributeError], not with a
    message of the not-found class; when the key [ItemModule] is missing, or
    is an object without the video, the answer is the one of the not-found
    class. *)
Theorem tiktok_missing_item_reported_as_fault :
  Json.loads Fixture.null_items = Ret (VDict [("ItemModule", VNone)]) ∧
  item_entry (VDict [("ItemModule", VNone)]) "123" = None ∧
  (TikTok._get_video_info (Fixture.tiktok_page Fixture.null_items)
     Fixture.tiktok_url Fixture.start).1
  = Ret (TikTok.NoVideo
           "Failed to get video info: 'NoneType' object has no attribute 'get'") ∧
  ("Failed to get video info: 'NoneType' object has no attribute 'get'"
     ∉ tiktok_parse_error :: tiktok_not_found) ∧
  (TikTok._get_video_info (Fixture.tiktok_page "{}")
     Fixture.tiktok_url Fixture.start).1
  = Ret (TikTok.NoVideo "Video data not found") ∧
  (TikTok._get_video_info (Fixture.tiktok_page Fixture.other_items)
     Fixture.tiktok_url Fixture.start).1
  = Ret (TikTok.NoVideo "Video data not found").
Proof.
  split; [by vm_compute|]. split; [by vm_compute|]. split; [by vm_compute|].
  split; [|split; by vm_compute].
  unfold tiktok_parse_error, tiktok_not_found.
  rewrite !not_elem_of_cons. repeat split; try done. apply not_elem_of_nil.
Qed.

(** A witness of C4: the embed page with the raw GraphVideo data only. *)
Lemma instagram_fallback_chain_witness :
  (Instagram._get_media_info Fixture.instagram_video Fixture.instagram_url
     Fixture.start).1
  = Ret (Instagram.Media "Cabc_1" (VStr "https://v.cdn/a.mp4?x=1&y=2")
           (VBool true) (VStr "Instagram Video")) ∧
  Str.contains Instagram.amp_escape "https://v.cdn/a.mp4?x=1&y=2" = false ∧
  Str.contains Instagram.amp_escape Fixture.escaped_url = true.
Proof.
  destruct (instagram_fallback_chain Fixture.instagram_video
              Fixture.instagram_url Fixture.start
              {| status := 200; final_url := Fixture.instagram_url;
                 text := Ret Fixture.video_page; chunks := [];
                 broken := None |}
              (Some "Cabc_1", "/") Fixture.video_page)
    as [Hvideo _]; [by vm_compute|by vm_compute|done|done|].
  destruct (Hvideo ltac:(by vm_compute) ltac:(by vm_compute)
              (Some Fixture.escaped_url, "}</html>") ltac:(by vm_compute))
    as [Hres Hclean].
  split; [exact Hres|]. split; [exact Hclean|]. by vm_compute.
Defined.

(** ** pinterest.py *)

Section ScanScripts.
Context (pin_id : string).
Implicit Types (script : string) (scripts : list string).

Lemma scan_script_carries script :
  carries_pin script = true →
  ∃ um, Re.search Pinterest.media_url_re script = Some um ∧
        Pinterest.scan_script pin_id script = Some (script_pin pin_id script um).
Proof.
  unfold carries_pin, Pinterest.scan_script.
  intros [[Hmark Himg]%andb_true_iff Hurl]%andb_true_iff.
  apply bool_decide_eq_true in Himg as [im Him].
  apply bool_decide_eq_true in Hurl as [um Hum].
  exists um. by rewrite Hmark, Him, Hum.
Qed.

Lemma scan_script_skips script :
  carries_pin script = false ↔ Pinterest.scan_script pin_id script = None.
Proof.
  unfold carries_pin, Pinterest.scan_script.
  destruct (Str.contains_any _ _); [|done].
  destruct (Re.search Pinterest.images_re script) as [im|].
  - rewrite (bool_decide_eq_true_2 (is_Some (Some im))) by done.
    destruct (Re.search Pinterest.media_url_re script) as [um|].
    + rewrite (bool_decide_eq_true_2 (is_Some (Some um))) by done. done.
    + rewrite (bool_decide_eq_false_2 (is_Some None)) by (by intros [??]).
      done.
  - rewrite (bool_decide_eq_false_2 (is_Some None)) by (by intros [??]).
    done.
Qed.

(** The loop returns at the first script that carries a pin. *)
Lemma scan_scripts_first before script after :
  (∀ s, s ∈ before → carries_pin s = false) →
  Pinterest.scan_scripts pin_id (before ++ script :: after) =
    match Pinterest.scan_script pin_id script with
    | Some info => Some info
    | None => Pinterest.scan_scripts pin_id after
    end.
Proof.
  induction before as [|s before IH]; intros Hbefore; [done|].
  cbn [app Pinterest.scan_scripts].
  rewrite (proj1 (scan_script_skips s)) by (apply Hbefore; left).
  apply IH. intros s' Hs'. apply Hbefore. by right.
Qed.

Lemma scan_scripts_none scripts :
  Pinterest.scan_scripts pin_id scripts = None ↔
  ∀ s, s ∈ scripts → carries_pin s = false.
Proof.
  induction scripts as [|s scripts IH]; cbn [Pinterest.scan_scripts].
  - split; [|done]. by intros _ s ?%elem_of_nil.
  - destruct (Pinterest.scan_script pin_id s) eqn:Hs.
    + split; [done|]. intros Hall.
      by rewrite (proj1 (scan_script_skips s)) in Hs by (apply Hall; left).
    + rewrite IH. split.
      * intros Hall s' [->|Hin]%elem_of_cons; [|by apply Hall].
        by apply scan_script_skips.
      * intros Hall s' Hin. apply Hall. by right.
Qed.
End ScanScripts.

Section PinterestFacts.
Context (E : env) (url : string) (w : world).
Context (page_url : string) (n : nat) (r : response) (m : Re.found)
  (content : string).
Hypothesis Hroute :
  (Str.contains "pin.it" url = false ∧ page_url = url ∧ n = sent w) ∨
  (Str.contains "pin.it" url = true ∧
   ∃ r0, net E (sent w) (VStr url) = Answered r0 ∧
         page_url = final_url r0 ∧ n = S (sent w)).
Hypothesis Hid : Re.search Pinterest.pin_id_re page_url = Some m.
Hypothesis Hpage : net E n (VStr page_url) = Answered r.
Hypothesis Hstatus : status r = 200%Z.
Hypothesis Htext : text r = Ret content.

(** The pin page is fetched: the resolver returns what the page gives. *)
Lemma pinterest_info_on_page :
  (Pinterest._get_pin_info E url w).1 =
    Ret (match Pinterest.scan_scripts (Re.group1 m)
                 (Re.findall Pinterest.script_re content) with
         | Some info => info
         | None =>
             match Re.search Pinterest.og_image_re content with
             | Some og =>
                 Pinterest.Pin (Re.group1 m) (Re.group1 og) false
                   "Pinterest Image"
             | None =>
                 Pinterest.NoPin "Could not find media data in Pinterest page"
             end
         end).
Proof.
  unfold Pinterest._get_pin_info, try_except.
  destruct Hroute as [(Hdirect & -> & ->)|(Hshort & r0 & Hr0 & -> & ->)].
  - rewrite Hdirect.
    unfold mbind, M_bind, bind, Base.session_get, lift, mret, M_ret, ret.
    cbn [files sent]. rewrite Hid. cbn [files sent].
    rewrite Hpage, Hstatus, Htext. cbn [negb Z.eqb Pos.eqb].
    destruct (Pinterest.scan_scripts _ _); [done|].
    by destruct (Re.search Pinterest.og_image_re content).
  - rewrite Hshort.
    unfold mbind, M_bind, bind, Base.session_get, lift, mret, M_ret, ret.
    cbn [files sent]. rewrite Hr0. cbn [files sent]. rewrite Hid.
    cbn [files sent]. rewrite Hpage, Hstatus, Htext. cbn [negb Z.eqb Pos.eqb].
    destruct (Pinterest.scan_scripts _ _); [done|].
    by destruct (Re.search Pinterest.og_image_re content).
Qed.
End PinterestFacts.

(** C6 (as amended).  Once the pin page is fetched, the resolver goes
    through the inline scripts in their order and answers from the first one
    that has a pin marker, a block in braces around ["images"] and a media
    URL, with that URL (its [\/] unescaped), video or photo by its extension,
    and the title of the script truncated, or [Pinterest Media]; with no
    such script it answers from the Open-Graph image tag, a photo entitled
    [Pinterest Image]; and it fails with the not-found message exactly when
    no script qualifies and the tag is missing. *)
Theorem pinterest_strategies_in_order (E : env) (url : string) (w : world)
    (page_url : string) (n : nat) (r : response) (m : Re.found)
    (content : string) :
  (Str.contains "pin.it" url = false ∧ page_url = url ∧ n = sent w) ∨
  (Str.contains "pin.it" url = true ∧
   ∃ r0, net E (sent w) (VStr url) = Answered r0 ∧
         page_url = final_url r0 ∧ n = S (sent w)) →
  Re.search Pinterest.pin_id_re page_url = Some m →
  net E n (VStr page_url) = Answered r →
  status r = 200%Z → text r = Ret content →
  let result := (Pinterest._get_pin_info E url w).1 in
  let scripts := Re.findall Pinterest.script_re content in
  let pin_id := Re.group1 m in
  (∀ before script after,
     scripts = before ++ script :: after →
     (∀ s, s ∈ before → carries_pin s = false) →
     carries_pin script = true →
     ∃ um, Re.search Pinterest.media_url_re script = Some um ∧
           result = Ret (script_pin pin_id script um)) ∧
  ((∀ s, s ∈ scripts → carries_pin s = false) →
   ∀ og, Re.search Pinterest.og_image_re content = Some og →
     result = Ret (Pinterest.Pin pin_id (Re.group1 og) false "Pinterest Image")) ∧
  (result = Ret (Pinterest.NoPin "Could not find media data in Pinterest page")
   ↔ (∀ s, s ∈ scripts → carries_pin s = false) ∧
     Re.search Pinterest.og_image_re content = None).
Proof.
  intros Hroute Hid Hpage Hstatus Htext result scripts pin_id.
  pose proof (pinterest_info_on_page E url w page_url n r m content
                Hroute Hid Hpage Hstatus Htext) as Hrun.
  fold result scripts pin_id in Hrun. rewrite Hrun. split; [|split].
  - intros before script after -> Hbefore Hscript.
    destruct (scan_script_carries pin_id script Hscript) as (um & Hum & Hscan).
    exists um. split; [done|].
    by rewrite (scan_scripts_first pin_id _ _ _ Hbefore), Hscan.
  - intros Hnone og Hog.
    by rewrite (proj2 (scan_scripts_none pin_id scripts) Hnone), Hog.
  - split.
    + destruct (Pinterest.scan_scripts pin_id scripts) as [info|] eqn:Hscan.
      * apply scan_scripts_pin in Hscan as (? & ? & ? & ->). by intros [=].
      * pose proof (proj1 (scan_scripts_none pin_id scripts) Hscan) as Hnone.
        by destruct (Re.search Pinterest.og_image_re content).
    + intros [Hnone Hog].
      by rewrite (proj2 (scan_scripts_none pin_id scripts) Hnone), Hog.
Qed.

(** C6, as the claim words it, fails.  On this page the only script has the
    pin marker and a media URL that ends in [.jpg], so that the first
    strategy of the claim yields a URL, and the resolver fails with the
    not-found message: the script has no ["images"] block.  And the
    Open-Graph fallback gives the photo a title. *)
Lemma pinterest_marker_and_url_not_enough :
  Re.findall Pinterest.script_re
    ("<html>" +:+ Fixture.script_tag Fixture.bare_script +:+ "</html>")
  = [Fixture.bare_script] ∧
  spec_script_url Fixture.bare_script = Some "https://i.pinimg.com/a.jpg" ∧
  (Pinterest._get_pin_info
     (Fixture.pinterest (Fixture.script_tag Fixture.bare_script))
     Fixture.pin_url Fixture.start).1
  = Ret (Pinterest.NoPin "Could not find media data in Pinterest page") ∧
  (Pinterest._get_pin_info (Fixture.pinterest Fixture.og_tag)
     Fixture.pin_url Fixture.start).1
  = Ret (Pinterest.Pin "42" "https://i.pinimg.com/og.jpg" false
           "Pinterest Image").
Proof. repeat split; by vm_compute. Qed.

(** A witness of the amended C6: of two scripts the first has no ["images"]
    block, the second carries the pin, and an Open-Graph tag follows; the
    answer comes from the second script. *)
Lemma pinterest_strategies_in_order_witness :
  (Pinterest._get_pin_info
     (Fixture.pinterest (Fixture.script_tag Fixture.bare_script
                           +:+ Fixture.script_tag Fixture.full_script
                           +:+ Fixture.og_tag))
     Fixture.pin_url Fixture.start).1
  = Ret (Pinterest.Pin "42" "https://i.pinimg.com/a.mp4" true
           (Str.take 100 Fixture.long_caption +:+ "...")).
Proof.
  set (body := Fixture.script_tag Fixture.bare_script
                 +:+ Fixture.script_tag Fixture.full_script +:+ Fixture.og_tag).
  destruct (pinterest_strategies_in_order (Fixture.pinterest body)
              Fixture.pin_url Fixture.start Fixture.pin_url 0
              {| status := 200; final_url := Fixture.pin_url;
                 text := Ret ("<html>" +:+ body +:+ "</html>");
                 chunks := []; broken := None |}
              (Some "42", "/") ("<html>" +:+ body +:+ "</html>"))
    as [Hfirst _]; [by left|by vm_compute|by vm_compute|done|done|].
  destruct (Hfirst [Fixture.bare_script] Fixture.full_script [])
    as (um & Hum & Hres).
  - by vm_compute.
  - intros s ->%list_elem_of_singleton. by vm_compute.
  - by vm_compute.
  - rewrite Hres. vm_compute in Hum. injection Hum as <-. by vm_compute.
Defined.

(** ** Titles *)

Lemma truncate_spec (s : string) :
  (100 < Str.len s →
   Pinterest.truncate s = Str.take 100 s +:+ "..." ∧
   Str.len (Str.take 100 s) = 100 ∧
   s = Str.take 100 s +:+ Str.drop 100 s) ∧
  (Str.len s ≤ 100 → Pinterest.truncate s = s).
Proof.
  unfold Pinterest.truncate. split; intros Hlen.
  - rewrite (proj2 (Nat.ltb_lt _ _) Hlen). split; [done|].
    split; [apply take_len; lia | by rewrite take_drop].
  - by rewrite (proj2 (Nat.ltb_ge _ _) Hlen).
Qed.

Lemma scan_script_title pin_id script info :
  Pinterest.scan_script pin_id script = Some info →
  ∃ media_url is_video,
    info = Pinterest.Pin pin_id media_url is_video
             (Pinterest.truncate (raw_title script)).
Proof.
  unfold Pinterest.scan_script, raw_title.
  destruct (Str.contains_any _ _); [|done].
  destruct (Re.search Pinterest.images_re script); [|done].
  destruct (Re.search Pinterest.media_url_re script); [|done].
  intros [= <-]. by do 2 eexists.
Qed.

Lemma scan_scripts_title pin_id scripts info :
  Pinterest.scan_scripts pin_id scripts = Some info →
  ∃ script media_url is_video,
    script ∈ scripts ∧
    info = Pinterest.Pin pin_id media_url is_video
             (Pinterest.truncate (raw_title script)).
Proof.
  induction scripts as [|s scripts IH]; [done|]. cbn [Pinterest.scan_scripts].
  destruct (Pinterest.scan_script pin_id s) as [i|] eqn:Hs.
  - intros [= ->]. apply scan_script_title in Hs as (u & v & ->).
    exists s, u, v. split; [by left | done].
  - intros (script & u & v & Hin & ->)%IH.
    exists script, u, v. split; [by right | done].
Qed.

Section Caption.
Context (E : env) (blob shortcode : string).
Context (data media media_url edge : value) (rest : list value)
  (caption : string).
Abbreviation is_video := (default (VBool false) (member media "is_video")).
Hypothesis Hjson : json_loads E blob = Ret data.
Hypothesis Hmedia :
  member data "graphql" ≫= (λ g, member g "shortcode_media") = Some media.
Hypothesis Htruthy : truthy media = true.
Hypothesis Hurl :
  member media (if truthy is_video then "video_url" else "display_url")
  = Some media_url.
Hypothesis Hurl_truthy : truthy media_url = true.
Hypothesis Hedges :
  member media "edge_media_to_caption" ≫= (λ c, member c "edges")
  = Some (VList (edge :: rest)).
Hypothesis Htext :
  member edge "node" ≫= (λ node, member node "text") = Some (VStr caption).

(** The caption of a post that has one is the text of its first caption
    edge, truncated. *)
Lemma read_media_caption :
  Instagram.read_media E blob shortcode =
    Ret (Instagram.Media shortcode media_url is_video
           (VStr (Pinterest.truncate caption))).
Proof.
  destruct (member data "graphql") as [graphql|] eqn:Hgraphql; [|done].
  destruct (member media "edge_media_to_caption") as [to_caption|] eqn:Hcap;
    [|done].
  destruct (member edge "node") as [node|] eqn:Hnode; [|done].
  cbn [mbind option_bind] in Hmedia, Hedges, Htext.
  assert (Hobj : is_object media) by by eapply member_is_object.
  unfold Instagram.read_media. rewrite Hjson. cbn [mbind res_bind].
  rewrite py_get_object by by eapply member_is_object.
  rewrite Hgraphql. cbn [default from_option id mbind res_bind].
  rewrite py_get_object by by eapply member_is_object.
  rewrite Hmedia. cbn [default from_option id mbind res_bind].
  rewrite Htruthy. cbn [negb].
  rewrite (py_get_object media "is_video") by done.
  cbn [mbind res_bind].
  assert (Hget : (if truthy is_video
                  then py_get media "video_url" VNone
                  else py_get media "display_url" VNone) = Ret media_url).
  { destruct (truthy is_video); rewrite py_get_object by done;
      by rewrite Hurl. }
  rewrite Hget. cbn [mbind res_bind]. rewrite Hurl_truthy. cbn [negb].
  rewrite (py_get_object media "edge_media_to_caption") by done.
  rewrite Hcap. cbn [default from_option id mbind res_bind].
  rewrite py_get_object by by eapply member_is_object.
  rewrite Hedges. cbn [default from_option id mbind res_bind truthy].
  rewrite bool_decide_eq_false_2 by done.
  cbn [negb py_first mbind res_bind].
  rewrite py_get_object by by eapply member_is_object.
  rewrite Hnode. cbn [default from_option id mbind res_bind].
  rewrite py_get_object by by eapply member_is_object.
  rewrite Htext. done.
Qed.
End Caption.

Lemma settle_success_title E platform r w1 d :
  (settle E platform (r, w1)).1 = Ret d →
  d !! "success" = Some (VBool true) →
  ∃ p, r = Ret (inr p) ∧ d !! "title" = Some (plan_title p).
Proof.
  unfold settle. destruct r as [[error|p]|e].
  - by intros [= <-].
  - cbv zeta. destruct (transfer _) as [e|content].
    + destruct (except_exception _); [by intros [= <-]|done].
    + destruct (_ <? _)%Z; [by intros [= <-]|].
      intros [= <-] _. by exists p.
  - destruct (except_exception _); [by intros [= <-]|done].
Qed.

(** C8.  A caption or title of more than 100 characters is cut to its first
    100 characters, followed by three dots, and one of at most 100 characters
    is kept as it is.  The Instagram resolver, on an embed page whose loader
    blob decodes to a post with a caption edge, returns the text of the first
    edge so truncated; the Pinterest resolver, on a pin page, returns the
    title of the first script that carries the pin (or [Pinterest Media]) so
    truncated; and once the file is stored and within its ceiling, that
    caption or title is the title of the envelope that [download] returns,
    which has no other source. *)
Theorem titles_are_truncated (E : env) :
  (∀ s,
     (100 < Str.len s →
      Pinterest.truncate s = Str.take 100 s +:+ "..." ∧
      Str.len (Str.take 100 s) = 100 ∧
      s = Str.take 100 s +:+ Str.drop 100 s) ∧
     (Str.len s ≤ 100 → Pinterest.truncate s = s)) ∧
  (∀ url w r m content lm data media media_url edge rest caption,
     match Re.search Instagram.post_re url with
     | Some m => Some m
     | None => Re.search Instagram.reel_re url
     end = Some m →
     net E (sent w)
       (VStr ("https://www.instagram.com/p/" +:+ Re.group1 m +:+ "/embed/"))
     = Answered r →
     status r = 200%Z → text r = Ret content →
     Re.search Instagram.loader_re content = Some lm →
     json_loads E (Re.group1 lm) = Ret data →
     member data "graphql" ≫= (λ g, member g "shortcode_media") = Some media →
     truthy media = true →
     let is_video := default (VBool false) (member media "is_video") in
     member media (if truthy is_video then "video_url" else "display_url")
       = Some media_url →
     truthy media_url = true →
     member media "edge_media_to_caption" ≫= (λ c, member c "edges")
       = Some (VList (edge :: rest)) →
     member edge "node" ≫= (λ node, member node "text") = Some (VStr caption) →
     (Instagram._get_media_info E url w).1
       = Ret (Instagram.Media (Re.group1 m) media_url is_video
                (VStr (Pinterest.truncate caption)))) ∧
  (∀ url w page_url n r m content before script after,
     (Str.contains "pin.it" url = false ∧ page_url = url ∧ n = sent w) ∨
     (Str.contains "pin.it" url = true ∧
      ∃ r0, net E (sent w) (VStr url) = Answered r0 ∧
            page_url = final_url r0 ∧ n = S (sent w)) →
     Re.search Pinterest.pin_id_re page_url = Some m →
     net E n (VStr page_url) = Answered r →
     status r = 200%Z → text r = Ret content →
     Re.findall Pinterest.script_re content = before ++ script :: after →
     (∀ s, s ∈ before → carries_pin s = false) →
     carries_pin script = true →
     ∃ media_url is_video,
       (Pinterest._get_pin_info E url w).1
         = Ret (Pinterest.Pin (Re.group1 m) media_url is_video
                  (Pinterest.truncate
                     match Re.search Pinterest.title_re script with
                     | Some title_match => Re.group1 title_match
                     | None => "Pinterest Media"
                     end))) ∧
  (∀ url w w1 media_id media_url is_video caption p content,
     Instagram._get_media_info E url w
       = (Ret (Instagram.Media media_id media_url is_video caption), w1) →
     instagram_plan E (Instagram.Media media_id media_url is_video caption)
       = inr p →
     transfer E (target E p) (net E (sent w1) media_url) = inr content →
     (Z.of_nat (Str.len content) ≤ plan_limit p)%Z →
     (Instagram.download E url w).1
       = Ret (downloaded (target E p) (plan_type p) caption)) ∧
  (∀ url w w1 pin_id media_url is_video title p content,
     Pinterest._get_pin_info E url w
       = (Ret (Pinterest.Pin pin_id media_url is_video title), w1) →
     pinterest_plan E (Pinterest.Pin pin_id media_url is_video title)
       = inr p →
     transfer E (target E p) (net E (sent w1) (VStr media_url)) = inr content →
     (Z.of_nat (Str.len content) ≤ plan_limit p)%Z →
     (Pinterest.download E url w).1
       = Ret (downloaded (target E p) (plan_type p) (VStr title))) ∧
  (∀ url w d,
     (Instagram.download E url w).1 = Ret d →
     d !! "success" = Some (VBool true) →
     ∃ media_id media_url is_video caption,
       (Instagram._get_media_info E url w).1
         = Ret (Instagram.Media media_id media_url is_video caption) ∧
       d !! "title" = Some caption) ∧
  (∀ url w d,
     (Pinterest.download E url w).1 = Ret d →
     d !! "success" = Some (VBool true) →
     ∃ pin_id media_url is_video title,
       (Pinterest._get_pin_info E url w).1
         = Ret (Pinterest.Pin pin_id media_url is_video title) ∧
       d !! "title" = Some (VStr title)).
Proof.
  split; [apply truncate_spec|]. split; [|split; [|split; [|split; [|split]]]].
  - intros url w r m content lm data media media_url edge rest caption
      Hcode Hpage Hstatus Htext Hloader Hjson Hmedia Htruthy is_video
      Hurl Hurl_truthy Hedges Hcaption.
    rewrite (instagram_info_on_page E url w r m content
               Hcode Hpage Hstatus Htext), Hloader.
    by rewrite (read_media_caption E (Re.group1 lm) (Re.group1 m) data media
                  media_url edge rest caption).
  - intros url w page_url n r m content before script after
      Hroute Hid Hpage Hstatus Htext Hscripts Hbefore Hcarries.
    rewrite (pinterest_info_on_page E url w page_url n r m content
               Hroute Hid Hpage Hstatus Htext).
    rewrite Hscripts, scan_scripts_first by done.
    destruct (scan_script_carries (Re.group1 m) script Hcarries)
      as (um & _ & ->).
    unfold script_pin, raw_title. by do 2 eexists.
  - intros url w w1 id u v c p content Hinfo Hp Ht Hsize.
    rewrite instagram_download_run, Hinfo. unfold planned.
    cbn [fst snd]. rewrite Hp.
    assert (Hq : plan_url p = u ∧ plan_title p = c)
      by (cbn [instagram_plan] in Hp; by destruct (truthy v); simplify_eq).
    destruct Hq as [Hu Hc]. rewrite <- Hu in Ht.
    destruct (settle_at_ceiling E "Instagram" p w1 content Ht) as [Hacc _].
    destruct (proj2 Hacc Hsize) as [Hout _]. by rewrite Hout, Hc.
  - intros url w w1 id u v t p content Hinfo Hp Ht Hsize.
    rewrite pinterest_download_run, Hinfo. unfold planned.
    cbn [fst snd]. rewrite Hp.
    assert (Hq : plan_url p = VStr u ∧ plan_title p = VStr t)
      by (cbn [pinterest_plan] in Hp; by destruct v; simplify_eq).
    destruct Hq as [Hu Hc]. rewrite <- Hu in Ht.
    destruct (settle_at_ceiling E "Pinterest" p w1 content Ht) as [Hacc _].
    destruct (proj2 Hacc Hsize) as [Hout _]. by rewrite Hout, Hc.
  - intros url w d Hd Hs. rewrite instagram_download_run, planned_split in Hd.
    apply settle_success_title in Hd as (p & Hp & Ht); [|done].
    unfold planned in Hp. cbn [fst] in Hp.
    destruct (Instagram._get_media_info E url w).1 as [[|id u v c]|]; try done.
    exists id, u, v, c. split; [done|].
    cbn [instagram_plan] in Hp. by destruct (truthy v); simplify_eq.
  - intros url w d Hd Hs. rewrite pinterest_download_run, planned_split in Hd.
    apply settle_success_title in Hd as (p & Hp & Ht); [|done].
    unfold planned in Hp. cbn [fst] in Hp.
    destruct (Pinterest._get_pin_info E url w).1 as [[|id u v c]|]; try done.
    exists id, u, v, c. split; [done|].
    cbn [pinterest_plan] in Hp. by destruct v; simplify_eq.
Qed.

(** A witness of C8: the caption of 115 characters of the fixture post and
    the title of 115 characters of the fixture pin come out of the resolvers
    as their first 100 characters and three dots, and are the titles of the
    envelopes of the two downloads. *)
Lemma titles_are_truncated_witness :
  let cut := Str.take 100 Fixture.long_caption +:+ "..." in
  100 < Str.len Fixture.long_caption ∧
  (Instagram._get_media_info Fixture.instagram_post Fixture.instagram_url
     Fixture.start).1
    = Ret (Instagram.Media "Cabc_1" (VStr Fixture.photo_url) (VBool false)
             (VStr cut)) ∧
  (Instagram.download Fixture.instagram_post Fixture.instagram_url
     Fixture.start).1
    = Ret (downloaded "downloads/instagram_Cabc_1.jpg" "photo" (VStr cut)) ∧
  (Pinterest._get_pin_info fixture_pin Fixture.pin_url Fixture.start).1
    = Ret (Pinterest.Pin "42" "https://i.pinimg.com/a.mp4" true cut) ∧
  (Pinterest.download fixture_pin Fixture.pin_url Fixture.start).1
    = Ret (downloaded "downloads/pinterest_42.mp4" "video" (VStr cut)).
Proof.
  intros cut.
  destruct (titles_are_truncated Fixture.instagram_post)
    as (Hcut & Hcaption & _ & Hpost & _).
  destruct (titles_are_truncated fixture_pin)
    as (_ & _ & Htitle & _ & Hpin & _).
  assert (Hlen : 100 < Str.len Fixture.long_caption) by (vm_compute; lia).
  destruct (Hcut Fixture.long_caption) as [Hlong _].
  destruct (Hlong Hlen) as [Htrunc _]. fold cut in Htrunc.
  split; [exact Hlen|]. rewrite <- Htrunc.
  split; [|split; [|split]].
  - set (media :=
           VDict [("display_url", VStr Fixture.photo_url);
                  ("edge_media_to_caption",
                   VDict [("edges",
                     VList [VDict [("node",
                       VDict [("text", VStr Fixture.long_caption)])]])])]).
    apply (Hcaption Fixture.instagram_url Fixture.start
             {| status := 200; final_url := Fixture.instagram_url;
                text := Ret (Fixture.loader_page Fixture.post_blob);
                chunks := []; broken := None |}
             (Some "Cabc_1", "/")
             (Fixture.loader_page Fixture.post_blob)
             (Some Fixture.post_blob, "</script>")
             (VDict [("graphql", VDict [("shortcode_media", media)])])
             media (VStr Fixture.photo_url)
             (VDict [("node", VDict [("text", VStr Fixture.long_caption)])])
             [] Fixture.long_caption);
      by vm_compute.
  - apply (Hpost Fixture.instagram_url Fixture.start (World ∅ 1)
             "Cabc_1" (VStr Fixture.photo_url) (VBool false)
             (VStr (Pinterest.truncate Fixture.long_caption))
             (Plan (VStr Fixture.photo_url) "instagram_Cabc_1.jpg" 4 "photo"
                (VStr (Pinterest.truncate Fixture.long_caption)))
             "jpg");
      by vm_compute.
  - destruct (Htitle Fixture.pin_url Fixture.start Fixture.pin_url 0
                {| status := 200; final_url := Fixture.pin_url;
                   text := Ret ("<html>"
                                  +:+ Fixture.script_tag Fixture.full_script
                                  +:+ "</html>");
                   chunks := []; broken := None |}
                (Some "42", "/")
                ("<html>" +:+ Fixture.script_tag Fixture.full_script
                   +:+ "</html>")
                [] Fixture.full_script [])
      as (media_url & is_video & Hinfo);
      [left; by vm_compute | by vm_compute | by vm_compute | by vm_compute
      | by vm_compute | by vm_compute | by intros s ?%elem_of_nil
      | by vm_compute | ].
    assert (Hrun : (Pinterest._get_pin_info fixture_pin Fixture.pin_url
                      Fixture.start).1
                   = Ret (Pinterest.Pin "42" "https://i.pinimg.com/a.mp4"
                            true (Pinterest.truncate Fixture.long_caption)))
      by (by vm_compute).
    rewrite Hinfo in Hrun.
    assert (Hu : media_url = "https://i.pinimg.com/a.mp4")
      by exact (f_equal (λ r, match r with
                              | Ret (Pinterest.Pin _ u _ _) => u
                              | _ => ""
                              end) Hrun).
    assert (Hv : is_video = true)
      by exact (f_equal (λ r, match r with
                              | Ret (Pinterest.Pin _ _ v _) => v
                              | _ => false
                              end) Hrun).
    rewrite Hinfo, Hu, Hv. by vm_compute.
  - apply (Hpin Fixture.pin_url Fixture.start (World ∅ 1)
             "42" "https://i.pinimg.com/a.mp4" true
             (Pinterest.truncate Fixture.long_caption)
             (Plan (VStr "https://i.pinimg.com/a.mp4") "pinterest_42.mp4" 8
                "video" (VStr (Pinterest.truncate Fixture.long_caption)))
             "abcd");
      by vm_compute.
Defined.

(** * Further properties *)

(** ** Regular expressions: a marker followed by a run *)

Section Runs.
Context (p : ascii → bool).
Implicit Types (s : string).

Lemma run_split s : run_of p s +:+ after_run p s = s.
Proof.
  induction s as [|c s IH]; [done|]. cbn [run_of after_run].
  destruct (p c); [|done]. simpl. by rewrite IH.
Qed.

Lemma run_all s : all_chars p (run_of p s) = true.
Proof.
  induction s as [|c s IH]; [done|]. cbn [run_of].
  destruct (p c) eqn:Hc; [|done]. cbn [all_chars]. by rewrite Hc, IH.
Qed.

Lemma after_run_stops s : starts_in p (after_run p s) = false.
Proof.
  induction s as [|c s IH]; [done|]. cbn [after_run].
  destruct (p c) eqn:Hc; [done|]. simpl. done.
Qed.

Lemma run_nonempty s : starts_in p s = true → run_of p s ≠ "".
Proof. destruct s as [|c s]; [done|]. simpl. by intros ->. Qed.

Lemma run_len s : Str.len s - Str.len (after_run p s) = Str.len (run_of p s).
Proof.
  rewrite <- (run_split s) at 1. rewrite len_app. lia.
Qed.

Lemma take_run s : Str.take (Str.len (run_of p s)) s = run_of p s.
Proof.
  induction s as [|c s IH]; [done|]. cbn [run_of].
  destruct (p c); [|done]. simpl. by rewrite IH.
Qed.

(** A greedy repetition whose continuation accepts everything stops at the
    end of the run. *)
Lemma many_greedy_run {R} least s (k : string → option R) :
  (∀ s', k s' ≠ None) →
  Re.many_greedy p least s k =
    if least <=? Str.len (run_of p s) then k (after_run p s) else None.
Proof.
  intros Hk. revert least. induction s as [|c s IH]; intros least.
  - simpl. by destruct least.
  - cbn [Re.many_greedy run_of after_run]. destruct (p c).
    + rewrite IH. unfold Str.len. cbn [String.length].
      destruct (Nat.leb_spec (pred least) (String.length (run_of p s)))
        as [Hle|Hlt].
      * rewrite (leb_correct least) by lia.
        destruct (k (after_run p s)) eqn:Hks; [done|]. by destruct (Hk _ Hks).
      * rewrite (leb_correct_conv _ least) by lia.
        destruct least; [lia|done].
    + simpl. by destruct least.
Qed.
End Runs.

Section Marker.
Context (marker : string) (p : ascii → bool).
Implicit Types (s : string).

Abbreviation marker_re := (Re.seq [Re.Lit marker; Re.Group (Re.plus p)]).

Lemma marker_match_here s :
  Re.match_here marker_re s =
    match Str.strip_prefix marker s with
    | Some rest =>
        if starts_in p rest then Some (Some (run_of p rest), after_run p rest)
        else None
    | None => None
    end.
Proof.
  unfold Re.match_here. cbn [Re.seq Re.run Re.plus].
  destruct (Str.strip_prefix marker s) as [rest|]; [|done].
  rewrite many_greedy_run by done. rewrite run_len, take_run.
  destruct rest as [|c rest]; [done|]. cbn [starts_in run_of].
  by destruct (p c).
Qed.

(** What [re.search] finds for such a pattern. *)
Lemma marker_search s :
  Re.group1 <$> Re.search marker_re s = id_after marker p s.
Proof.
  induction s as [|c s IH]; cbn [Re.search id_after];
    rewrite marker_match_here;
    destruct (Str.strip_prefix marker _) as [rest|]; try done;
    destruct (starts_in p rest); done.
Qed.

(** The same pattern without the group matches at the same places. *)
Lemma marker_search_plain s :
  bool_decide (is_Some (Re.search (Re.seq [Re.Lit marker; Re.plus p]) s))
  = bool_decide (is_Some (id_after marker p s)).
Proof.
  induction s as [|c s IH]; cbn [Re.search id_after];
    unfold Re.match_here; cbn [Re.seq Re.run Re.plus];
    destruct (Str.strip_prefix marker _) as [rest|]; try done;
    rewrite many_greedy_run by done;
    (destruct rest as [|a rest]; [done|]); cbn [starts_in run_of];
    destruct (p a); done.
Qed.

Lemma id_after_sound s id :
  id_after marker p s = Some id →
  id ≠ "" ∧ all_chars p id = true ∧
  ∃ pre rest, s = pre +:+ marker +:+ id +:+ rest ∧ starts_in p rest = false.
Proof.
  induction s as [|c s IH]; cbn [id_after].
  - destruct (Str.strip_prefix marker "") as [rest|] eqn:Hm; [|done].
    destruct (starts_in p rest) eqn:Hs; [|done]. intros [= <-].
    split; [by apply run_nonempty|]. split; [apply run_all|].
    exists "", (after_run p rest). split; [|apply after_run_stops].
    apply strip_prefix_app in Hm. by rewrite run_split.
  - assert (Hrec : id_after marker p s = Some id →
             id ≠ "" ∧ all_chars p id = true ∧
             ∃ pre rest, String c s = pre +:+ marker +:+ id +:+ rest
                         ∧ starts_in p rest = false).
    { intros (Hne & Hall & pre & rest & -> & Hrest)%IH.
      split; [done|]. split; [done|]. by exists (String c pre), rest. }
    destruct (Str.strip_prefix marker (String c s)) as [rest|] eqn:Hm; [|done].
    destruct (starts_in p rest) eqn:Hs; [|done]. intros [= <-].
    split; [by apply run_nonempty|]. split; [apply run_all|].
    exists "", (after_run p rest). split; [|apply after_run_stops].
    apply strip_prefix_app in Hm. by rewrite run_split.
Qed.

Lemma id_after_none s :
  id_after marker p s = None ↔
  ∀ pre rest, s = pre +:+ marker +:+ rest → starts_in p rest = false.
Proof.
  induction s as [|c s IH]; cbn [id_after].
  - split.
    + intros Hnone pre rest Hs. destruct pre; [|done]. simpl in Hs.
      rewrite Hs, strip_prefix_of_app in Hnone.
      by destruct (starts_in p rest).
    + intros Hall. destruct (Str.strip_prefix marker "") as [rest|] eqn:Hm; [|done].
      apply strip_prefix_app in Hm. by rewrite (Hall "" rest Hm).
  - split.
    + intros Hnone pre rest Hs. destruct pre as [|a pre].
      * simpl in Hs. rewrite Hs, strip_prefix_of_app in Hnone.
        by destruct (starts_in p rest).
      * injection Hs as -> Hs. apply (proj1 IH) with pre; [|done].
        destruct (Str.strip_prefix marker _) as [r|]; [|done].
        by destruct (starts_in p r).
    + intros Hall.
      assert (Hrec : id_after marker p s = None).
      { apply IH. intros pre rest ->. by apply (Hall (String c pre) rest). }
      destruct (Str.strip_prefix marker (String c s)) as [rest|] eqn:Hm; [|done].
      apply strip_prefix_app in Hm. by rewrite (Hall "" rest Hm).
Qed.
End Marker.

(** ** url_parser.py: the extractors *)

Section ContainsFacts.
Implicit Types (l s : string).

Lemma contains_iff l s :
  Str.contains l s = true ↔ ∃ pre post, s = pre +:+ l +:+ post.
Proof.
  split.
  - induction s as [|c s IH]; cbn [Str.contains].
    + destruct (Str.startswith "" l) eqn:Hs; [|done].
      apply startswith_app in Hs as [r ->]. by exists "", r.
    + destruct (Str.startswith (String c s) l) eqn:Hs.
      * apply startswith_app in Hs as [r ->]. by exists "", r.
      * intros (pre & post & ->)%IH. by exists (String c pre), post.
  - intros (pre & post & ->). induction pre as [|c pre IH].
    + cbn [String.append].
      destruct (l +:+ post) eqn:Hl; cbn [Str.contains]; rewrite <- Hl;
        unfold Str.startswith; by rewrite strip_prefix_of_app.
    + cbn [String.append Str.contains]. rewrite IH.
      by destruct (Str.startswith _ l).
Qed.

Lemma contains_suffix_of l1 l2 s :
  Str.contains (l1 +:+ l2) s = true → Str.contains l2 s = true.
Proof.
  intros (pre & post & ->)%contains_iff. apply contains_iff.
  exists (pre +:+ l1), post. by rewrite !app_assoc_str.
Qed.

Lemma contains_prefix_of l1 l2 s :
  Str.contains (l1 +:+ l2) s = true → Str.contains l1 s = true.
Proof.
  intros (pre & post & ->)%contains_iff. apply contains_iff.
  exists pre, (l2 +:+ post). by rewrite !app_assoc_str.
Qed.

(** [re.search] of a literal pattern is the substring test. *)
Lemma search_lit l s :
  bool_decide (is_Some (Re.search (Re.Lit l) s)) = Str.contains l s.
Proof.
  induction s as [|c s IH]; cbn [Re.search Str.contains];
    unfold Re.match_here, Str.startswith; cbn [Re.run];
    destruct (Str.strip_prefix l _); try done.
Qed.

Lemma search_suffix r s m :
  Re.search r s = Some m → ∃ pre suf, s = pre +:+ suf ∧ Re.match_here r suf = Some m.
Proof.
  induction s as [|c s IH]; cbn [Re.search].
  - destruct (Re.match_here r "") eqn:Hm; [|done]. intros [= <-].
    by exists "", "".
  - destruct (Re.match_here r (String c s)) eqn:Hm.
    + intros [= <-]. by exists "", (String c s).
    + intros (pre & suf & -> & Hsuf)%IH. by exists (String c pre), suf.
Qed.

Lemma lower_char_idemp c : Str.lower_char (Str.lower_char c) = Str.lower_char c.
Proof. by destruct c as [[] [] [] [] [] [] [] []]. Qed.

Lemma lower_idemp s : Str.lower (Str.lower s) = Str.lower s.
Proof.
  induction s as [|c s IH]; [done|]. cbn [Str.lower].
  by rewrite lower_char_idemp, IH.
Qed.

Lemma before_absent c s : has_char c s = false → before c s = s.
Proof.
  induction s as [|a s IH]; [done|]. cbn [has_char]. rewrite before_cons.
  intros [-> Hs]%orb_false_elim. by rewrite IH.
Qed.
End ContainsFacts.

(** X1.  [normalize_url] is idempotent: a normalised URL is left as it is. *)
Theorem normalize_url_idempotent (url : string) :
  URLParser.normalize_url (URLParser.normalize_url url)
  = URLParser.normalize_url url.
Proof.
  assert (Hshape : ∃ r, URLParser.normalize_url url = "https://" +:+ r
                        ∧ has_char "?" r = false ∧ has_char "#" r = false).
  { rewrite normalize_url_eq. cbv zeta.
    set (core := before "#" (before "?" url)).
    assert (Hq : has_char "?" core = false).
    { apply before_keeps_absent, before_no_sep. }
    assert (Hh : has_char "#" core = false) by apply before_no_sep.
    destruct (Str.strip_prefix "http://" core) as [r|] eqn:Hp.
    - apply strip_prefix_app in Hp. rewrite Hp in Hq, Hh.
      rewrite has_char_app in Hq, Hh.
      apply orb_false_elim in Hq as [_ Hq]. apply orb_false_elim in Hh as [_ Hh].
      by exists r.
    - destruct (Str.startswith core "https://") eqn:Hs.
      + apply startswith_app in Hs as [r Hr]. rewrite Hr in Hq, Hh.
        rewrite has_char_app in Hq, Hh.
        apply orb_false_elim in Hq as [_ Hq]. apply orb_false_elim in Hh as [_ Hh].
        by exists r.
      + by exists core. }
  destruct Hshape as (r & Hr & Hq & Hh). rewrite Hr.
  rewrite normalize_url_eq. cbv zeta.
  rewrite (before_absent "?") by (by rewrite has_char_app, Hq).
  rewrite (before_absent "#") by (by rewrite has_char_app, Hh).
  done.
Qed.

(** X2.  The TikTok video id of a URL is the run of digits behind the first
    [/video/] that has a digit behind it: it is not empty, it is made of
    digits, no digit follows it, and there is none exactly when no
    [/video/] of the URL has a digit behind it. *)
Theorem tiktok_video_id_is_digit_run (url : string) :
  URLParser.extract_tiktok_video_id url = id_after "/video/" Re.digit url ∧
  (∀ id, URLParser.extract_tiktok_video_id url = Some id →
         id ≠ "" ∧ all_chars Re.digit id = true ∧
         ∃ pre rest, url = pre +:+ "/video/" +:+ id +:+ rest
                     ∧ starts_in Re.digit rest = false) ∧
  (URLParser.extract_tiktok_video_id url = None ↔
     ∀ pre rest, url = pre +:+ "/video/" +:+ rest →
                 starts_in Re.digit rest = false).
Proof.
  assert (Heq : URLParser.extract_tiktok_video_id url
                = id_after "/video/" Re.digit url).
  { rewrite <- marker_search. unfold URLParser.extract_tiktok_video_id.
    by destruct (Re.search _ url). }
  rewrite Heq. split; [done|]. split.
  - intros id. apply id_after_sound.
  - apply id_after_none.
Qed.

(** X3.  The same for the Pinterest pin id and [/pin/]. *)
Theorem pinterest_pin_id_is_digit_run (url : string) :
  URLParser.extract_pinterest_pin_id url = id_after "/pin/" Re.digit url ∧
  (∀ id, URLParser.extract_pinterest_pin_id url = Some id →
         id ≠ "" ∧ all_chars Re.digit id = true ∧
         ∃ pre rest, url = pre +:+ "/pin/" +:+ id +:+ rest
                     ∧ starts_in Re.digit rest = false) ∧
  (URLParser.extract_pinterest_pin_id url = None ↔
     ∀ pre rest, url = pre +:+ "/pin/" +:+ rest →
                 starts_in Re.digit rest = false).
Proof.
  assert (Heq : URLParser.extract_pinterest_pin_id url
                = id_after "/pin/" Re.digit url).
  { rewrite <- marker_search. unfold URLParser.extract_pinterest_pin_id.
    by destruct (Re.search _ url). }
  rewrite Heq. split; [done|]. split.
  - intros id. apply id_after_sound.
  - apply id_after_none.
Qed.

(** X4.  The Instagram shortcode is chosen by the order of the patterns,
    not by the position in the URL: the code behind [/p/] when there is one,
    else the code behind [/reel/], else the code behind [/tv/].  A code is a
    non-empty run of letters, digits, [_] and [-] that ends where such
    characters end; there is none exactly when none of the three markers
    has such a character behind it. *)
Theorem instagram_shortcode_by_pattern_order (url : string) :
  URLParser.extract_instagram_shortcode url =
    match id_after "/p/" Re.code_char url with
    | Some code => Some code
    | None =>
        match id_after "/reel/" Re.code_char url with
        | Some code => Some code
        | None => id_after "/tv/" Re.code_char url
        end
    end ∧
  (∀ code, URLParser.extract_instagram_shortcode url = Some code →
           code ≠ "" ∧ all_chars Re.code_char code = true ∧
           ∃ marker pre rest,
             marker ∈ ["/p/"; "/reel/"; "/tv/"] ∧
             url = pre +:+ marker +:+ code +:+ rest ∧
             starts_in Re.code_char rest = false) ∧
  (URLParser.extract_instagram_shortcode url = None ↔
     ∀ marker pre rest,
       marker ∈ ["/p/"; "/reel/"; "/tv/"] →
       url = pre +:+ marker +:+ rest → starts_in Re.code_char rest = false).
Proof.
  assert (Heq : URLParser.extract_instagram_shortcode url =
    match id_after "/p/" Re.code_char url with
    | Some code => Some code
    | None =>
        match id_after "/reel/" Re.code_char url with
        | Some code => Some code
        | None => id_after "/tv/" Re.code_char url
        end
    end).
  { rewrite <- !marker_search.
    unfold URLParser.extract_instagram_shortcode, URLParser.instagram_patterns.
    cbn [URLParser.first_group].
    by repeat (destruct (Re.search _ url); cbn [fmap option_fmap option_map]). }
  rewrite Heq. split; [done|]. split.
  - intros code Hcode.
    assert (∃ marker, marker ∈ ["/p/"; "/reel/"; "/tv/"]
                      ∧ id_after marker Re.code_char url = Some code)
      as (marker & Hin & Hid).
    { destruct (id_after "/p/" Re.code_char url) eqn:H1.
      { exists "/p/". split; [compute_done | congruence]. }
      destruct (id_after "/reel/" Re.code_char url) eqn:H2.
      { exists "/reel/". split; [compute_done | congruence]. }
      exists "/tv/". split; [compute_done | done]. }
    apply id_after_sound in Hid as (Hne & Hall & pre & rest & Hurl & Hrest).
    split; [done|]. split; [done|]. by exists marker, pre, rest.
  - split.
    + intros Hnone marker pre rest Hin.
      assert (id_after marker Re.code_char url = None) as Hid.
      { destruct (id_after "/p/" Re.code_char url) eqn:H1; [done|].
        destruct (id_after "/reel/" Re.code_char url) eqn:H2; [done|].
        repeat (apply elem_of_cons in Hin as [->|Hin]; [done|]).
        by apply elem_of_nil in Hin. }
      apply (proj1 (id_after_none _ _ _) Hid).
    + intros Hall.
      rewrite (proj2 (id_after_none "/p/" Re.code_char url))
        by (intros pre rest; apply Hall; compute_done).
      rewrite (proj2 (id_after_none "/reel/" Re.code_char url))
        by (intros pre rest; apply Hall; compute_done).
      apply id_after_none. intros pre rest. apply Hall. compute_done.
Qed.

Section VideoCode.
Context (p : ascii → bool).

Lemma len_drop n s : n ≤ Str.len s → Str.len s - Str.len (Str.drop n s) = n.
Proof.
  intros Hn. rewrite <- (take_drop n s) at 1. rewrite len_app.
  rewrite take_len by done. lia.
Qed.

(** A class repeated [n] times reads the next [n] characters. *)
Lemma times_cls_run {R} n s g (k : string → option string → option R) :
  Re.run (Re.times n (Re.Cls p)) s g k =
    if (n <=? Str.len s) && all_chars p (Str.take n s)
    then k (Str.drop n s) g else None.
Proof.
  revert s. induction n as [|n IH]; intros s.
  - cbn [Re.times Re.run Str.strip_prefix]. by destruct s.
  - destruct n as [|n].
    + cbn [Re.times Re.run]. destruct s as [|c s]; [done|].
      cbn [Str.take all_chars Str.drop Str.len String.length Nat.leb].
      destruct (p c); [|done]. by destruct s.
    + change (Re.times (S (S n)) (Re.Cls p))
        with (Re.Cat (Re.Cls p) (Re.times (S n) (Re.Cls p))).
      cbn [Re.run]. destruct s as [|c s]; [done|].
      cbn [Str.take all_chars Str.drop].
      destruct (p c); cbn [andb]; [|by rewrite andb_false_r].
      rewrite IH. unfold Str.len. by cbn [String.length Nat.leb andb].
Qed.

Lemma group_times_match n s m :
  Re.run (Re.Group (Re.times n (Re.Cls p))) s None (λ s' g', Some (g', s'))
    = Some m →
  m = (Some (Str.take n s), Str.drop n s) ∧ n ≤ Str.len s
  ∧ all_chars p (Str.take n s) = true.
Proof.
  cbn [Re.run]. rewrite times_cls_run.
  destruct (Nat.leb_spec n (Str.len s)) as [Hn|]; [|done].
  destruct (all_chars p (Str.take n s)); [|done].
  cbn [andb]. intros [= <-]. by rewrite len_drop.
Qed.
End VideoCode.

Lemma first_group_found patterns url id :
  URLParser.first_group patterns url = Some id →
  ∃ pattern m, pattern ∈ patterns ∧ Re.search pattern url = Some m
               ∧ id = Re.group1 m.
Proof.
  induction patterns as [|r rs IH]; [done|]. cbn [URLParser.first_group].
  destruct (Re.search r url) as [m|] eqn:Hm.
  - intros [= <-]. exists r, m. split; [by apply elem_of_cons; left | done].
  - intros (r' & m & Hin & Hs & ->)%IH. exists r', m.
    split; [by apply elem_of_cons; right | done].
Qed.

(** X5.  A YouTube video id is a text of exactly eleven letters, digits, [_]
    and [-] that stands in the URL. *)
Theorem youtube_video_id_has_eleven_chars (url id : string) :
  URLParser.extract_youtube_video_id url = Some id →
  Str.len id = 11 ∧ all_chars Re.code_char id = true ∧
  ∃ pre rest, url = pre +:+ id +:+ rest.
Proof.
  intros (r & m & Hin & Hs & ->)%first_group_found.
  apply search_suffix in Hs as (pre & suf & -> & Hm).
  assert (∃ l s1, suf = l +:+ s1 ∧
            Re.run (Re.Group URLParser.video_code) s1 None
              (λ s' g', Some (g', s')) = Some m) as (l & s1 & -> & Hrun).
  { unfold URLParser.youtube_patterns in Hin.
    apply elem_of_cons in Hin as [->|Hin];
      [|apply elem_of_cons in Hin as [->|Hin]; [|by apply elem_of_nil in Hin]];
      unfold Re.match_here in Hm; cbn [Re.seq Re.run] in Hm;
      repeat match type of Hm with
             | context [Str.strip_prefix ?l suf] =>
                 let H := fresh "Hl" in
                 destruct (Str.strip_prefix l suf) as [s1|] eqn:H;
                   [apply strip_prefix_app in H|]
             | match ?x with Some _ => _ | None => _ end = Some _ =>
                 destruct x eqn:?
             end; simplify_eq; by eauto. }
  apply group_times_match in Hrun as (-> & Hlen & Hall).
  cbn [Re.group1 fst default from_option id].
  split; [by apply take_len|]. split; [done|].
  exists (pre +:+ l), (Str.drop 11 s1).
  rewrite <- (take_drop 11 s1) at 1. by rewrite !app_assoc_str.
Qed.

Lemma youtube_video_id_has_eleven_chars_witness :
  Str.len "dQw4w9WgXcQ" = 11 ∧ all_chars Re.code_char "dQw4w9WgXcQ" = true ∧
  ∃ pre rest, "https://youtu.be/dQw4w9WgXcQ?t=1" = pre +:+ "dQw4w9WgXcQ" +:+ rest.
Proof.
  apply (youtube_video_id_has_eleven_chars "https://youtu.be/dQw4w9WgXcQ?t=1").
  reflexivity.
Defined.

(** ** The downloaders' [can_handle] *)

Section CanHandle.
Implicit Types (url : string).

Lemma contains_any_cons d ds s :
  Str.contains_any (d :: ds) s = Str.contains d s || Str.contains_any ds s.
Proof. done. Qed.

Lemma tiktok_domain_test s :
  Str.contains_any URLParser.tiktok_domains s = Str.contains "tiktok.com" s.
Proof.
  unfold URLParser.tiktok_domains. rewrite !contains_any_cons.
  destruct (Str.contains "tiktok.com" s) eqn:H1; [done|]. cbn [orb].
  destruct (Str.contains "vm.tiktok.com" s) eqn:H2.
  { apply (contains_suffix_of "vm." "tiktok.com") in H2. congruence. }
  destruct (Str.contains "vt.tiktok.com" s) eqn:H3; [|done].
  apply (contains_suffix_of "vt." "tiktok.com") in H3. congruence.
Qed.

Lemma tiktok_can_handle_eq url :
  TikTok.can_handle url = Str.contains "tiktok.com" (Str.lower url).
Proof.
  rewrite <- tiktok_domain_test.
  unfold TikTok.can_handle, TikTok.tiktok_patterns, URLParser.tiktok_domains,
    Str.contains_any.
  cbn [existsb]. by rewrite !search_lit.
Qed.

Lemma instagram_can_handle_eq url :
  Instagram.can_handle url
  = Str.contains_any URLParser.instagram_domains (Str.lower url).
Proof.
  unfold Instagram.can_handle, Instagram.instagram_patterns,
    URLParser.instagram_domains, Str.contains_any.
  cbn [existsb]. by rewrite !search_lit.
Qed.
End CanHandle.

(** X6.  The TikTok downloader handles a URL exactly when [tiktok.com]
    occurs in it, whatever the case of the letters (the patterns of the two
    short-link hosts add nothing).  Every URL that the classifier gives to
    TikTok is handled, and a handled URL is classified as TikTok unless it
    also contains a YouTube domain. *)
Theorem tiktok_can_handle_is_domain_test (url : string) :
  TikTok.can_handle url = Str.contains "tiktok.com" (Str.lower url) ∧
  TikTok.can_handle (Str.lower url) = TikTok.can_handle url ∧
  (URLParser.extract_platform url = Some "tiktok" → TikTok.can_handle url = true) ∧
  (TikTok.can_handle url = true →
   URLParser.extract_platform url = Some "tiktok"
   ∨ URLParser.extract_platform url = Some "youtube").
Proof.
  split; [apply tiktok_can_handle_eq|]. split.
  { by rewrite !tiktok_can_handle_eq, lower_idemp. }
  rewrite tiktok_can_handle_eq, <- tiktok_domain_test.
  unfold URLParser.extract_platform. cbv zeta.
  destruct (Str.contains_any URLParser.youtube_domains (Str.lower url));
    destruct (Str.contains_any URLParser.tiktok_domains (Str.lower url));
    repeat case_match; split; try done; auto.
Qed.

(** X7.  The Instagram downloader handles a URL exactly when the classifier's
    Instagram test succeeds on it.  Every URL classified as Instagram is
    handled, and a handled URL is classified as Instagram unless a YouTube
    or TikTok domain occurs in it too. *)
Theorem instagram_can_handle_agrees_with_classifier (url : string) :
  Instagram.can_handle url
  = Str.contains_any URLParser.instagram_domains (Str.lower url) ∧
  (URLParser.extract_platform url = Some "instagram" →
   Instagram.can_handle url = true) ∧
  (Instagram.can_handle url = true →
   URLParser.extract_platform url = Some "instagram"
   ∨ URLParser.extract_platform url = Some "tiktok"
   ∨ URLParser.extract_platform url = Some "youtube").
Proof.
  split; [apply instagram_can_handle_eq|].
  rewrite instagram_can_handle_eq.
  unfold URLParser.extract_platform. cbv zeta.
  destruct (Str.contains_any URLParser.youtube_domains (Str.lower url));
    destruct (Str.contains_any URLParser.tiktok_domains (Str.lower url));
    destruct (Str.contains_any URLParser.instagram_domains (Str.lower url));
    repeat case_match; split; try done; auto.
Qed.

(** X8.  The Pinterest downloader handles a URL when [pin.it] occurs in it
    or a lowercase letter follows some [pinterest.] (after lowering the
    case); its first pattern adds nothing to the second.  This is stricter
    than the classifier, for which [pinterest.] alone is enough: what the
    downloader handles passes the classifier's Pinterest test, and some URL
    classified as Pinterest is not handled. *)
Theorem pinterest_can_handle_needs_a_letter (url : string) :
  Pinterest.can_handle url =
    Str.contains "pin.it" (Str.lower url)
    || bool_decide (is_Some (id_after "pinterest." (Re.between "a" "z")
                               (Str.lower url))) ∧
  (Pinterest.can_handle url = true →
   Str.contains_any URLParser.pinterest_domains (Str.lower url) = true) ∧
  (∃ other, URLParser.extract_platform other = Some "pinterest"
            ∧ Pinterest.can_handle other = false).
Proof.
  set (l := Str.lower url).
  assert (Heq : Pinterest.can_handle url =
    Str.contains "pin.it" l
    || bool_decide (is_Some (id_after "pinterest." (Re.between "a" "z") l))).
  { unfold Pinterest.can_handle, Pinterest.pinterest_patterns. fold l.
    cbn [existsb]. rewrite !search_lit, marker_search_plain.
    rewrite orb_false_r.
    destruct (Str.contains "pinterest.com" l) eqn:Hcom;
      cbn [orb]; [|apply orb_comm].
    apply contains_iff in Hcom as (pre & post & Hl).
    destruct (id_after "pinterest." (Re.between "a" "z") l) as [i|] eqn:Hid.
    - by rewrite orb_true_r.
    - exfalso.
      pose proof (proj1 (id_after_none _ _ _) Hid pre ("com" +:+ post)) as Hno.
      rewrite Hl in Hno. by specialize (Hno eq_refl). }
  split; [done|]. split.
  - rewrite Heq. unfold URLParser.pinterest_domains.
    rewrite !contains_any_cons. fold l.
    intros [->|Hid]%orb_true_iff; [by rewrite !orb_true_r|].
    apply bool_decide_eq_true_1 in Hid as [i Hid].
    apply id_after_sound in Hid as (_ & _ & pre & rest & Hl & _).
    assert (Str.contains "pinterest." l = true) as ->.
    { apply contains_iff. by exists pre, (i +:+ rest). }
    by rewrite orb_true_r.
  - by exists "https://pinterest.123/".
Qed.

(** ** base.py: [download_file] and [cleanup_file] *)

(** X9.  A request answered with status 200, a target that [open] accepts
    and a transfer that completes make [download_file] return the path of
    the target; the file there holds the chunks in their order, whatever was
    there before. *)
Theorem download_file_stores_the_chunks
    (E : env) (url : value) (filename : string) (w : world) (r : response) :
  let target := Base.path_join (DOWNLOAD_DIR (cfg E)) filename in
  net E (sent w) url = Answered r → status r = 200%Z →
  open_error E target = None → broken r = None →
  let out := Base.download_file E url filename w in
  out.1 = Ret target ∧ files out.2 !! target = Some (joined (chunks r)).
Proof.
  intros target Hnet Hstatus Hopen Hbroken out. unfold out.
  rewrite download_file_run. fold target. unfold transfer.
  rewrite Hnet, Hstatus, Hopen, Hbroken. cbn [Z.eqb Pos.eqb fst snd files].
  split; [done|]. apply lookup_insert_eq.
Qed.

Lemma download_file_stores_the_chunks_witness :
  (Base.download_file fixture_file (VStr Fixture.video_url) "x.mp4"
     Fixture.stale).1 = Ret "downloads/x.mp4" ∧
  files (Base.download_file fixture_file (VStr Fixture.video_url) "x.mp4"
           Fixture.stale).2 !! "downloads/x.mp4" = Some "abcdef".
Proof.
  apply (download_file_stores_the_chunks fixture_file (VStr Fixture.video_url)
           "x.mp4" Fixture.stale
           {| status := 200; final_url := Fixture.video_url; text := Ret "";
              chunks := ["abcd"; "ef"]; broken := None |});
    reflexivity.
Defined.

(** X10.  Whatever the network and the file system do, [download_file] sends
    one request and touches no file but its target; it returns exactly when
    the request is answered with status 200, [open] accepts the target and
    the transfer completes; and when [open] refuses the target, the
    exception of [open] is raised and no file is left there. *)
Theorem download_file_touches_only_target
    (E : env) (url : value) (filename : string) (w : world) :
  let target := Base.path_join (DOWNLOAD_DIR (cfg E)) filename in
  let out := Base.download_file E url filename w in
  sent out.2 = S (sent w) ∧
  (∀ q, q ≠ target → files out.2 !! q = files w !! q) ∧
  (∀ p, out.1 = Ret p ↔
        p = target ∧ ∃ r, net E (sent w) url = Answered r
                          ∧ status r = 200%Z ∧ open_error E target = None
                          ∧ broken r = None) ∧
  (∀ r e, net E (sent w) url = Answered r → status r = 200%Z →
          open_error E target = Some e →
          out.1 = Raise e ∧
          (caught e → files out.2 !! target = None) ∧
          (¬ caught e → files out.2 = files w)).
Proof.
  intros target out. unfold out. rewrite download_file_run. fold target.
  unfold transfer, after_failure, written, caught.
  destruct (net E (sent w) url) as [e|r].
  - split; [done|]. split.
    + intros q Hq. cbn [fst snd files sent].
      destruct (except_exception _); cbn [files];
        by rewrite ?lookup_delete_ne.
    + split; [|done]. intros p. split; [done|]. by intros (_ & r & [=] & _).
  - destruct (Z.eqb_spec (status r) 200) as [Hs|Hs].
    + destruct (open_error E target) as [e|] eqn:Ho.
      { cbn [fst snd files sent]. split; [done|]. split.
        - intros q Hq. destruct (except_exception _);
            by rewrite ?lookup_delete_ne.
        - split.
          + intros p. split; [done|]. by intros (_ & r' & _ & _ & [=] & _).
          + intros r' e' _ _ [= <-]. split; [done|].
            destruct (except_exception _).
            * split; [intros _; apply lookup_delete_eq | done].
            * split; [done | by intros _]. }
      destruct (broken r) as [e|] eqn:Hb; cbn [fst snd files sent].
      * split; [done|]. split.
        -- intros q Hq. destruct (except_exception _);
             by rewrite ?lookup_delete_ne, ?lookup_insert_ne.
        -- split; [|done]. intros p. split; [done|].
           intros (_ & r' & [= <-] & _ & _ & Hb'). congruence.
      * split; [done|]. split; [intros q Hq; by apply lookup_insert_ne|].
        split; [|done].
        intros p. split; [intros [= <-]; eauto 10|]. by intros [-> _].
    + cbn [fst snd files sent exn_class_of except_exception].
      split; [done|]. split; [intros q Hq; by apply lookup_delete_ne|].
      split; [|intros r' e' [= <-] ?; congruence].
      intros p. split; [done|]. by intros (_ & r' & [= <-] & ? & _).
Qed.

(** X11.  [cleanup_file] never raises; it leaves no file at the path, keeps
    every other file and sends nothing; doing it again changes nothing. *)
Theorem cleanup_file_removes_quietly (p : string) (w : world) :
  let out := Base.cleanup_file p w in
  out.1 = Ret () ∧ files out.2 !! p = None ∧
  (∀ q, q ≠ p → files out.2 !! q = files w !! q) ∧
  sent out.2 = sent w ∧
  Base.cleanup_file p out.2 = (Ret (), out.2).
Proof.
  destruct w as [fs n]. cbv zeta. rewrite cleanup_file_run.
  cbn [fst snd files sent]. split; [done|]. split; [apply lookup_delete_eq|].
  split; [intros q Hq; by apply lookup_delete_ne|]. split; [done|].
  rewrite cleanup_file_run. by rewrite delete_delete_eq.
Qed.

(** ** The download methods: what they write, and how much they ask *)

Section Frame.
Context (E : env).

Lemma settle_frame platform r w w1 q :
  files w1 = files w →
  files (settle E platform (r, w1)).2 !! q ≠ files w !! q →
  ∃ p, r = Ret (inr p) ∧ q = target E p.
Proof.
  intros Hfiles. unfold settle. destruct r as [[error|p]|e];
    cbn [snd files]; try (by rewrite Hfiles).
  - intros Hq. exists p. split; [done|].
    destruct (decide (q = target E p)) as [|Hne]; [done|]. exfalso.
    cbv zeta in Hq. unfold after_failure in Hq.
    destruct (transfer _) as [e|content];
      [destruct (except_exception _); [|destruct (written _ _ _)]
      |destruct (_ <? _)%Z]; cbn [snd files] in Hq; apply Hq;
      rewrite ?lookup_delete_ne, ?lookup_insert_ne by done;
      by rewrite Hfiles.
  - destruct (except_exception _); cbn [snd files]; by rewrite Hfiles.
Qed.

Lemma settle_sends platform r w1 :
  sent w1 ≤ sent (settle E platform (r, w1)).2 ≤ sent w1 + 1.
Proof.
  unfold settle. destruct r as [[error|p]|e]; cbn [snd sent]; try lia.
  - destruct (transfer _) as [e|content]; cbv zeta;
      [destruct (except_exception _)|destruct (_ <? _)%Z];
      cbn [snd sent]; lia.
  - destruct (except_exception _); cbn [snd sent]; lia.
Qed.

Lemma all_chars_absent p c s :
  p c = false → all_chars p s = true → has_char c s = false.
Proof.
  intros Hc. induction s as [|a s IH]; [done|]. cbn [all_chars has_char].
  intros [Ha Hs]%andb_true_iff. rewrite (IH Hs), orb_false_r.
  destruct (Ascii.eqb_spec a c) as [->|]; [congruence | done].
Qed.

Lemma media_name_flat prefix p exts name :
  has_char "/" prefix = false → p "/"%char = false →
  (∀ ext, ext ∈ exts → has_char "/" ext = false) →
  media_name prefix p exts name → has_char "/" name = false.
Proof.
  intros Hprefix Hp Hexts (id & ext & -> & _ & Hall & Hin).
  rewrite !has_char_app, Hprefix, (all_chars_absent p "/" id Hp Hall).
  by rewrite (Hexts ext Hin).
Qed.

(** The identifier that [re.search] captures behind a marker. *)
Lemma search_marker_id marker p s m :
  Re.search (Re.seq [Re.Lit marker; Re.Group (Re.plus p)]) s = Some m →
  Re.group1 m ≠ "" ∧ all_chars p (Re.group1 m) = true.
Proof.
  intros Hs. pose proof (marker_search marker p s) as Hid.
  rewrite Hs in Hid. symmetry in Hid.
  apply id_after_sound in Hid as (? & ? & _). done.
Qed.

Lemma planned_named {I} (f : I → string + plan) (m : M I) P w p :
  ensures m (λ i, plan_named P (f i)) →
  (planned f (m w)).1 = Ret (inr p) → P (plan_filename p).
Proof.
  intros Hm. unfold planned. cbn [fst]. specialize (Hm w).
  destruct (m w).1 as [i|e]; [|done]. intros [= Hp].
  specialize (Hm i eq_refl). by rewrite Hp in Hm.
Qed.
End Frame.

Section Names.
Context (E : env).

Ltac use_marker :=
  repeat match goal with
         | H : Re.search _ _ = Some _ |- _ =>
             apply search_marker_id in H as [??]
         end.

Ltac name_tac :=
  cbn [plan_named tiktok_plan instagram_plan pinterest_plan];
  repeat case_match; cbn [plan_filename];
  try done;
  eexists _, _; (split; [reflexivity|]); (split; [eassumption|]);
  (split; [eassumption|]); compute_done.

Lemma read_state_named blob video_id :
  video_id ≠ "" → all_chars Re.digit video_id = true →
  res_ensures
    (λ i, plan_named (media_name "tiktok_" Re.digit ["mp4"]) (tiktok_plan E i))
    (TikTok.read_state E blob video_id).
Proof.
  intros Hne Hall. unfold TikTok.read_state. res_ensures_tac; name_tac.
Qed.

Lemma tiktok_info_named url :
  ensures (TikTok._get_video_info E url)
    (λ i, plan_named (media_name "tiktok_" Re.digit ["mp4"]) (tiktok_plan E i)).
Proof.
  unfold TikTok._get_video_info. ensures_tac.
  all: try done.
  all: unfold TikTok.video_id_re in *; use_marker.
  apply ensures_lift. by apply read_state_named.
Qed.

Lemma read_media_named blob shortcode :
  shortcode ≠ "" → all_chars Re.code_char shortcode = true →
  res_ensures
    (λ i, plan_named (media_name "instagram_" Re.code_char ["mp4"; "jpg"])
            (instagram_plan E i))
    (Instagram.read_media E blob shortcode).
Proof.
  intros Hne Hall. unfold Instagram.read_media. res_ensures_tac; name_tac.
Qed.

Lemma instagram_info_named url :
  ensures (Instagram._get_media_info E url)
    (λ i, plan_named (media_name "instagram_" Re.code_char ["mp4"; "jpg"])
            (instagram_plan E i)).
Proof.
  unfold Instagram._get_media_info. ensures_tac.
  all: try done.
  all: unfold Instagram.post_re, Instagram.reel_re in *.
  all: match goal with
       | H : match Re.search ?r ?u with Some _ => _ | None => _ end = Some _
         |- _ => destruct (Re.search r u) eqn:?; simplify_eq
       end.
  all: use_marker.
  all: try (apply ensures_lift; by apply read_media_named).
  all: name_tac.
Qed.

Lemma pinterest_info_named url :
  ensures (Pinterest._get_pin_info E url)
    (λ i, plan_named (media_name "pinterest_" Re.digit ["mp4"; "jpg"; "png"])
            (pinterest_plan E i)).
Proof.
  unfold Pinterest._get_pin_info. ensures_tac.
  all: try done.
  all: try match goal with
       | H : Pinterest.scan_scripts _ _ = Some _ |- _ =>
           apply scan_scripts_pin in H as (? & ? & ? & ->)
       end.
  all: unfold Pinterest.pin_id_re in *; use_marker.
  all: name_tac.
Qed.
End Names.

Section FlatFiles.
Context (E : env) (url : string) (w : world) (q : string).

Lemma download_frame {I} platform (f : I → string + plan) (m : M I) P prefix p exts :
  keeps_files m → ensures m (λ i, plan_named (media_name prefix p exts) (f i)) →
  has_char "/" prefix = false → p "/"%char = false →
  (∀ ext, ext ∈ exts → has_char "/" ext = false) →
  P = media_name prefix p exts →
  files (settle E platform (planned f (m w))).2 !! q ≠ files w !! q →
  ∃ name, q = Base.path_join (DOWNLOAD_DIR (cfg E)) name
          ∧ has_char "/" name = false ∧ P name.
Proof.
  intros Hkeeps Hnamed Hprefix Hp Hexts -> Hq. rewrite planned_split in Hq.
  apply settle_frame in Hq as (pl & Hpl & ->); [|apply Hkeeps].
  apply (planned_named _ _ _ _ _ Hnamed) in Hpl.
  exists (plan_filename pl). split; [done|]. split; [|done].
  by apply (media_name_flat prefix p exts).
Qed.
End FlatFiles.

(** X12.  The only file that a TikTok download creates, changes or removes
    is the one named [tiktok_], the digits of the video id, [.mp4], directly
    in the download directory: the name has no slash in it. *)
Theorem tiktok_download_writes_one_flat_file
    (E : env) (url : string) (w : world) (q : string) :
  files (TikTok.download E url w).2 !! q ≠ files w !! q →
  ∃ name, q = Base.path_join (DOWNLOAD_DIR (cfg E)) name
          ∧ has_char "/" name = false
          ∧ media_name "tiktok_" Re.digit ["mp4"] name.
Proof.
  rewrite tiktok_download_run.
  apply (download_frame E w q "TikTok" (tiktok_plan E) _ _ "tiktok_" Re.digit
           ["mp4"]);
    [apply tiktok_info_keeps_files | apply tiktok_info_named | done | done
    | | done].
  intros ext Hin. repeat (apply elem_of_cons in Hin as [->|Hin]; [done|]).
  by apply elem_of_nil in Hin.
Qed.

Lemma tiktok_download_writes_one_flat_file_witness :
  ∃ name, "downloads/tiktok_123.mp4"
          = Base.path_join (DOWNLOAD_DIR (cfg fixture_tiktok)) name
          ∧ has_char "/" name = false
          ∧ media_name "tiktok_" Re.digit ["mp4"] name.
Proof.
  apply (tiktok_download_writes_one_flat_file fixture_tiktok Fixture.tiktok_url
           Fixture.start "downloads/tiktok_123.mp4").
  vm_compute. discriminate.
Defined.

(** X13.  The same for Instagram: the file is named [instagram_], the
    shortcode, and [.mp4] or [.jpg]. *)
Theorem instagram_download_writes_one_flat_file
    (E : env) (url : string) (w : world) (q : string) :
  files (Instagram.download E url w).2 !! q ≠ files w !! q →
  ∃ name, q = Base.path_join (DOWNLOAD_DIR (cfg E)) name
          ∧ has_char "/" name = false
          ∧ media_name "instagram_" Re.code_char ["mp4"; "jpg"] name.
Proof.
  rewrite instagram_download_run.
  apply (download_frame E w q "Instagram" (instagram_plan E) _ _ "instagram_"
           Re.code_char ["mp4"; "jpg"]);
    [apply instagram_info_keeps_files | apply instagram_info_named | done | done
    | | done].
  intros ext Hin. repeat (apply elem_of_cons in Hin as [->|Hin]; [done|]).
  by apply elem_of_nil in Hin.
Qed.

Lemma instagram_download_writes_one_flat_file_witness :
  ∃ name, "downloads/instagram_Cabc_1.jpg"
          = Base.path_join (DOWNLOAD_DIR (cfg (Fixture.instagram_photo ["abc"]))) name
          ∧ has_char "/" name = false
          ∧ media_name "instagram_" Re.code_char ["mp4"; "jpg"] name.
Proof.
  apply (instagram_download_writes_one_flat_file (Fixture.instagram_photo ["abc"])
           Fixture.instagram_url Fixture.start "downloads/instagram_Cabc_1.jpg").
  vm_compute. discriminate.
Defined.

(** X14.  The same for Pinterest: the file is named [pinterest_], the digits
    of the pin id, and [.mp4], [.jpg] or [.png]. *)
Theorem pinterest_download_writes_one_flat_file
    (E : env) (url : string) (w : world) (q : string) :
  files (Pinterest.download E url w).2 !! q ≠ files w !! q →
  ∃ name, q = Base.path_join (DOWNLOAD_DIR (cfg E)) name
          ∧ has_char "/" name = false
          ∧ media_name "pinterest_" Re.digit ["mp4"; "jpg"; "png"] name.
Proof.
  rewrite pinterest_download_run.
  apply (download_frame E w q "Pinterest" (pinterest_plan E) _ _ "pinterest_"
           Re.digit ["mp4"; "jpg"; "png"]);
    [apply pinterest_info_keeps_files | apply pinterest_info_named | done | done
    | | done].
  intros ext Hin. repeat (apply elem_of_cons in Hin as [->|Hin]; [done|]).
  by apply elem_of_nil in Hin.
Qed.

Lemma pinterest_download_writes_one_flat_file_witness :
  ∃ name, "downloads/pinterest_42.mp4"
          = Base.path_join (DOWNLOAD_DIR (cfg fixture_pin)) name
          ∧ has_char "/" name = false
          ∧ media_name "pinterest_" Re.digit ["mp4"; "jpg"; "png"] name.
Proof.
  apply (pinterest_download_writes_one_flat_file fixture_pin Fixture.pin_url
           Fixture.start "downloads/pinterest_42.mp4").
  vm_compute. discriminate.
Defined.

(** ** Requests *)

Section Sends.
Context (E : env).
Context {A B : Type}.
Implicit Types (m : M A) (k : A → M B).

Lemma sends_ret n (a : A) : sends_at_most n (mret a : M A).
Proof. intros w. cbn. lia. Qed.

Lemma sends_lift n (r : res A) : sends_at_most n (lift r).
Proof. intros w. cbn. lia. Qed.

Lemma sends_bind a b m k :
  sends_at_most a m → (∀ x, sends_at_most b (k x)) →
  sends_at_most (a + b) (m ≫= k).
Proof.
  intros Hm Hk w. unfold mbind, M_bind, bind. specialize (Hm w).
  destruct (m w) as [[x|e] w1]; cbn [snd] in *; [|lia].
  specialize (Hk x w1). lia.
Qed.

Lemma sends_lift_bind n (r : res A) k :
  (∀ x, sends_at_most n (k x)) → sends_at_most n (lift r ≫= k).
Proof. intros Hk. apply (sends_bind 0 n); [apply sends_lift | done]. Qed.

Lemma sends_try c n m (h : exn → M A) :
  sends_at_most n m → (∀ e, sends_at_most 0 (h e)) →
  sends_at_most n (try_except c m h).
Proof.
  intros Hm Hh w. unfold try_except. specialize (Hm w).
  destruct (m w) as [[x|e] w1]; cbn [snd] in *; [lia|].
  destruct (c _); cbn [snd]; [|lia]. specialize (Hh e w1). lia.
Qed.
End Sends.

Section SendsGet.
Context (E : env).
Context {B : Type}.
Implicit Types (k : response → M B).

Lemma sends_get n url : sends_at_most (S n) (Base.session_get E url).
Proof.
  intros w. unfold Base.session_get. destruct (net E _ _); cbn; lia.
Qed.

Lemma sends_get_bind n url k :
  (∀ x, sends_at_most n (k x)) →
  sends_at_most (S n) (Base.session_get E url ≫= k).
Proof. intros Hk. apply (sends_bind 1 n); [apply sends_get | done]. Qed.

(** A computation that starts with a request has sent one at least. *)
Lemma try_get_sends c n url k (h : exn → M B) w :
  (∀ x, sends_at_most n (k x)) → (∀ e, sends_at_most 0 (h e)) →
  S (sent w) ≤ sent (try_except c (Base.session_get E url ≫= k) h w).2.
Proof.
  intros Hk Hh. unfold try_except, mbind, M_bind, bind, Base.session_get.
  destruct (net E _ _) as [e|r].
  - destruct (c _); cbn [snd sent]; [|lia].
    specialize (Hh e (World (files w) (S (sent w)))). cbn [sent] in Hh. lia.
  - specialize (Hk r (World (files w) (S (sent w)))). cbn [sent] in Hk.
    destruct (k r _) as [[x|e] w1]; cbn [snd] in *; [lia|].
    destruct (c _); cbn [snd]; [|lia]. specialize (Hh e w1). lia.
Qed.
End SendsGet.

Ltac sends_step :=
  match goal with
  | |- sends_at_most _ (try_except _ _ _) => apply sends_try; [|intros ?]
  | |- sends_at_most (S _) (Base.session_get _ _ ≫= _) =>
      apply sends_get_bind; intros ?
  | |- sends_at_most _ (lift _ ≫= _) => apply sends_lift_bind; intros ?
  | |- sends_at_most _ (mret _) => apply sends_ret
  | |- sends_at_most _ (lift _) => apply sends_lift
  | |- sends_at_most _ (if ?b then _ else _) => destruct b
  | |- sends_at_most _ (match ?x with _ => _ end) => destruct x
  end.
Ltac sends_tac := repeat sends_step.

Section Requests.
Context (E : env) (url : string).

Lemma tiktok_info_sends : sends_at_most 2 (TikTok._get_video_info E url).
Proof. unfold TikTok._get_video_info. sends_tac. Qed.

Lemma tiktok_info_sends_one w :
  S (sent w) ≤ sent (TikTok._get_video_info E url w).2.
Proof.
  unfold TikTok._get_video_info. apply (try_get_sends E _ 1).
  - intros r. sends_tac.
  - intros e. sends_tac.
Qed.

Lemma instagram_info_sends : sends_at_most 1 (Instagram._get_media_info E url).
Proof. unfold Instagram._get_media_info. sends_tac. Qed.

Lemma pinterest_info_sends : sends_at_most 2 (Pinterest._get_pin_info E url).
Proof.
  unfold Pinterest._get_pin_info. sends_step; [|sends_tac].
  apply (sends_bind 1 1); [sends_tac|]. intros u. sends_tac.
Qed.
End Requests.

Lemma settle_sends_planned {I} E platform (f : I → string + plan)
    (x : res I * world) :
  sent x.2 ≤ sent (settle E platform (planned f x)).2 ≤ sent x.2 + 1.
Proof. rewrite planned_split. apply settle_sends. Qed.

(** X15.  A download sends few requests: TikTok one to three (the first one,
    which resolves short links, is always sent), Instagram at most two,
    Pinterest at most three; a failure does not make any of them try
    again. *)
Theorem downloads_send_few_requests (E : env) (url : string) (w : world) :
  sent w + 1 ≤ sent (TikTok.download E url w).2 ≤ sent w + 3 ∧
  sent w ≤ sent (Instagram.download E url w).2 ≤ sent w + 2 ∧
  sent w ≤ sent (Pinterest.download E url w).2 ≤ sent w + 3.
Proof.
  rewrite tiktok_download_run, instagram_download_run, pinterest_download_run.
  pose proof (tiktok_info_sends E url w) as Ht.
  pose proof (tiktok_info_sends_one E url w) as Ht1.
  pose proof (instagram_info_sends E url w) as Hi.
  pose proof (pinterest_info_sends E url w) as Hp.
  pose proof (settle_sends_planned E "TikTok" (tiktok_plan E)
                (TikTok._get_video_info E url w)) as Hst.
  pose proof (settle_sends_planned E "Instagram" (instagram_plan E)
                (Instagram._get_media_info E url w)) as Hsi.
  pose proof (settle_sends_planned E "Pinterest" (pinterest_plan E)
                (Pinterest._get_pin_info E url w)) as Hsp.
  lia.
Qed.

(** ** The resolvers: what they pick *)

Lemma id_after_search marker p s :
  id_after marker p s = None →
  Re.search (Re.seq [Re.Lit marker; Re.Group (Re.plus p)]) s = None.
Proof.
  intros Hid. pose proof (marker_search marker p s) as Hs.
  rewrite Hid in Hs. by destruct (Re.search _ s).
Qed.

(** X16.  The Instagram resolver knows posts and reels only.  A URL in
    which neither [/p/] nor [/reel/] has a code behind it is turned down
    with the message about the shortcode, before any request is sent and
    with the files as they were, although the URL parser reads a shortcode
    behind [/tv/] from such a URL. *)
Theorem instagram_tv_links_are_turned_down (E : env) (url : string) (w : world) :
  id_after "/p/" Re.code_char url = None →
  id_after "/reel/" Re.code_char url = None →
  Instagram._get_media_info E url w =
    (Ret (Instagram.NoMedia "Could not extract media shortcode from URL"), w) ∧
  Instagram.download E url w =
    (Ret (Base.no_info "Could not extract media shortcode from URL"), w) ∧
  URLParser.extract_instagram_shortcode url = id_after "/tv/" Re.code_char url.
Proof.
  intros Hp Hreel.
  assert (Hinfo : Instagram._get_media_info E url w =
    (Ret (Instagram.NoMedia "Could not extract media shortcode from URL"), w)).
  { unfold Instagram._get_media_info, try_except, Instagram.post_re,
      Instagram.reel_re.
    by rewrite (id_after_search _ _ _ Hp), (id_after_search _ _ _ Hreel). }
  split; [done|]. split.
  - rewrite instagram_download_run, Hinfo. done.
  - rewrite <- marker_search.
    unfold URLParser.extract_instagram_shortcode, URLParser.instagram_patterns.
    cbn [URLParser.first_group].
    rewrite (id_after_search _ _ _ Hp), (id_after_search _ _ _ Hreel).
    by destruct (Re.search _ url).
Qed.

Lemma instagram_tv_links_are_turned_down_witness :
  Instagram._get_media_info Fixture.instagram_post
    "https://www.instagram.com/tv/Cabc_1/" Fixture.start =
    (Ret (Instagram.NoMedia "Could not extract media shortcode from URL"),
     Fixture.start) ∧
  Instagram.download Fixture.instagram_post
    "https://www.instagram.com/tv/Cabc_1/" Fixture.start =
    (Ret (Base.no_info "Could not extract media shortcode from URL"),
     Fixture.start) ∧
  URLParser.extract_instagram_shortcode "https://www.instagram.com/tv/Cabc_1/"
  = id_after "/tv/" Re.code_char "https://www.instagram.com/tv/Cabc_1/".
Proof.
  apply (instagram_tv_links_are_turned_down Fixture.instagram_post
           "https://www.instagram.com/tv/Cabc_1/" Fixture.start);
    reflexivity.
Defined.

(** X17.  From the entry of the video in the state of a TikTok page, the
    resolver takes [downloadAddr] when it is there and not empty, and
    [playAddr] otherwise; the title is the [desc] of the entry as it is,
    however long, or ['TikTok Video'] when there is none. *)
Theorem tiktok_prefers_download_address
    (E : env) (blob video_id : string) (data item video : value) :
  json_loads E blob = Ret data →
  item_entry data video_id = Some item →
  member item "video" = Some video → is_object video →
  let download_addr := default VNone (member video "downloadAddr") in
  let play_addr := default VNone (member video "playAddr") in
  let title := default (VStr "TikTok Video") (member item "desc") in
  TikTok.read_state E blob video_id =
    Ret (if truthy download_addr then TikTok.Video video_id download_addr title
         else if truthy play_addr then TikTok.Video video_id play_addr title
         else TikTok.NoVideo "Could not find video download URL").
Proof.
  intros Hjson Hentry Hvideo Hobj download_addr play_addr title.
  unfold TikTok.read_state, mbind, res_bind. rewrite Hjson.
  unfold item_entry in Hentry.
  destruct (member data "ItemModule") as [items|] eqn:Hitems; [|done].
  cbn [mbind option_bind] in Hentry.
  rewrite py_get_object by by eapply member_is_object.
  rewrite Hitems. cbn [default from_option id].
  rewrite py_get_object by by eapply member_is_object.
  rewrite Hentry. cbn [default from_option id].
  assert (Htrue : truthy item = true).
  { destruct item as [| | | | | |[|kv d]]; try done. }
  rewrite Htrue. cbn [negb].
  rewrite py_get_object by by eapply member_is_object.
  rewrite Hvideo. cbn [default from_option id].
  rewrite !(py_get_object video) by done. fold download_addr play_addr.
  rewrite (py_get_object item) by by eapply member_is_object. fold title.
  unfold mret, res_ret.
  destruct (truthy download_addr) eqn:Hd; [by rewrite ?Hd|].
  by destruct (truthy play_addr) eqn:Hp; rewrite ?Hp.
Qed.

Lemma tiktok_prefers_download_address_witness :
  TikTok.read_state fixture_tiktok Fixture.tiktok_state "123" =
    Ret (TikTok.Video "123" (VStr Fixture.video_url) (VStr "TikTok Video")).
Proof.
  apply (tiktok_prefers_download_address fixture_tiktok Fixture.tiktok_state
           "123" fixture_state fixture_item fixture_video);
    reflexivity || exact I.
Defined.

(** X18.  On an embed page without the loader call, the raw data of a photo
    wins over the raw data of a video, wherever they stand in the page: the
    resolver answers with the photo, and the download stores it as a [.jpg]
    under the photo ceiling. *)
Theorem instagram_photo_data_wins (E : env) (url : string) (w : world)
    (r : response) (m im : Re.found) (content : string) :
  match Re.search Instagram.post_re url with
  | Some m => Some m
  | None => Re.search Instagram.reel_re url
  end = Some m →
  net E (sent w)
    (VStr ("https://www.instagram.com/p/" +:+ Re.group1 m +:+ "/embed/"))
  = Answered r →
  status r = 200%Z → text r = Ret content →
  Re.search Instagram.loader_re content = None →
  Re.search Instagram.graph_image_re content = Some im →
  let media_url := VStr (Str.replace Instagram.amp_escape "&" (Re.group1 im)) in
  let info := Instagram.Media (Re.group1 m) media_url (VBool false)
                (VStr "Instagram Photo") in
  (Instagram._get_media_info E url w).1 = Ret info ∧
  instagram_plan E info =
    inr (Plan media_url ("instagram_" +:+ Re.group1 m +:+ ".jpg")
           (MAX_PHOTO_SIZE (cfg E)) "photo" (VStr "Instagram Photo")).
Proof.
  intros Hcode Hpage Hstatus Htext Hloader Himage media_url info.
  rewrite (instagram_info_on_page E url w r m content Hcode Hpage Hstatus Htext).
  by rewrite Hloader, Himage.
Qed.

Lemma instagram_photo_data_wins_witness :
  Re.search Instagram.graph_video_re fixture_both_page
  = Some (Some "https://v.cdn/a.mp4",
          "}{" +:+ Fixture.q "__typename" +:+ ":" +:+ Fixture.q "GraphImage"
            +:+ "," +:+ Fixture.q "display_url" +:+ ":"
            +:+ Fixture.q Fixture.photo_url +:+ "}</html>") ∧
  (Instagram._get_media_info fixture_both Fixture.instagram_url Fixture.start).1
  = Ret (Instagram.Media "Cabc_1" (VStr Fixture.photo_url) (VBool false)
           (VStr "Instagram Photo")) ∧
  instagram_plan fixture_both
    (Instagram.Media "Cabc_1" (VStr Fixture.photo_url) (VBool false)
       (VStr "Instagram Photo"))
  = inr (Plan (VStr Fixture.photo_url) "instagram_Cabc_1.jpg" 4 "photo"
           (VStr "Instagram Photo")).
Proof.
  split; [reflexivity|].
  apply (instagram_photo_data_wins fixture_both Fixture.instagram_url
           Fixture.start
           {| status := 200; final_url := Fixture.instagram_url;
              text := Ret fixture_both_page; chunks := []; broken := None |}
           (Some "Cabc_1", "/") (Some Fixture.photo_url, "}</html>")
           fixture_both_page);
    reflexivity.
Defined.

(** ** The size in the message *)

(** X19.  The size that the message of a rejection shows is monotone in the
    size of the file, and a whole number of megabytes is shown with [.0]. *)
Theorem format_mb_whole_and_monotone :
  (∀ a b, (0 ≤ a ≤ b)%Z → (Base.tenths_of_mb a ≤ Base.tenths_of_mb b)%Z) ∧
  (∀ n, (0 ≤ n)%Z → Base.format_mb (n * 1048576) = pretty n +:+ ".0").
Proof.
  split.
  - intros a b Hab. unfold Base.tenths_of_mb. cbv zeta.
    pose proof (Z.div_mod (10 * a) 1048576 ltac:(lia)) as Ha.
    pose proof (Z.div_mod (10 * b) 1048576 ltac:(lia)) as Hb.
    pose proof (Z.mod_pos_bound (10 * a) 1048576 ltac:(lia)) as Hra.
    pose proof (Z.mod_pos_bound (10 * b) 1048576 ltac:(lia)) as Hrb.
    assert (Hq : (10 * a / 1048576 ≤ 10 * b / 1048576)%Z)
      by (apply Z.div_le_mono; lia).
    set (qa := (10 * a / 1048576)%Z) in *. set (qb := (10 * b / 1048576)%Z) in *.
    set (ra := ((10 * a) mod 1048576)%Z) in *.
    set (rb := ((10 * b) mod 1048576)%Z) in *.
    destruct (Z.eq_dec qa qb) as [Heq|Hne].
    + assert (Hr : (ra ≤ rb)%Z) by lia. rewrite <- Heq.
      destruct (Z.ltb_spec 524288 ra), (Z.ltb_spec ra 524288),
        (Z.ltb_spec 524288 rb), (Z.ltb_spec rb 524288);
        destruct (Z.even qa); lia.
    + destruct (Z.ltb_spec 524288 ra), (Z.ltb_spec ra 524288),
        (Z.ltb_spec 524288 rb), (Z.ltb_spec rb 524288);
        destruct (Z.even qa), (Z.even qb); lia.
  - intros n Hn. unfold Base.format_mb, Base.tenths_of_mb. cbv zeta.
    replace (10 * (n * 1048576))%Z with ((10 * n) * 1048576)%Z by lia.
    rewrite Z.mod_mul, Z.div_mul by done. cbn [Z.ltb Z.compare].
    replace (10 * n)%Z with (n * 10)%Z by lia.
    by rewrite Z.div_mul, Z.mod_mul by done.
Qed.

(** ** file_handler.py *)

Section AllChars.
Implicit Types (P Q : ascii → bool) (s t : string).

Lemma all_chars_app P s t :
  all_chars P (s +:+ t) = all_chars P s && all_chars P t.
Proof.
  induction s as [|c s IH]; [done|]. cbn [String.append all_chars].
  by rewrite IH, andb_assoc.
Qed.

Lemma all_chars_take P n s :
  all_chars P s = true → all_chars P (Str.take n s) = true.
Proof.
  revert s. induction n as [|n IH]; intros [|c s]; try done.
  cbn [all_chars Str.take]. intros [-> Hs]%andb_true_iff. by apply IH.
Qed.

Lemma all_chars_drop P n s :
  all_chars P s = true → all_chars P (Str.drop n s) = true.
Proof.
  revert s. induction n as [|n IH]; intros [|c s]; try done.
  cbn [all_chars Str.drop]. intros [_ Hs]%andb_true_iff. by apply IH.
Qed.

Lemma all_chars_weaken P Q s :
  (∀ c, P c = true → Q c = true) → all_chars P s = true →
  all_chars Q s = true.
Proof.
  intros HPQ. induction s as [|c s IH]; [done|]. cbn [all_chars].
  intros [Hc Hs]%andb_true_iff. by rewrite (HPQ c Hc), IH.
Qed.
End AllChars.

Section Sub.
Implicit Types (p q : ascii → bool) (s repl : string).

Lemma len_cons_sub c s : Str.len (String c s) - Str.len s = 1.
Proof. unfold Str.len. cbn [String.length]. lia. Qed.

(** [re.sub] of a character class: the characters of the class are
    replaced one by one. *)
Lemma sub_cls_cons p repl c s :
  Re.sub (Re.Cls p) repl (String c s) =
    if p c then repl +:+ Re.sub (Re.Cls p) repl s
    else String c (Re.sub (Re.Cls p) repl s).
Proof.
  unfold Re.sub. cbn [Re.sub_from]. unfold Re.match_here. cbn [Re.run].
  destruct (p c); [|done]. cbn [snd]. by rewrite len_cons_sub.
Qed.

Lemma sub_cls_removes p s :
  all_chars (λ c, negb (p c)) (Re.sub (Re.Cls p) "" s) = true.
Proof.
  induction s as [|c s IH]; [done|]. rewrite sub_cls_cons.
  destruct (p c) eqn:Hc; [done|]. cbn [all_chars]. by rewrite Hc, IH.
Qed.

Lemma sub_cls_keeps p s :
  all_chars (λ c, negb (p c)) s = true → Re.sub (Re.Cls p) "" s = s.
Proof.
  induction s as [|c s IH]; [done|]. rewrite sub_cls_cons.
  cbn [all_chars]. intros [Hc Hs]%andb_true_iff.
  destruct (p c); [done|]. by rewrite IH.
Qed.

Lemma sub_skip_run q repl s :
  Re.sub_from (Re.plus q) repl (Str.len (run_of q s)) s
  = Re.sub (Re.plus q) repl (after_run q s).
Proof.
  induction s as [|c s IH]; [done|]. cbn [run_of after_run].
  destruct (q c); [|done]. unfold Str.len in *.
  cbn [String.length Re.sub_from]. apply IH.
Qed.

(** [re.sub] of a repeated class: each run is replaced as a whole. *)
Lemma sub_plus_cons q repl c s :
  Re.sub (Re.plus q) repl (String c s) =
    if q c then repl +:+ Re.sub (Re.plus q) repl (after_run q s)
    else String c (Re.sub (Re.plus q) repl s).
Proof.
  unfold Re.sub at 1. cbn [Re.sub_from]. unfold Re.match_here.
  cbn [Re.run Re.plus]. rewrite many_greedy_run by done.
  cbn [run_of after_run]. destruct (q c); [|done].
  cbn [Str.len String.length Nat.leb snd].
  pose proof (run_len q s) as Hlen. unfold Str.len in Hlen.
  replace (S (String.length s) - String.length (after_run q s))
    with (S (String.length (run_of q s))).
  - f_equal. apply sub_skip_run.
  - pose proof (run_split q s) as Hs. apply (f_equal String.length) in Hs.
    pose proof (len_app (run_of q s) (after_run q s)) as Happ.
    unfold Str.len in Happ. lia.
Qed.

Lemma after_run_len q s : Str.len (after_run q s) ≤ Str.len s.
Proof.
  rewrite <- (run_split q s) at 2. rewrite len_app. lia.
Qed.

(** What is left after the runs are replaced: the replacement and the
    characters outside the class. *)
Lemma sub_plus_chars q Q repl s :
  all_chars Q repl = true →
  all_chars (λ c, q c || Q c) s = true →
  all_chars Q (Re.sub (Re.plus q) repl s) = true.
Proof.
  intros Hrepl. remember (Str.len s) as n eqn:Hn.
  assert (Hle : Str.len s ≤ n) by lia. clear Hn. revert s Hle.
  induction n as [|n IH]; intros [|c s] Hle; try done.
  { unfold Str.len in Hle. cbn in Hle. lia. }
  rewrite sub_plus_cons. cbn [all_chars].
  intros [Hc Hs]%andb_true_iff. destruct (q c) eqn:Hq.
  - rewrite all_chars_app, Hrepl. cbn [andb]. apply IH.
    + pose proof (after_run_len q s). unfold Str.len in *. cbn in Hle. lia.
    + rewrite <- (run_split q s), all_chars_app in Hs.
      by apply andb_true_iff in Hs as [_ ?].
  - cbn [orb] in Hc. cbn [all_chars]. rewrite Hc. cbn [andb]. apply IH; [|done].
    unfold Str.len in *. cbn in Hle. lia.
Qed.

Lemma sub_plus_keeps q repl s :
  all_chars (λ c, negb (q c)) s = true → Re.sub (Re.plus q) repl s = s.
Proof.
  induction s as [|c s IH]; [done|]. rewrite sub_plus_cons.
  cbn [all_chars]. intros [Hc Hs]%andb_true_iff.
  destruct (q c); [done|]. by rewrite IH.
Qed.
End Sub.

Section Splitext.
Import FileHandler.

Lemma splitext_parts p : (splitext p).1 +:+ (splitext p).2 = p.
Proof.
  unfold splitext. cbv zeta. repeat case_match; cbn [fst snd];
    by rewrite ?app_empty_r, ?take_drop.
Qed.

Lemma rfind_absent c s : has_char c s = false → rfind c s = (-1)%Z.
Proof.
  induction s as [|a s IH]; [done|]. cbn [has_char rfind].
  intros [Ha Hs]%orb_false_elim. by rewrite (IH Hs), Ha.
Qed.

Lemma rfind_lower_bound c s : (-1 ≤ rfind c s)%Z.
Proof.
  induction s as [|a s IH]; [done|]. cbn [rfind].
  repeat case_match; lia.
Qed.

Lemma splitext_no_dot p : has_char "." p = false → splitext p = (p, "").
Proof.
  intros Hp. unfold splitext. cbv zeta. rewrite (rfind_absent "." p Hp).
  pose proof (rfind_lower_bound "/" p).
  by destruct (Z.ltb_spec (rfind "/" p) (-1)); [lia|].
Qed.
End Splitext.

Section SafeName.
Import FileHandler.

Lemma sanitised_chars filename :
  all_chars safe_char
    (Re.sub (Re.plus dash_or_space) "-"
       (Re.sub (Re.Cls unsafe_char) "" filename)) = true.
Proof.
  apply sub_plus_chars; [done|].
  eapply all_chars_weaken; [|apply sub_cls_removes].
  intros c. unfold unsafe_char, dash_or_space, safe_char.
  rewrite negb_involutive.
  destruct (Re.word c), (Re.space c), (Re.just "." c), (Re.just "-" c); done.
Qed.

Lemma safe_char_not_slash c : safe_char c = true → c ≠ "/"%char.
Proof. by intros Hc ->. Qed.

Lemma safe_char_not_space c : safe_char c = true → negb (Re.space c) = true.
Proof. by destruct c as [[] [] [] [] [] [] [] []]. Qed.
End SafeName.

(** X20.  A safe file name is never empty and is made of the characters
    that [\w] matches (letters, accented ones and the other alphanumeric
    characters of the code points below 256 among them, digits and [_]),
    [.] and [-] only: it has no slash and none of the characters that [\s]
    matches in it.  It is at most 100 characters long when the given name
    has no dot (an extension is kept whole, however long). *)
Theorem safe_filename_is_safe (filename : string) :
  let safe := FileHandler.get_safe_filename filename in
  safe ≠ "" ∧ all_chars safe_char safe = true ∧
  has_char "/" safe = false ∧
  all_chars (λ c, negb (Re.space c)) safe = true ∧
  (has_char "." filename = false → Str.len safe ≤ 100).
Proof.
  intros safe.
  assert (Hchars : all_chars safe_char safe = true).
  { unfold safe, FileHandler.get_safe_filename. cbv zeta.
    pose proof (sanitised_chars filename) as Hs.
    set (s := Re.sub (Re.plus _) "-" _) in *.
    assert (all_chars safe_char
              (if 100 <? Str.len s
               then let '(name, ext) := FileHandler.splitext s in
                    Str.take 95 name +:+ ext
               else s) = true) as Hcut.
    { destruct (100 <? Str.len s); [|done].
      pose proof (splitext_parts s) as Hparts.
      destruct (FileHandler.splitext s) as [name ext]. cbn [fst snd] in Hparts.
      rewrite <- Hparts, all_chars_app in Hs.
      apply andb_true_iff in Hs as [Hname Hext].
      by rewrite all_chars_app, (all_chars_take _ _ _ Hname), Hext. }
    by destruct (bool_decide _). }
  split; [|split; [done|split; [|split]]].
  - unfold safe, FileHandler.get_safe_filename. cbv zeta.
    by case_bool_decide.
  - apply (all_chars_absent safe_char); done.
  - eapply all_chars_weaken; [|exact Hchars]. apply safe_char_not_space.
  - intros Hdot. unfold safe, FileHandler.get_safe_filename. cbv zeta.
    set (s := Re.sub (Re.plus _) "-" _).
    assert (Hsdot : has_char "." s = false).
    { apply (all_chars_absent (λ c, negb (Re.just "." c))); [done|].
      apply sub_plus_chars; [done|].
      assert (all_chars (λ c, negb (Re.just "." c)) filename = true) as Hf.
      { clear -Hdot. induction filename as [|c f IH]; [done|].
        cbn [has_char] in Hdot. apply orb_false_elim in Hdot as [Hc Hf].
        cbn [all_chars]. unfold Re.just at 1. by rewrite Hc, IH. }
      clear -Hf. induction filename as [|c f IH]; [done|].
      cbn [all_chars] in Hf. apply andb_true_iff in Hf as [Hc Hf].
      rewrite sub_cls_cons. destruct (FileHandler.unsafe_char c); [by apply IH|].
      cbn [all_chars]. rewrite Hc, orb_true_r. by apply IH. }
    destruct (Nat.ltb_spec 100 (Str.len s)) as [Hlong|Hshort].
    + rewrite (splitext_no_dot s Hsdot), app_empty_r.
      assert (Str.len (Str.take 95 s) = 95) as Hlen by (apply take_len; lia).
      case_bool_decide; [cbn; lia | lia].
    + case_bool_decide; [cbn; lia | lia].
Qed.

(** X21.  A name of at most 100 letters, digits, [_] and [.], such as the
    names that the TikTok and Pinterest downloaders give to their files, is
    safe already: it is left as it is. *)
Theorem safe_filename_keeps_plain_names (filename : string) :
  filename ≠ "" → Str.len filename ≤ 100 →
  all_chars (λ c, Re.word c || Re.just "." c) filename = true →
  FileHandler.get_safe_filename filename = filename.
Proof.
  intros Hne Hlen Hall. unfold FileHandler.get_safe_filename. cbv zeta.
  rewrite sub_cls_keeps.
  2:{ eapply all_chars_weaken; [|exact Hall]. intros c.
      unfold FileHandler.unsafe_char. rewrite negb_involutive.
      destruct (Re.word c), (Re.just "." c); try done.
      all: by rewrite ?orb_true_r. }
  rewrite sub_plus_keeps.
  2:{ eapply all_chars_weaken; [|exact Hall].
      by intros [[] [] [] [] [] [] [] []]. }
  destruct (Nat.ltb_spec 100 (Str.len filename)); [lia|].
  by case_bool_decide.
Qed.

Lemma safe_filename_keeps_plain_names_witness :
  FileHandler.get_safe_filename "tiktok_123.mp4" = "tiktok_123.mp4".
Proof.
  apply (safe_filename_keeps_plain_names "tiktok_123.mp4");
    [discriminate | vm_compute; lia | reflexivity].
Defined.

Section FileChecks.
Import FileHandler.
Context (E : env) (guess_type : string → option string).

Lemma get_file_info_run p w :
  get_file_info guess_type p w =
    match files w !! p with
    | Some c =>
        (Ret (Z.of_nat (Str.len c),
              match guess_type p with
              | Some t => if bool_decide (t = "")
                          then "application/octet-stream" else t
              | None => "application/octet-stream"
              end,
              Str.lower (splitext p).2), w)
    | None => (Raise (Exn OSError ("File not found: " +:+ p)), w)
    end.
Proof.
  unfold get_file_info, mbind, M_bind, bind, Base.path_exists, Base.getsize.
  destruct (files w !! p) as [c|] eqn:Hp.
  - rewrite bool_decide_eq_true_2 by done. cbn [negb]. by rewrite Hp.
  - by rewrite bool_decide_eq_false_2 by (by intros [??]).
Qed.

Lemma is_valid_media_file_run p w :
  is_valid_media_file guess_type p w =
    (Ret match (get_file_info guess_type p w).1 with
         | Ret (_, mime_type, ext) =>
             bool_decide (mime_type ∈ valid_video_types ++ valid_image_types)
             || bool_decide (ext ∈ valid_extensions)
         | Raise _ => false
         end, w).
Proof.
  unfold is_valid_media_file, try_except, mbind, M_bind, bind.
  rewrite get_file_info_run. by destruct (files w !! p).
Qed.

Lemma ensure_telegram_compatibility_run p w :
  ensure_telegram_compatibility E guess_type p w =
    (Ret match (get_file_info guess_type p w).1 with
         | Ret (file_size, mime_type, _) =>
             if Str.contains "video" mime_type
             then (file_size <=? MAX_VIDEO_SIZE (cfg E))%Z
             else if Str.contains "image" mime_type
                  then (file_size <=? MAX_PHOTO_SIZE (cfg E))%Z
                  else false
         | Raise _ => false
         end, w).
Proof.
  unfold ensure_telegram_compatibility, try_except, mbind, M_bind, bind.
  rewrite get_file_info_run. destruct (files w !! p); [|done].
  cbn [fst]. by repeat case_match.
Qed.
End FileChecks.

(** X22.  The two checks of the file handler never raise and leave the
    world as it is; on a path where there is no file they answer False. *)
Theorem file_checks_are_quiet
    (E : env) (guess_type : string → option string) (p : string) (w : world) :
  (∃ b, FileHandler.is_valid_media_file guess_type p w = (Ret b, w)) ∧
  (∃ b, FileHandler.ensure_telegram_compatibility E guess_type p w = (Ret b, w)) ∧
  (files w !! p = None →
   FileHandler.is_valid_media_file guess_type p w = (Ret false, w) ∧
   FileHandler.ensure_telegram_compatibility E guess_type p w = (Ret false, w)).
Proof.
  rewrite is_valid_media_file_run, ensure_telegram_compatibility_run.
  split; [by eexists|]. split; [by eexists|].
  intros Hp. rewrite get_file_info_run, Hp. done.
Qed.

Section Compatible.
Context (E : env) (guess_type : string → option string).

Lemma downloaded_file_path file_path media_type title :
  downloaded file_path media_type title !! "file_path"
  = Some (VStr file_path).
Proof. done. Qed.

Lemma downloaded_media_type file_path media_type title :
  downloaded file_path media_type title !! "media_type"
  = Some (VStr media_type).
Proof. done. Qed.

Lemma settle_compatible platform p w1 d path media_type mime :
  plan_coherent E p →
  (settle E platform (Ret (inr p), w1)).1 = Ret d →
  d !! "success" = Some (VBool true) →
  d !! "file_path" = Some (VStr path) →
  d !! "media_type" = Some (VStr media_type) →
  guess_type path = Some mime → mime_agrees media_type mime →
  (FileHandler.ensure_telegram_compatibility E guess_type path
     (settle E platform (Ret (inr p), w1)).2).1 = Ret true.
Proof.
  intros Hplan Hd Hsuccess Hpath Htype Hguess Hmime.
  rewrite ensure_telegram_compatibility_run, get_file_info_run. cbn [fst].
  unfold settle in *. destruct (transfer _) as [e|content].
  { destruct (except_exception _); [|done].
    cbn [fst] in Hd. injection Hd as <-. done. }
  cbv zeta in *.
  destruct (Z.ltb_spec (plan_limit p) (Z.of_nat (Str.len content)))
    as [Hbig|Hfits].
  { cbn [fst] in Hd. injection Hd as <-. done. }
  cbn [fst snd files] in *. injection Hd as <-.
  rewrite downloaded_file_path in Hpath. injection Hpath as <-.
  rewrite downloaded_media_type in Htype. injection Htype as <-.
  rewrite lookup_insert_eq, Hguess. cbn [fst].
  assert (Hne : mime ≠ "").
  { intros ->. by destruct Hmime as [[_ ?]|(_ & _ & ?)]. }
  rewrite bool_decide_eq_false_2 by done.
  destruct Hmime as [[Ht Hv]|(Ht & Hv & Hi)],
      Hplan as [[Ht' Hl]|[Ht' Hl]]; try congruence.
  - rewrite Hv. f_equal. apply Z.leb_le. lia.
  - rewrite Hv, Hi. f_equal. apply Z.leb_le. lia.
Qed.

Lemma tiktok_plan_coherent i p : tiktok_plan E i = inr p → plan_coherent E p.
Proof. destruct i; intros [= <-]. by left. Qed.

Lemma instagram_plan_coherent i p :
  instagram_plan E i = inr p → plan_coherent E p.
Proof.
  destruct i as [|mid murl isv caption]; [done|]. cbn [instagram_plan].
  destruct (truthy isv); intros [= <-]; [by left | by right].
Qed.

Lemma pinterest_plan_coherent i p :
  pinterest_plan E i = inr p → plan_coherent E p.
Proof.
  destruct i as [|pid murl isv title]; [done|]. cbn [pinterest_plan].
  destruct isv; intros [= <-]; [by left | by right].
Qed.

Lemma planned_compatible {I} platform (f : I → string + plan)
    (x : res I * world) d path media_type mime :
  (∀ i p, f i = inr p → plan_coherent E p) →
  (settle E platform (planned f x)).1 = Ret d →
  d !! "success" = Some (VBool true) →
  d !! "file_path" = Some (VStr path) →
  d !! "media_type" = Some (VStr media_type) →
  guess_type path = Some mime → mime_agrees media_type mime →
  (FileHandler.ensure_telegram_compatibility E guess_type path
     (settle E platform (planned f x)).2).1 = Ret true.
Proof.
  intros Hf. destruct x as [[i|e] w1]; unfold planned; cbn [fst snd].
  - destruct (f i) as [error|p] eqn:Hp.
    + intros [= <-]. done.
    + apply settle_compatible. by apply (Hf i).
  - cbn [settle]. destruct (except_exception _); [|done].
    intros [= <-]. done.
Qed.
End Compatible.

(** X23.  The ceiling that a download applies is the one that the file
    handler applies afterwards: when a download of one of the three
    platforms reports a success, and the MIME type of the stored file agrees
    with the reported media type, the file passes
    [ensure_telegram_compatibility]. *)
Theorem accepted_download_is_telegram_compatible
    (E : env) (guess_type : string → option string)
    (download : string → M dict) (url : string) (w : world) (d : dict)
    (path media_type mime : string) :
  download ∈ [TikTok.download E; Instagram.download E; Pinterest.download E] →
  (download url w).1 = Ret d →
  d !! "success" = Some (VBool true) →
  d !! "file_path" = Some (VStr path) →
  d !! "media_type" = Some (VStr media_type) →
  guess_type path = Some mime → mime_agrees media_type mime →
  (FileHandler.ensure_telegram_compatibility E guess_type path
     (download url w).2).1 = Ret true.
Proof.
  intros Hin.
  apply elem_of_cons in Hin as [->|Hin];
    [|apply elem_of_cons in Hin as [->|Hin];
      [|apply elem_of_cons in Hin as [->|Hin]; [|by apply elem_of_nil in Hin]]].
  - rewrite tiktok_download_run. apply planned_compatible.
    apply tiktok_plan_coherent.
  - rewrite instagram_download_run. apply planned_compatible.
    apply instagram_plan_coherent.
  - rewrite pinterest_download_run. apply planned_compatible.
    apply pinterest_plan_coherent.
Qed.

Lemma accepted_download_is_telegram_compatible_witness :
  (FileHandler.ensure_telegram_compatibility fixture_tiktok fixture_guess_type
     "downloads/tiktok_123.mp4"
     (TikTok.download fixture_tiktok Fixture.tiktok_url Fixture.start).2).1
  = Ret true.
Proof.
  apply (accepted_download_is_telegram_compatible fixture_tiktok
           fixture_guess_type (TikTok.download fixture_tiktok)
           Fixture.tiktok_url Fixture.start
           (downloaded "downloads/tiktok_123.mp4" "video" (VStr "TikTok Video"))
           "downloads/tiktok_123.mp4" "video" "video/mp4").
  - apply elem_of_cons. left. reflexivity.
  - vm_compute. reflexivity.
  - reflexivity.
  - reflexivity.
  - reflexivity.
  - reflexivity.
  - left. split; reflexivity.
Defined.

Section SplitextFacts.
Import FileHandler.
Implicit Types (s t p : string) (c : ascii).

Lemma rfind_last c s t :
  has_char c t = false → rfind c (s +:+ String c t) = Z.of_nat (Str.len s).
Proof.
  intros Ht. induction s as [|a s IH].
  - cbn [String.append rfind]. rewrite (rfind_absent c t Ht).
    by rewrite Ascii.eqb_refl.
  - cbn [String.append rfind]. rewrite IH.
    destruct (Z.leb_spec 0 (Z.of_nat (Str.len s))); [|lia].
    unfold Str.len. cbn [String.length]. lia.
Qed.

Lemma len_drop_eq n s : Str.len (Str.drop n s) = Str.len s - n.
Proof.
  revert s. induction n as [|n IH]; intros [|a s]; cbn [Str.drop];
    rewrite ?IH; unfold Str.len; cbn [String.length]; lia.
Qed.

Lemma drop_app_exact s t : Str.drop (Str.len s) (s +:+ t) = t.
Proof. induction s as [|a s IH]; [by destruct t | done]. Qed.

Lemma only_dots_app s t : only_dots (s +:+ t) = only_dots s && only_dots t.
Proof.
  induction s as [|a s IH]; [done|]. cbn [String.append only_dots].
  by rewrite IH, andb_assoc.
Qed.

(** The extension of a path whose last component is [base], a dot and
    [ext]. *)
Lemma splitext_ext dir base ext :
  (dir = "" ∨ ∃ d, dir = d +:+ "/") →
  has_char "/" base = false → only_dots base = false →
  has_char "/" ext = false → has_char "." ext = false →
  splitext (dir +:+ base +:+ "." +:+ ext) = (dir +:+ base, "." +:+ ext).
Proof.
  intros Hdir Hbase Hdots Hext Hext'. unfold splitext. cbv zeta.
  change ("." +:+ ext) with (String "." ext).
  set (tail := String "." ext).
  assert (Hdot : rfind "." (dir +:+ base +:+ tail)
                 = Z.of_nat (Str.len (dir +:+ base))).
  { rewrite <- app_assoc_str. by apply rfind_last. }
  assert (Hrest : has_char "/" (base +:+ tail) = false).
  { by rewrite has_char_app, Hbase. }
  assert (Hsep : (rfind "/" (dir +:+ base +:+ tail) + 1)%Z
                 = Z.of_nat (Str.len dir)).
  { destruct Hdir as [->|[d ->]].
    - change ("" +:+ base +:+ tail) with (base +:+ tail).
      by rewrite (rfind_absent _ _ Hrest).
    - rewrite app_assoc_str.
      change ("/" +:+ base +:+ tail) with (String "/" (base +:+ tail)).
      rewrite (rfind_last "/" d _ Hrest), len_app. cbn. lia. }
  rewrite Hdot, Hsep, len_app, !Nat2Z.id.
  destruct (Z.ltb_spec (rfind "/" (dir +:+ base +:+ tail))
              (Z.of_nat (Str.len dir + Str.len base))) as [_|Hge];
    [|pose proof (rfind_lower_bound "/" (dir +:+ base +:+ tail)); lia].
  replace (Str.len dir + Str.len base - Str.len dir) with (Str.len base) by lia.
  rewrite drop_app_exact, take_app_exact, Hdots.
  rewrite <- len_app, <- app_assoc_str.
  by rewrite take_app_exact, drop_app_exact.
Qed.

Lemma ends_with_slash a :
  Str.startswith (Str.drop (Str.len a - 1) a) "/" = true → ∃ d, a = d +:+ "/".
Proof.
  intros (r & Hr)%startswith_app.
  exists (Str.take (Str.len a - 1) a).
  rewrite <- (take_drop (Str.len a - 1) a) at 1. rewrite Hr. f_equal.
  destruct r as [|b r]; [done|].
  apply (f_equal Str.len) in Hr. rewrite len_drop_eq in Hr.
  unfold Str.len in Hr. cbn in Hr. lia.
Qed.

Lemma path_join_parts a b :
  Str.startswith b "/" = false →
  ∃ dir, Base.path_join a b = dir +:+ b ∧ (dir = "" ∨ ∃ d, dir = d +:+ "/").
Proof.
  intros Hb. unfold Base.path_join. rewrite Hb.
  case_bool_decide as Ha; cbn [orb].
  - subst a. exists "". by split; [|left].
  - destruct (Str.startswith (Str.drop (Str.len a - 1) a) "/") eqn:Hend.
    + exists a. split; [done|]. right. by apply ends_with_slash.
    + exists (a +:+ "/"). split; [by rewrite app_assoc_str|]. right. by exists a.
Qed.
End SplitextFacts.

Section ValidMedia.
Context (E : env) (guess_type : string → option string).

Lemma media_name_valid dir prefix p exts name :
  (dir = "" ∨ ∃ d, dir = d +:+ "/") →
  has_char "/" prefix = false → FileHandler.only_dots prefix = false →
  p "/"%char = false →
  (∀ ext, ext ∈ exts → ext ∈ ["mp4"; "jpg"; "png"]) →
  media_name prefix p exts name →
  Str.lower (FileHandler.splitext (dir +:+ name)).2
  ∈ FileHandler.valid_extensions.
Proof.
  intros Hdir Hprefix Hdots Hp Hexts (id & ext & -> & _ & Hall & Hin).
  apply Hexts in Hin.
  assert (has_char "/" ext = false ∧ has_char "." ext = false
          ∧ Str.lower ("." +:+ ext) ∈ FileHandler.valid_extensions)
    as (Hext & Hext' & Hvalid).
  { repeat (apply elem_of_cons in Hin as [->|Hin];
            [split; [done|split; [done|compute_done]]|]).
    by apply elem_of_nil in Hin. }
  replace (dir +:+ prefix +:+ id +:+ "." +:+ ext)
    with (dir +:+ (prefix +:+ id) +:+ "." +:+ ext)
    by (by rewrite !app_assoc_str).
  rewrite splitext_ext; try done.
  - by rewrite has_char_app, Hprefix, (all_chars_absent p "/" id Hp Hall).
  - by rewrite only_dots_app, Hdots.
Qed.

Lemma planned_valid {I} platform (f : I → string + plan) (m : M I) w
    prefix p exts d path :
  ensures m (λ i, plan_named (media_name prefix p exts) (f i)) →
  (∃ c rest, prefix = String c rest ∧ c ≠ "/"%char ∧ c ≠ "."%char) →
  has_char "/" prefix = false → p "/"%char = false →
  (∀ ext, ext ∈ exts → ext ∈ ["mp4"; "jpg"; "png"]) →
  (settle E platform (planned f (m w))).1 = Ret d →
  d !! "success" = Some (VBool true) →
  d !! "file_path" = Some (VStr path) →
  (FileHandler.is_valid_media_file guess_type path
     (settle E platform (planned f (m w))).2).1 = Ret true.
Proof.
  intros Hnamed (c & rest & Hc & Hslash & Hdot) Hprefix Hp Hexts.
  rewrite is_valid_media_file_run, get_file_info_run. cbn [fst].
  pose proof (planned_named f m (media_name prefix p exts) w) as Hname.
  destruct (planned f (m w)) as [[[error|pl]|e] w1] eqn:Hpl;
    cbn [fst] in Hname; unfold settle.
  - intros [= <-]. done.
  - specialize (Hname pl Hnamed eq_refl).
    destruct (transfer _) as [e|content];
      [destruct (except_exception _); [intros [= <-]; done | done]|].
    cbv zeta. destruct (_ <? _)%Z; [intros [= <-]; done|].
    cbn [fst snd files]. intros [= <-] _.
    rewrite downloaded_file_path. intros [= <-].
    rewrite lookup_insert_eq. cbn [fst]. f_equal.
    apply orb_true_iff. right. apply bool_decide_eq_true_2.
    unfold target.
    assert (Hstart : Str.startswith (plan_filename pl) "/" = false).
    { destruct Hname as (id & ext & -> & _). subst prefix.
      cbn [String.append]. rewrite startswith_cons.
      by destruct (Ascii.eqb_spec "/" c). }
    destruct (path_join_parts (DOWNLOAD_DIR (cfg E)) _ Hstart)
      as (dir & -> & Hdir).
    apply (media_name_valid dir prefix p exts); try done.
    subst prefix. cbn [FileHandler.only_dots].
    by destruct (Ascii.eqb_spec c ".").
  - destruct (except_exception _); [intros [= <-]; done | done].
Qed.
End ValidMedia.

(** X24.  What a download reports as stored is a media file for the file
    handler: when a download of one of the three platforms reports a
    success, the file at the reported path passes [is_valid_media_file] by
    its extension, whatever the table of MIME types says. *)
Theorem reported_file_is_valid_media
    (E : env) (guess_type : string → option string)
    (download : string → M dict) (url : string) (w : world) (d : dict)
    (path : string) :
  download ∈ [TikTok.download E; Instagram.download E; Pinterest.download E] →
  (download url w).1 = Ret d →
  d !! "success" = Some (VBool true) →
  d !! "file_path" = Some (VStr path) →
  (FileHandler.is_valid_media_file guess_type path (download url w).2).1
  = Ret true.
Proof.
  intros Hin.
  apply elem_of_cons in Hin as [->|Hin];
    [|apply elem_of_cons in Hin as [->|Hin];
      [|apply elem_of_cons in Hin as [->|Hin]; [|by apply elem_of_nil in Hin]]].
  - rewrite tiktok_download_run.
    apply (planned_valid E guess_type "TikTok" (tiktok_plan E) _ w "tiktok_"
             Re.digit ["mp4"]); [apply tiktok_info_named|by eexists _, _|done|done|].
    intros ext Hext.
    repeat (apply elem_of_cons in Hext as [->|Hext]; [compute_done|]).
    by apply elem_of_nil in Hext.
  - rewrite instagram_download_run.
    apply (planned_valid E guess_type "Instagram" (instagram_plan E) _ w
             "instagram_" Re.code_char ["mp4"; "jpg"]);
      [apply instagram_info_named|by eexists _, _|done|done|].
    intros ext Hext.
    repeat (apply elem_of_cons in Hext as [->|Hext]; [compute_done|]).
    by apply elem_of_nil in Hext.
  - rewrite pinterest_download_run.
    apply (planned_valid E guess_type "Pinterest" (pinterest_plan E) _ w
             "pinterest_" Re.digit ["mp4"; "jpg"; "png"]);
      [apply pinterest_info_named|by eexists _, _|done|done|].
    intros ext Hext.
    repeat (apply elem_of_cons in Hext as [->|Hext]; [compute_done|]).
    by apply elem_of_nil in Hext.
Qed.

Lemma reported_file_is_valid_media_witness :
  (FileHandler.is_valid_media_file (λ _, None) "downloads/instagram_Cabc_1.jpg"
     (Instagram.download (Fixture.instagram_photo ["abc"]) Fixture.instagram_url
        Fixture.start).2).1
  = Ret true.
Proof.
  apply (reported_file_is_valid_media (Fixture.instagram_photo ["abc"])
           (λ _, None) (Instagram.download (Fixture.instagram_photo ["abc"]))
           Fixture.instagram_url Fixture.start
           (downloaded "downloads/instagram_Cabc_1.jpg" "photo"
              (VStr "Instagram Photo"))
           "downloads/instagram_Cabc_1.jpg").
  - apply elem_of_cons. right. apply elem_of_cons. left. reflexivity.
  - vm_compute. reflexivity.
  - reflexivity.
  - reflexivity.
Defined.

(** ** The resolvers: early exits *)

(** X25.  A link from which no identifier can be read costs little.  TikTok
    reads the video id from the URL that its first request ends at, whatever
    the given URL looks like: with no digits behind a [/video/] there, or
    with the request refused, the download fails after this one request
    (an exception that [except Exception] does not catch, a cancellation
    for one, goes through to the caller instead).  Pinterest, for a link
    that is not a [pin.it] one and has no digits behind a [/pin/], fails
    without any request.  No file is touched. *)
Theorem unreadable_links_cost_little (E : env) (url : string) (w : world) :
  (∀ r, net E (sent w) (VStr url) = Answered r →
        id_after "/video/" Re.digit (final_url r) = None →
        TikTok.download E url w =
          (Ret (Base.no_info "Could not extract video ID from URL"),
           World (files w) (S (sent w)))) ∧
  (∀ e, net E (sent w) (VStr url) = Refused e →
        TikTok.download E url w =
          (if except_exception (exn_class_of e)
           then Ret (Base.no_info ("Failed to get video info: "
                                     +:+ exn_str e))
           else Raise e,
           World (files w) (S (sent w)))) ∧
  (Str.contains "pin.it" url = false →
   id_after "/pin/" Re.digit url = None →
   Pinterest.download E url w =
     (Ret (Base.no_info "Could not extract pin ID from URL"), w)).
Proof.
  split; [|split].
  - intros r Hnet Hid. rewrite tiktok_download_run.
    unfold TikTok._get_video_info, try_except, mbind, M_bind, bind,
      Base.session_get, TikTok.video_id_re.
    by rewrite Hnet, (id_after_search _ _ _ Hid).
  - intros e Hnet. rewrite tiktok_download_run.
    unfold TikTok._get_video_info, try_except, mbind, M_bind, bind,
      Base.session_get.
    rewrite Hnet. destruct (except_exception _) eqn:Hclass; [done|].
    unfold planned, settle. cbn [fst snd]. by rewrite Hclass.
  - intros Hshort Hid. rewrite pinterest_download_run.
    unfold Pinterest._get_pin_info, try_except, mbind, M_bind, bind,
      Pinterest.pin_id_re.
    rewrite Hshort. cbn [mret M_ret ret].
    by rewrite (id_after_search _ _ _ Hid).
Qed.

(** X26.  When the page of the media is answered with a status other than
    200, the download fails with a message that quotes the status; the
    media itself is not asked for, and no file is touched. *)
Theorem page_status_is_reported (E : env) (url : string) (w : world) :
  (∀ r1 m r2,
     net E (sent w) (VStr url) = Answered r1 →
     Re.search TikTok.video_id_re (final_url r1) = Some m →
     net E (S (sent w)) (VStr (final_url r1)) = Answered r2 →
     status r2 ≠ 200%Z →
     TikTok.download E url w =
       (Ret (Base.no_info ("Failed to access TikTok page: HTTP "
                             +:+ pretty (status r2))),
        World (files w) (S (S (sent w))))) ∧
  (∀ m r,
     match Re.search Instagram.post_re url with
     | Some m => Some m
     | None => Re.search Instagram.reel_re url
     end = Some m →
     net E (sent w)
       (VStr ("https://www.instagram.com/p/" +:+ Re.group1 m +:+ "/embed/"))
     = Answered r →
     status r ≠ 200%Z →
     Instagram.download E url w =
       (Ret (Base.no_info ("Failed to access Instagram embed: HTTP "
                             +:+ pretty (status r))),
        World (files w) (S (sent w)))) ∧
  (∀ m r,
     Str.contains "pin.it" url = false →
     Re.search Pinterest.pin_id_re url = Some m →
     net E (sent w) (VStr url) = Answered r →
     status r ≠ 200%Z →
     Pinterest.download E url w =
       (Ret (Base.no_info ("Failed to access Pinterest page: HTTP "
                             +:+ pretty (status r))),
        World (files w) (S (sent w)))).
Proof.
  split; [|split].
  - intros r1 m r2 Hfirst Hid Hpage Hstatus. rewrite tiktok_download_run.
    unfold TikTok._get_video_info, try_except, mbind, M_bind, bind,
      Base.session_get.
    cbn [files sent]. rewrite Hfirst. cbn [fst snd]. rewrite Hid.
    cbn [files sent]. rewrite Hpage.
    by destruct (Z.eqb_spec (status r2) 200).
  - intros m r Hcode Hpage Hstatus. rewrite instagram_download_run.
    unfold Instagram._get_media_info, try_except. rewrite Hcode.
    unfold mbind, M_bind, bind, Base.session_get. rewrite Hpage.
    by destruct (Z.eqb_spec (status r) 200).
  - intros m r Hshort Hid Hpage Hstatus. rewrite pinterest_download_run.
    unfold Pinterest._get_pin_info, try_except, mbind, M_bind, bind,
      Base.session_get.
    rewrite Hshort. cbn [mret M_ret ret]. rewrite Hid, Hpage.
    by destruct (Z.eqb_spec (status r) 200).
Qed.
